(** * AgentFlow: agent decision loop and workflow schedulers

    A shallow embedding of the core of the AgentFlow framework
    ([framework/agents/base.py], [framework/tools/base.py],
    [framework/orchestration/base.py], [framework/memory/base.py]) and the
    properties of its decision loop and of its two workflow schedulers.

    Python values are embedded as the inductive [value]; dictionaries keep
    their insertion order (association lists), because the DAG scheduler
    iterates over [dag.items()].  Code that raises returns an [outcome];
    loops that Python writes as [while] carry a fuel argument and the guard
    of the source, and report [OutOfFuel] when the fuel does not suffice. *)

From Stdlib Require Import ZArith Lia Ascii String DecimalString.
From stdpp Require Import gmap strings list.

Set Warnings "-register-all".
Local Open Scope string_scope.
Local Open Scope Z_scope.

(** ** Python values and exceptions *)

(** JSON-like Python data: [None], [bool], [int], [str], [list] and [dict]
    with string keys.  Floats do not occur in any control decision of the
    modelled code and are left out. *)
Inductive value : Type :=
| VNone
| VBool (b : bool)
| VInt (z : Z)
| VStr (s : string)
| VList (l : list value)
| VDict (d : list (string * value)).

(** Instances of Python's [Exception]: the class name and [str(e)]. *)
Record exn : Type := Exn { exn_class : string; exn_str : string }.

Definition ValueError (msg : string) : exn := Exn "ValueError" msg.
Definition TypeError (msg : string) : exn := Exn "TypeError" msg.
Definition KeyError (key : string) : exn := Exn "KeyError" ("'" +:+ key +:+ "'").

(** What a call produces: a value, a raised exception, or (for the model's
    fuelled loops only) exhaustion of the fuel. *)
Inductive outcome (A : Type) : Type :=
| Returned (a : A)
| Raised (e : exn)
| OutOfFuel.
Arguments Returned {A} a.
Arguments Raised {A} e.
Arguments OutOfFuel {A}.

(** Library functions of Python that the repository calls and does not
    define: [str()] on a non-string object, [json.loads], and the search
    [re.search(r"```json\n(.*?)\n```", content, re.DOTALL)] of the planner
    (its first group, when it matches). *)
Class PyEnv : Type := {
  str_object : value -> string;
  json_loads : string -> exn + value;
  re_search_json_block : string -> option string
}.

(** Python's [str()]: a string is returned as it is. *)
Definition py_str `{PyEnv} (v : value) : string :=
  match v with
  | VStr s => s
  | _ => str_object v
  end.

(** [k in d] and [d[k]] / [d.get(k)] on a dict. *)
Fixpoint dict_get (k : string) (d : list (string * value)) : option value :=
  match d with
  | [] => None
  | (k', v) :: d' => if String.eqb k' k then Some v else dict_get k d'
  end.

Definition dict_mem (k : string) (d : list (string * value)) : bool :=
  match dict_get k d with Some _ => true | None => false end.

(** [d[k] = v]: an existing key keeps its position, a new key goes last. *)
Fixpoint dict_set (k : string) (v : value) (d : list (string * value))
  : list (string * value) :=
  match d with
  | [] => [(k, v)]
  | (k', v') :: d' =>
      if String.eqb k' k then (k', v) :: d' else (k', v') :: dict_set k v d'
  end.

(** ** State and exception monad

    [M S A] is a computation over a mutable state [S] that returns, raises
    or runs out of fuel; the state changes made before a [raise] stay. *)
Definition M (S A : Type) : Type := S -> S * outcome A.

Definition ret {S A} (a : A) : M S A := fun s => (s, Returned a).
Definition raise {S A} (e : exn) : M S A := fun s => (s, Raised e).
Definition out_of_fuel {S A} : M S A := fun s => (s, OutOfFuel).
Definition bind {S A B} (m : M S A) (k : A -> M S B) : M S B :=
  fun s =>
    match m s with
    | (s', Returned a) => k a s'
    | (s', Raised e) => (s', Raised e)
    | (s', OutOfFuel) => (s', OutOfFuel)
    end.
Definition get_state {S} : M S S := fun s => (s, Returned s).
Definition modify {S} (f : S -> S) : M S unit := fun s => (f s, Returned tt).

Declare Scope py_scope.
Delimit Scope py_scope with py.
Notation "x <- m ;; k" := (bind m (fun x => k))
  (at level 100, m at next level, right associativity) : py_scope.
Notation "m ;;; k" := (bind m (fun _ => k))
  (at level 100, right associativity) : py_scope.

(** ** Workflow schedulers ([framework/orchestration/base.py]) *)

Module Orchestration.

(** One node of [workflow["dag"]]: [node_config.get("dependencies", [])] and
    [node_config.get("input_mapping")]; a key that is absent is [None]. *)
Record NodeConfig : Type := {
  dependencies : option (list string);
  input_mapping : option (list (string * string))
}.

(** [OrchestratorConfig.workflow], read with [.get]: an absent key is
    [None].  [dag] keeps the insertion order of the Python dict. *)
Record Workflow : Type := {
  sequence : option (list string);
  dag : option (list (string * NodeConfig));
  entry_point : option string;
  final_node : option string
}.

(** Of [OrchestratorConfig] the schedulers read [workflow] and
    [max_steps] (its [id], [name], [description] and [agents] are not read
    by [execute]). *)
Record OrchestratorConfig : Type := {
  workflow : Workflow;
  max_steps : Z
}.

(** Python truthiness of an optional string ([if not entry_point]). *)
Definition truthy_str (o : option string) : option string :=
  match o with
  | Some "" => None
  | other => other
  end.

Section WithEnv.
Context `{PyEnv}.

(** [BaseOrchestrator._format_input]. *)
Definition is_message (input_data : value) : bool :=
  match input_data with
  | VDict d => dict_mem "role" d && dict_mem "content" d
  | _ => false
  end.

Definition _format_input (input_data : value) : value :=
  if is_message input_data then input_data
  else
    let content :=
      match input_data with
      | VStr s => s
      | _ => py_str input_data
      end in
    VDict [("role", VStr "user"); ("content", VStr content)].

Section WithAgents.
(** The agents are stateful black boxes: [run] acts on a world [W] (their
    histories, the provider, ...) and returns or raises. *)
Context {W : Type}.

Definition Agent : Type := W -> value -> W * (exn + value).

(** The scheduler's state: the world and the log of the agent runs issued
    so far (the log is ghost state, the code keeps none). *)
Record Sched (E : Type) : Type := MkSched { world : W; trace : list E }.
Arguments MkSched {E}.
Arguments world {E}.
Arguments trace {E}.

(** [await agent.run(x)], logged as [ev]. *)
Definition agent_run {E} (agent : Agent) (ev : E) (x : value) : M (Sched E) value :=
  fun s =>
    let '(w', r) := agent (world s) x in
    (MkSched w' (trace s ++ [ev]),
     match r with inl e => Raised e | inr v => Returned v end).

Context (_agents : gmap string Agent).

(** *** SequentialOrchestrator *)

(** The event of a sequential run: the agent id and the input handed to it. *)
Definition SeqEvent : Type := (string * value)%type.

Fixpoint sequential_for (agent_sequence : list string) (current_input : value)
  : M (Sched SeqEvent) value :=
  match agent_sequence with
  | [] => ret current_input
  | agent_id :: rest =>
      match _agents !! agent_id with
      | None => raise (ValueError ("Agent " +:+ agent_id +:+ " not found"))
      | Some agent =>
          (current_input' <- agent_run agent (agent_id, current_input) current_input ;;
           sequential_for rest current_input')%py
      end
  end.

Definition SequentialOrchestrator_execute (config : OrchestratorConfig)
  (input_data : value) : M (Sched SeqEvent) value :=
  let agent_sequence := default [] (sequence (workflow config)) in
  match agent_sequence with
  | [] => raise (ValueError "Workflow must specify a sequence of agent IDs")
  | _ =>
      let current_input := _format_input input_data in
      sequential_for agent_sequence current_input
  end.

(** *** DAGOrchestrator *)

(** The event of a DAG run: the node whose agent is run, its configuration,
    the input handed to the agent and [results] at that moment. *)
Record DagEvent : Type := {
  ev_node : string;
  ev_config : NodeConfig;
  ev_input : value;
  ev_results : gmap string value
}.

(** [mapping.split(".", 1)] when ["." in mapping]. *)
Fixpoint split_first_dot (s : string) : option (string * string) :=
  match s with
  | EmptyString => None
  | String c rest =>
      if Ascii.eqb c "."%char then Some (EmptyString, rest)
      else
        match split_first_dot rest with
        | Some (source_node, source_key) => Some (String c source_node, source_key)
        | None => None
        end
  end.

(** The body of [for input_key, mapping in agent_input.items()]. *)
Definition map_one (results : gmap string value)
  (mapped_input : list (string * value)) (input_key mapping : string)
  : list (string * value) :=
  match split_first_dot mapping with
  | Some (source_node, source_key) =>
      match results !! source_node with
      | Some source_value =>
          match source_value with
          | VDict d =>
              match dict_get source_key d with
              | Some v => dict_set input_key v mapped_input
              | None => dict_set input_key source_value mapped_input
              end
          | _ => dict_set input_key source_value mapped_input
          end
      | None => mapped_input
      end
  | None =>
      let source_node := mapping in
      match results !! source_node with
      | Some v => dict_set input_key v mapped_input
      | None => mapped_input
      end
  end.

Definition map_inputs (results : gmap string value)
  (agent_input : list (string * string)) : list (string * value) :=
  fold_left (fun mapped_input item => map_one results mapped_input item.1 item.2)
    agent_input [].

(** [[results[dep] for dep in dependencies]]. *)
Fixpoint dependency_results {S} (results : gmap string value)
  (dependencies : list string) : M S (list value) :=
  match dependencies with
  | [] => ret []
  | dep :: rest =>
      match results !! dep with
      | None => raise (KeyError dep)
      | Some v => (vs <- dependency_results results rest ;; ret (v :: vs))%py
      end
  end.

(** [results] and [processed_nodes]. *)
Definition DagState : Type := (gmap string value * gset string)%type.

(** [all(dep in results for dep in dependencies)]. *)
Definition all_in_results (results : gmap string value)
  (dependencies : list string) : bool :=
  forallb (fun dep => bool_decide (is_Some (results !! dep))) dependencies.

(** The input of a node's agent. *)
Definition node_input (input_data : value) (node_config : NodeConfig)
  (results : gmap string value) : M (Sched DagEvent) value :=
  match input_mapping node_config with
  | Some (item :: items) =>
      let mapped_input := map_inputs results (item :: items) in
      ret (_format_input (VDict mapped_input))
  | _ =>
      (drs <- dependency_results results (default [] (dependencies node_config)) ;;
       let agent_input := match drs with v :: _ => v | [] => input_data end in
       ret (_format_input agent_input))%py
  end.

(** The body of [for node_id, node_config in dag.items()]. *)
Definition dag_node (input_data : value) (node_id : string)
  (node_config : NodeConfig) (st : DagState) : M (Sched DagEvent) DagState :=
  let '(results, processed_nodes) := st in
  if decide (node_id ∈ processed_nodes) then ret st
  else
    let dependencies := default [] (dependencies node_config) in
    if all_in_results results dependencies then
      match _agents !! node_id with
      | None => raise (ValueError ("Agent " +:+ node_id +:+ " not found"))
      | Some agent =>
          (formatted_input <- node_input input_data node_config results ;;
           result <- agent_run agent
                       {| ev_node := node_id; ev_config := node_config;
                          ev_input := formatted_input; ev_results := results |}
                       formatted_input ;;
           ret (<[node_id := result]> results, {[node_id]} ∪ processed_nodes))%py
      end
    else ret st.

Fixpoint dag_for (input_data : value) (items : list (string * NodeConfig))
  (st : DagState) : M (Sched DagEvent) DagState :=
  match items with
  | [] => ret st
  | (node_id, node_config) :: rest =>
      (st' <- dag_node input_data node_id node_config st ;;
       dag_for input_data rest st')%py
  end.

(** [while steps < max_steps and len(processed_nodes) < len(dag)]; the
    loop hands back [steps] together with [results] and [processed_nodes]. *)
Fixpoint dag_while (fuel : nat) (input_data : value)
  (dag : list (string * NodeConfig)) (max_steps steps : Z) (st : DagState)
  : M (Sched DagEvent) (Z * DagState) :=
  if (steps <? max_steps) && (size st.2 <? length dag)%nat then
    match fuel with
    | O => out_of_fuel
    | S fuel' =>
        let steps := steps + 1 in
        (st' <- dag_for input_data dag st ;;
         dag_while fuel' input_data dag max_steps steps st')%py
    end
  else ret (steps, st).

Definition DAGOrchestrator_execute (config : OrchestratorConfig)
  (input_data : value) : M (Sched DagEvent) value :=
  match default [] (dag (workflow config)) with
  | [] => raise (ValueError "Workflow must specify a DAG structure")
  | dag =>
      match truthy_str (entry_point (workflow config)) with
      | None => raise (ValueError "Workflow must specify an entry point")
      | Some entry_point =>
          let results : gmap string value :=
            {[ entry_point := _format_input input_data ]} in
          let steps := 0 in
          let max_steps := max_steps config in
          let processed_nodes : gset string := ∅ in
          (exit <- dag_while (Z.to_nat max_steps) input_data dag max_steps steps
                     (results, processed_nodes) ;;
           let results := exit.2.1 in
           match truthy_str (final_node (workflow config)) with
           | None => raise (ValueError "Workflow must specify a final node")
           | Some final_node =>
               match results !! final_node with
               | None =>
                   raise (ValueError ("Final node " +:+ final_node +:+ " was not processed"))
               | Some v => ret v
               end
           end)%py
      end
  end.

End WithAgents.
End WithEnv.

Arguments Agent : clear implicits.
Arguments Sched : clear implicits.
Arguments MkSched {W E} _ _.
Arguments world {W E} _.
Arguments trace {W E} _.

End Orchestration.

(** ** Tools ([framework/tools/base.py]) *)

Module Tools.

Record ToolSpec : Type := {
  name : string;
  description : string;
  parameters : list (string * value);
  required_parameters : list string;
  return_type : option string
}.

(** A capability as the decision loop sees it: [tool.spec] and
    [await tool.execute(arguments)], which returns or raises. *)
Record Tool : Type := {
  spec : ToolSpec;
  execute : value -> exn + value
}.

(** [needle in haystack] on strings. *)
Fixpoint is_substring (needle haystack : string) : bool :=
  String.prefix needle haystack ||
  match haystack with
  | EmptyString => false
  | String _ rest => is_substring needle rest
  end.

(** [param in parameters] for a string [param]: keys of a dict, elements of
    a list, substrings of a string; other objects are not iterable. *)
Definition py_in (param : string) (parameters : value) : exn + bool :=
  match parameters with
  | VDict d => inr (dict_mem param d)
  | VList l =>
      inr (existsb (fun v => match v with
                             | VStr s => String.eqb s param
                             | _ => false
                             end) l)
  | VStr s => inr (is_substring param s)
  | VNone => inl (TypeError "argument of type 'NoneType' is not iterable")
  | VBool _ => inl (TypeError "argument of type 'bool' is not iterable")
  | VInt _ => inl (TypeError "argument of type 'int' is not iterable")
  end.

(** A wrapped Python function, called with keyword arguments. *)
Record FunctionTool : Type := {
  func : list (string * value) -> exn + value;
  _spec : ToolSpec
}.

(** [self.func] applied to the payload unpacked as keyword arguments. *)
Definition call_with_kwargs (f : list (string * value) -> exn + value)
  (parameters : value) : exn + value :=
  match parameters with
  | VDict d => f d
  | _ => inl (TypeError "argument after ** must be a mapping")
  end.

(** The loop [for param in self._spec.required_parameters] of
    [FunctionTool.execute]. *)
Fixpoint check_required (required : list string) (parameters : value)
  : exn + unit :=
  match required with
  | [] => inr tt
  | param :: rest =>
      match py_in param parameters with
      | inl e => inl e
      | inr false => inl (ValueError ("Required parameter " +:+ param +:+ " missing"))
      | inr true => check_required rest parameters
      end
  end.

Definition FunctionTool_execute (self : FunctionTool) (parameters : value)
  : exn + value :=
  match check_required (required_parameters (_spec self)) parameters with
  | inl e => inl e
  | inr _ => call_with_kwargs (func self) parameters
  end.

Definition FunctionTool_as_Tool (self : FunctionTool) : Tool :=
  {| spec := _spec self; execute := FunctionTool_execute self |}.

(** [ToolRegistry.get]. *)
Definition ToolRegistry_get (_tools : gmap string Tool) (n : string)
  : exn + Tool :=
  match _tools !! n with
  | None => inl (ValueError ("Tool " +:+ n +:+ " not registered"))
  | Some tool => inr tool
  end.

End Tools.

(** ** Agents ([framework/agents/base.py], [framework/memory/base.py]) *)

Module Agents.
Import Tools.

(** [tool_call["function"]], read with [.get("name")] and
    [.get("arguments", "{}")]: a field is [None] when the key is absent. *)
Record FunctionCall : Type := {
  fn_name : option string;
  fn_arguments : option string
}.

(** One entry of [message["tool_calls"]], read with [.get("id")] and
    [.get("function", {})]: a field is [None] when the key is absent. *)
Record ToolCall : Type := {
  tc_id : option string;
  tc_function : option FunctionCall
}.

(** What a message holds under the key "content": nothing (the key is
    absent), Python's [None], or a string. *)
Inductive MessageContent : Type :=
| ContentAbsent
| ContentNone
| ContentStr (s : string).

(** A conversation message, a dict read with [.get].  The fields [role],
    [tool_call_id] and [tool_calls] are [None] when the key is absent or
    holds Python's [None]: the code reads them with [.get(key)] or tests
    their truth, and treats the two alike.  The entry under "content" keeps
    the two apart, since the planner reads it with [.get("content", "")]. *)
Record Message : Type := {
  role : option string;
  content_entry : MessageContent;
  tool_call_id : option string;
  tool_calls : option (list ToolCall)
}.

(** [message.get("content")]: the string, or [None] when the key is absent
    or holds Python's [None]. *)
Definition content (m : Message) : option string :=
  match content_entry m with
  | ContentStr s => Some s
  | _ => None
  end.

(** [input_message: Union[str, Message]]. *)
Inductive AgentInput : Type :=
| InStr (s : string)
| InMsg (m : Message).

(** [self._state]. *)
Record AgentState : Type := {
  messages : list Message;
  iterations : Z
}.

Section WithProvider.
Context `{PyEnv}.
(** The sampling temperature (a float) and the state of the external
    completion backends are opaque to the loop. *)
Context {Temperature PState : Type}.

(** The fields of [AgentConfig] that the agents read. *)
Record AgentConfig : Type := {
  id : string;
  tools : list string;
  system_prompt : string;
  model : string;
  provider : string;
  max_iterations : Z;
  temperature : Temperature
}.

(** [LLMProvider.complete(messages, tools, model=..., temperature=...)]:
    acts on the backend's state and returns a message or raises. *)
Record LLMProvider : Type := {
  complete : PState -> list Message -> option (list ToolSpec) -> string ->
             Temperature -> PState * (exn + Message)
}.

(** The mutable world of one agent instance: [self._state], the items of
    [self._memory], the completion backends, and the number of [complete]
    calls issued so far (ghost state, the code keeps no such counter). *)
Record World : Type := {
  _state : AgentState;
  _memory : list Message;
  backends : PState;
  completion_calls : nat
}.

Definition with_memory (items : list Message) (w : World) : World :=
  {| _state := _state w; _memory := items;
     backends := backends w; completion_calls := completion_calls w |}.

Definition with_state (st : AgentState) (w : World) : World :=
  {| _state := st; _memory := _memory w;
     backends := backends w; completion_calls := completion_calls w |}.

(** [BaseAgent.__init__]: an empty memory and a zero iteration counter. *)
Definition initial_state : AgentState := {| messages := []; iterations := 0 |}.

Definition BaseAgent_init (ps : PState) (calls : nat) : World :=
  {| _state := initial_state; _memory := [];
     backends := ps; completion_calls := calls |}.

(** [SimpleMemory.add], [SimpleMemory.clear] and
    [MessageMemory.get_conversation_history()]. *)
Definition memory_add (item : Message) : M World unit :=
  modify (fun w => with_memory (_memory w ++ [item]) w).

Definition memory_clear : M World unit := modify (with_memory []).

Definition get_conversation_history : M World (list Message) :=
  fun w => (w, Returned (_memory w)).

Section WithConfig.
Context (ProviderRegistry_providers : gmap string LLMProvider).
Context (ToolRegistry_tools : gmap string Tool).
Context (_config : AgentConfig).

Definition system_message : Message :=
  {| role := Some "system";
     content_entry := ContentStr (system_prompt _config);
     tool_call_id := None; tool_calls := None |}.

Definition _add_system_message : M World unit := memory_add system_message.

(** [BaseAgent.reset]. *)
Definition reset : M World unit :=
  (memory_clear ;;;
   modify (with_state initial_state) ;;;
   _add_system_message)%py.

(** [BaseAgent._get_provider]. *)
Definition _get_provider : M World LLMProvider :=
  match ProviderRegistry_providers !! provider _config with
  | None => raise (ValueError ("Provider " +:+ provider _config +:+ " not registered"))
  | Some p => ret p
  end.

(** [BaseAgent._get_tools]: names that are not registered are skipped. *)
Definition _get_tools (tool_names : option (list string)) : list Tool :=
  let tool_names := default (tools _config) tool_names in
  omap (fun n => match ToolRegistry_get ToolRegistry_tools n with
                 | inr tool => Some tool
                 | inl _ => None
                 end) tool_names.

Definition _get_tool_specs (tools : list Tool) : list ToolSpec := map spec tools.

(** [await provider.complete(...)]. *)
Definition provider_complete (p : LLMProvider) (messages : list Message)
  (tool_specs : option (list ToolSpec)) : M World Message :=
  fun w =>
    let '(ps', r) :=
      complete p (backends w) messages tool_specs (model _config)
        (temperature _config) in
    ({| _state := _state w; _memory := _memory w; backends := ps';
        completion_calls := S (completion_calls w) |},
     match r with inl e => Raised e | inr m => Returned m end).

(** The opening of every [run]: seed the system message when the history
    has none, wrap a string input as a user message, append the input. *)
Definition is_system (msg : Message) : bool :=
  bool_decide (role msg = Some "system").

Definition ensure_system_message : M World unit :=
  (messages <- get_conversation_history ;;
   if existsb is_system messages then ret tt else _add_system_message)%py.

Definition as_message (input_message : AgentInput) : Message :=
  match input_message with
  | InStr s => {| role := Some "user"; content_entry := ContentStr s;
                  tool_call_id := None; tool_calls := None |}
  | InMsg m => m
  end.

(** *** ConversationalAgent *)

Definition ConversationalAgent_run (input_message : AgentInput)
  (tools : option (list Tool)) : M World Message :=
  (ensure_system_message ;;;
   let input_message := as_message input_message in
   memory_add input_message ;;;
   messages <- get_conversation_history ;;
   provider <- _get_provider ;;
   response <- provider_complete provider messages None ;;
   memory_add response ;;;
   ret response)%py.

(** *** ReActAgent and FunctionCallingAgent *)

(** [_run_iteration] of both tool-using agents. *)
Definition _run_iteration (messages : list Message) (tools : list Tool)
  : M World Message :=
  (provider <- _get_provider ;;
   let tool_specs :=
     match tools with
     | [] => None
     | _ => Some (_get_tool_specs tools)
     end in
   provider_complete provider messages tool_specs)%py.

(** [next((t for t in tools if t.spec.name == tool_name), None)]. *)
Definition find_tool (tools : list Tool) (tool_name : option string)
  : option Tool :=
  match tool_name with
  | None => None
  | Some n => List.find (fun t => String.eqb (name (spec t)) n) tools
  end.

(** An optional string inside an f-string. *)
Definition fmt (o : option string) : string := default "None" o.

Definition tool_message (tool_call : ToolCall) (text : string) : Message :=
  {| role := Some "tool"; content_entry := ContentStr text;
     tool_call_id := tc_id tool_call; tool_calls := None |}.

(** The [try] block: parse the payload, execute the tool, stringify. *)
Definition try_execute (tool : Tool) (arguments_str : string) : exn + string :=
  match json_loads arguments_str with
  | inl e => inl e
  | inr arguments =>
      match execute tool arguments with
      | inl e => inl e
      | inr result => inr (py_str result)
      end
  end.

(** The body of [for tool_call in tool_calls], up to [self._memory.add]. *)
Definition tool_response (tools : list Tool) (tool_call : ToolCall) : Message :=
  let function :=
    default {| fn_name := None; fn_arguments := None |} (tc_function tool_call) in
  let tool_name := fn_name function in
  let arguments_str := default "{}" (fn_arguments function) in
  match find_tool tools tool_name with
  | None =>
      tool_message tool_call ("Error: Tool " +:+ fmt tool_name +:+ " not found")
  | Some tool =>
      match try_execute tool arguments_str with
      | inr text => tool_message tool_call text
      | inl e => tool_message tool_call ("Error: " +:+ exn_str e)
      end
  end.

Fixpoint for_tool_calls (tools : list Tool) (tool_calls : list ToolCall)
  : M World unit :=
  match tool_calls with
  | [] => ret tt
  | tool_call :: rest =>
      (memory_add (tool_response tools tool_call) ;;;
       for_tool_calls tools rest)%py
  end.

Definition set_iterations (n : Z) : M World unit :=
  modify (fun w => with_state {| messages := messages (_state w); iterations := n |} w).

(** [while iterations < max_iterations]; the value returned is
    [final_response]. *)
Fixpoint run_while (fuel : nat) (tools : list Tool)
  (max_iterations iterations : Z) (messages : list Message)
  : M World (option Message) :=
  if iterations <? max_iterations then
    match fuel with
    | O => out_of_fuel
    | S fuel' =>
        let iterations := iterations + 1 in
        (set_iterations iterations ;;;
         response <- _run_iteration messages tools ;;
         let tool_calls := default [] (tool_calls response) in
         match tool_calls with
         | [] =>
             (memory_add response ;;;
              ret (Some response))
         | _ =>
             (memory_add response ;;;
              for_tool_calls tools tool_calls ;;;
              messages <- get_conversation_history ;;
              run_while fuel' tools max_iterations iterations messages)
         end)%py
    end
  else ret None.

Definition ReActAgent_run (input_message : AgentInput)
  (tools : option (list Tool)) : M World (option Message) :=
  (ensure_system_message ;;;
   let input_message := as_message input_message in
   memory_add input_message ;;;
   let tools := match tools with
                | None => _get_tools None
                | Some ts => ts
                end in
   messages <- get_conversation_history ;;
   let iterations := 0 in
   let max_iterations := max_iterations _config in
   run_while (Z.to_nat max_iterations) tools max_iterations iterations messages)%py.

(** [FunctionCallingAgent.run]; its loop and its [_run_iteration] are,
    statement for statement, those of [ReActAgent]. *)
Definition FunctionCallingAgent_run (input_message : AgentInput)
  (tools : option (list Tool)) : M World (option Message) :=
  (ensure_system_message ;;;
   let input_message := as_message input_message in
   memory_add input_message ;;;
   let tools := match tools with
                | None => _get_tools None
                | Some ts => ts
                end in
   messages <- get_conversation_history ;;
   let iterations := 0 in
   let max_iterations := max_iterations _config in
   run_while (Z.to_nat max_iterations) tools max_iterations iterations messages)%py.

(** *** PlannerAgent *)

Definition simple_plan (description : value) (extra : list (string * value))
  : value :=
  VDict ([("description", VStr "Generated plan");
          ("steps", VList [VDict [("description", description)]])] ++ extra).

(** [response.get("content", "")]: the empty string when the key is absent;
    Python's [None], here [None], when the key holds it. *)
Definition content_or_empty (response : Message) : option string :=
  match content_entry response with
  | ContentAbsent => Some ""
  | ContentNone => None
  | ContentStr s => Some s
  end.

(** The [try] block that extracts the plan.  A response whose content is
    Python's [None] makes [re.search] raise a [TypeError], which the
    [except] branch turns into the simple plan, with that [None] as the
    description of its step. *)
Definition parse_plan (response : Message) : value :=
  match content_or_empty response with
  | None =>
      simple_plan VNone
        [("parsing_error", VStr "expected string or bytes-like object, got 'NoneType'")]
  | Some content =>
      match re_search_json_block content with
      | Some plan_json =>
          match json_loads plan_json with
          | inr plan => plan
          | inl e => simple_plan (VStr content) [("parsing_error", VStr (exn_str e))]
          end
      | None => simple_plan (VStr content) []
      end
  end.

Definition PlannerAgent_run (input_message : AgentInput)
  (tools : option (list Tool)) : M World value :=
  (ensure_system_message ;;;
   let input_message := as_message input_message in
   memory_add input_message ;;;
   messages <- get_conversation_history ;;
   provider <- _get_provider ;;
   response <- provider_complete provider messages None ;;
   memory_add response ;;;
   ret (parse_plan response))%py.

(** *** AgentFactory *)

Inductive AgentKind : Type :=
| ReAct
| Conversational
| FunctionCalling
| Planner.

Definition create_agent (agent_type : string) : exn + AgentKind :=
  if String.eqb agent_type "react" then inr ReAct
  else if String.eqb agent_type "conversational" then inr Conversational
  else if String.eqb agent_type "function_calling" then inr FunctionCalling
  else if String.eqb agent_type "planner" then inr Planner
  else inl (ValueError ("Unknown agent type: " +:+ agent_type)).

(** What [agent.run] hands back: a message, [None], or a plan. *)
Inductive RunResult : Type :=
| Response (final_response : option Message)
| Plan (plan : value).

(** [agent.run], dispatched on the class of the agent. *)
Definition Agent_run (kind : AgentKind) (input_message : AgentInput)
  (tools : option (list Tool)) : M World RunResult :=
  match kind with
  | ReAct =>
      (r <- ReActAgent_run input_message tools ;; ret (Response r))%py
  | Conversational =>
      (r <- ConversationalAgent_run input_message tools ;; ret (Response (Some r)))%py
  | FunctionCalling =>
      (r <- FunctionCallingAgent_run input_message tools ;; ret (Response r))%py
  | Planner =>
      (p <- PlannerAgent_run input_message tools ;; ret (Plan p))%py
  end.

End WithConfig.
End WithProvider.

Arguments AgentConfig : clear implicits.
Arguments LLMProvider : clear implicits.
Arguments World : clear implicits.

End Agents.

(** ** Auxiliary notions used to state the properties *)

Module Reference.
Import Orchestration.

(** A deterministic stub agent: it has no state and never raises. *)
Definition stub_agent {W} (f : value -> value) : Agent W :=
  fun w x => (w, inr (f x)).

(** The inputs handed to a pipeline of stubs, and its output. *)
Fixpoint handed (behaviour : string -> value -> value) (ids : list string)
  (x : value) : list SeqEvent :=
  match ids with
  | [] => []
  | a :: rest => (a, x) :: handed behaviour rest (behaviour a x)
  end.

Definition piped (behaviour : string -> value -> value) (ids : list string)
  (x : value) : value :=
  fold_left (fun acc a => behaviour a acc) ids x.

(** The declared dependencies of a node. *)
Definition deps_of (node_config : NodeConfig) : list string :=
  default [] (dependencies node_config).

(** An agent run of the DAG scheduler is in order when the node is a node
    of the DAG and every declared dependency is a key of [results] at the
    moment of the run. *)
Definition ok_event (dag : list (string * NodeConfig)) (ev : DagEvent) : Prop :=
  (ev_node ev, ev_config ev) ∈ dag /\
  forall dep, dep ∈ deps_of (ev_config ev) -> is_Some (ev_results ev !! dep).

(** The log runs no node twice and every run is in order. *)
Definition trace_ok {W} (dag : list (string * NodeConfig))
  (s : Sched W DagEvent) : Prop :=
  NoDup (map ev_node (trace s)) /\ Forall (ok_event dag) (trace s).

(** Every node that was run is marked as processed. *)
Definition covered {W} (s : Sched W DagEvent) (st : DagState) : Prop :=
  forall ev, ev ∈ trace s -> ev_node ev ∈ st.2.

(** The value [node_input] computes when the dependencies are in [results]. *)
Definition node_input_value `{PyEnv} (input_data : value)
  (node_config : NodeConfig) (results : gmap string value) : value :=
  match input_mapping node_config with
  | Some (item :: items) => _format_input (VDict (map_inputs results (item :: items)))
  | _ =>
      _format_input
        match deps_of node_config with
        | dep :: _ => default VNone (results !! dep)
        | [] => input_data
        end
  end.

(** One scan step and one scan round over deterministic stubs: what
    [dag_node] and [dag_for] compute when the agent of a node [n] is the
    stub [behaviour n]. *)
Definition stub_node `{PyEnv} (behaviour : string -> value -> value)
  (input_data : value) (node_id : string) (node_config : NodeConfig)
  (st : DagState) : DagState :=
  if decide (node_id ∈ st.2) then st
  else if all_in_results st.1 (deps_of node_config) then
    (<[node_id := behaviour node_id (node_input_value input_data node_config st.1)]> st.1,
     {[node_id]} ∪ st.2)
  else st.

Definition stub_scan `{PyEnv} (behaviour : string -> value -> value)
  (input_data : value) (items : list (string * NodeConfig)) (st : DagState)
  : DagState :=
  fold_left (fun st item => stub_node behaviour input_data item.1 item.2 st)
    items st.

(** The agent of every node is its stub. *)
Definition stubbed {W} (_agents : gmap string (Agent W))
  (behaviour : string -> value -> value) (dag : list (string * NodeConfig))
  : Prop :=
  forall node_id node_config, (node_id, node_config) ∈ dag ->
    _agents !! node_id = Some (stub_agent (behaviour node_id)).

(** The node a mapping reads: the part before the first dot, if any. *)
Definition source_of (mapping : string) : string :=
  match split_first_dot mapping with
  | Some (source_node, _) => source_node
  | None => mapping
  end.

(** Every input mapping of the node reads a declared dependency or the
    entry point. *)
Definition sources_declared (entry : string) (node_config : NodeConfig) : Prop :=
  forall item, item ∈ default [] (input_mapping node_config) ->
    source_of item.2 ∈ deps_of node_config \/ source_of item.2 = entry.

(** The results that the dependency graph and the stubs determine: the
    normalized input at the entry point, and at a node the output of its stub
    on the input built from any results of this kind that cover its
    dependencies. *)
Inductive derivable `{PyEnv} (behaviour : string -> value -> value)
  (input_data : value) (entry : string) (dag : list (string * NodeConfig))
  : string -> value -> Prop :=
| derivable_entry :
    derivable behaviour input_data entry dag entry (_format_input input_data)
| derivable_node node_id node_config (results : gmap string value) :
    (node_id, node_config) ∈ dag ->
    results !! entry = Some (_format_input input_data) ->
    (forall dep, dep ∈ deps_of node_config -> is_Some (results !! dep)) ->
    (forall k v, results !! k = Some v ->
                 derivable behaviour input_data entry dag k v) ->
    derivable behaviour input_data entry dag node_id
      (behaviour node_id (node_input_value input_data node_config results)).

(** No unprocessed node is ready to run. *)
Definition saturated (dag : list (string * NodeConfig)) (st : DagState) : Prop :=
  forall node_id node_config,
    (node_id, node_config) ∈ dag ->
    all_in_results st.1 (deps_of node_config) = true ->
    node_id ∈ st.2.

(** The state of a run over stubs holds derivable results only, for the
    entry point and the processed nodes, which are nodes of the DAG. *)
Definition sound `{PyEnv} (behaviour : string -> value -> value)
  (input_data : value) (entry : string) (dag : list (string * NodeConfig))
  (st : DagState) : Prop :=
  st.1 !! entry = Some (_format_input input_data) /\
  (forall k v, st.1 !! k = Some v -> derivable behaviour input_data entry dag k v) /\
  (forall n, n ∈ st.2 -> n ∈ map fst dag /\ is_Some (st.1 !! n)).

(** What the rounds keep: the state is sound, and as long as some node is
    ready every round so far has processed one. *)
Definition round_inv `{PyEnv} (behaviour : string -> value -> value)
  (input_data : value) (entry : string) (dag : list (string * NodeConfig))
  (steps : Z) (st : DagState) : Prop :=
  sound behaviour input_data entry dag st /\
  (steps <= Z.of_nat (size st.2) \/ saturated dag st).

(** The configuration with the nodes of its DAG written in another order. *)
Definition reordered (config : OrchestratorConfig)
  (nodes : list (string * NodeConfig)) : OrchestratorConfig :=
  {| workflow := {| sequence := sequence (workflow config);
                    dag := Some nodes;
                    entry_point := entry_point (workflow config);
                    final_node := final_node (workflow config) |};
     max_steps := max_steps config |}.

(** The tool specs handed to the provider: none for an empty tool set. *)
Definition specs_of (tools : list Tools.Tool) : option (list Tools.ToolSpec) :=
  match tools with
  | [] => None
  | _ => Some (map Tools.spec tools)
  end.

(** The world after an iteration whose response carries tool calls: the
    counter is set, one completion is issued, and the response and one tool
    message per call are appended to the history. *)
Definition after_tool_iteration `{PyEnv} {PState}
  (w : Agents.World PState) (iterations' : Z) (ps' : PState)
  (response : Agents.Message) (tools : list Tools.Tool) : Agents.World PState :=
  {| Agents._state :=
       {| Agents.messages := Agents.messages (Agents._state w);
          Agents.iterations := iterations' |};
     Agents._memory :=
       Agents._memory w ++
       response :: map (Agents.tool_response tools)
                       (default [] (Agents.tool_calls response));
     Agents.backends := ps';
     Agents.completion_calls := S (Agents.completion_calls w) |}.

(** The world after the iteration that yields the final response. *)
Definition after_final_iteration {PState}
  (w : Agents.World PState) (iterations' : Z) (ps' : PState)
  (response : Agents.Message) : Agents.World PState :=
  {| Agents._state :=
       {| Agents.messages := Agents.messages (Agents._state w);
          Agents.iterations := iterations' |};
     Agents._memory := Agents._memory w ++ [response];
     Agents.backends := ps';
     Agents.completion_calls := S (Agents.completion_calls w) |}.

(** The history once a [run] has seeded the system message and appended
    its input, and the tool set the run works with. *)
Definition opened {Temperature PState} (config : Agents.AgentConfig Temperature)
  (input_message : Agents.AgentInput) (w : Agents.World PState)
  : Agents.World PState :=
  let seeded : list Agents.Message :=
    if existsb Agents.is_system (Agents._memory w) then Agents._memory w
    else (Agents._memory w ++ [Agents.system_message config])%list in
  Agents.with_memory (seeded ++ [Agents.as_message input_message])%list w.

Definition active_tools {Temperature} (registry : gmap string Tools.Tool)
  (config : Agents.AgentConfig Temperature) (tools : option (list Tools.Tool))
  : list Tools.Tool :=
  match tools with
  | None => Agents._get_tools registry config None
  | Some ts => ts
  end.

(** A provider stub that answers every request, with a response that
    carries at least one tool call. *)
Definition always_requests_tools {Temperature PState}
  (p : Agents.LLMProvider Temperature PState) : Prop :=
  forall ps messages specs m t,
    exists ps' response,
      Agents.complete p ps messages specs m t = (ps', inr response) /\
      default [] (Agents.tool_calls response) <> [].

(** A provider that answers every request. *)
Definition always_answers {Temperature PState}
  (p : Agents.LLMProvider Temperature PState) : Prop :=
  forall ps messages specs m t,
    exists ps' response,
      Agents.complete p ps messages specs m t = (ps', inr response).

(** The messages a tool loop appends to the history: per iteration the
    response of the provider, followed, when the response carries tool
    calls, by the reply to each of its calls, in order; a response without
    tool calls is the last message. *)
Inductive loop_history `{PyEnv} (tools : list Tools.Tool)
  : list Agents.Message -> Prop :=
| loop_history_done : loop_history tools []
| loop_history_final response :
    default [] (Agents.tool_calls response) = [] ->
    loop_history tools [response]
| loop_history_round response rest :
    default [] (Agents.tool_calls response) <> [] ->
    loop_history tools rest ->
    loop_history tools
      (response :: map (Agents.tool_response tools)
                       (default [] (Agents.tool_calls response)) ++ rest).

End Reference.

(** ** Sample instances used by the examples *)

Module Samples.
Import Orchestration Reference.

(** A rendering of non-string objects in the manner of Python's [repr]
    (quotes and control characters inside strings are not escaped), a
    [json.loads] that knows the empty object and nothing else, and a search
    that never matches. *)
Definition join (sep : string) (parts : list string) : string :=
  match parts with
  | [] => ""
  | part :: rest => fold_left (fun acc q => acc +:+ sep +:+ q) rest part
  end.

Fixpoint sample_repr (v : value) : string :=
  match v with
  | VNone => "None"
  | VBool true => "True"
  | VBool false => "False"
  | VInt z => NilZero.string_of_int (Z.to_int z)
  | VStr s => "'" +:+ s +:+ "'"
  | VList l => "[" +:+ join ", " (map sample_repr l) +:+ "]"
  | VDict d =>
      "{" +:+ join ", " (map (fun '(k, x) => "'" +:+ k +:+ "': " +:+ sample_repr x) d)
          +:+ "}"
  end.

Definition sample_json_loads (s : string) : exn + value :=
  if String.eqb s "{}" then inr (VDict [])
  else inl (Exn "JSONDecodeError" "Expecting value: line 1 column 1 (char 0)").

#[export] Instance sample_env : PyEnv := {|
  str_object := sample_repr;
  json_loads := sample_json_loads;
  re_search_json_block := fun _ => None
|}.

(** A stub agent that appends ["|" + name] to the text it is given (the
    content of a message, or the string itself) and returns the string. *)
Definition text_of (x : value) : string :=
  match x with
  | VStr s => s
  | VDict d => match dict_get "content" d with
               | Some (VStr s) => s
               | _ => ""
               end
  | _ => ""
  end.

Definition append_name (n : string) : Agent unit :=
  stub_agent (fun x => VStr (text_of x +:+ "|" +:+ n)).

Definition abc_agents : gmap string (Agent unit) :=
  <["A" := append_name "A"]> (<["B" := append_name "B"]> (<["C" := append_name "C"]> ∅)).

Definition sequential_config (ids : list string) : OrchestratorConfig :=
  {| workflow := {| sequence := Some ids; dag := None;
                    entry_point := None; final_node := None |};
     max_steps := 50 |}.

Definition empty_sched {E} : Sched unit E := MkSched tt [].

(** DAG workflows over the stubs [A], [B], [C]. *)
Definition node (deps : list string) : NodeConfig :=
  {| dependencies := Some deps; input_mapping := None |}.

Definition dag_config (nodes : list (string * NodeConfig))
  (entry final : option string) (budget : Z) : OrchestratorConfig :=
  {| workflow := {| sequence := None; dag := Some nodes;
                    entry_point := entry; final_node := final |};
     max_steps := budget |}.

(** The chain [A -> B -> C], written consumer first. *)
Definition chain_CBA : list (string * NodeConfig) :=
  [("C", node ["B"]); ("B", node ["A"]); ("A", node [])].

(** The same chain, written producer first. *)
Definition chain_ABC : list (string * NodeConfig) :=
  [("A", node []); ("B", node ["A"]); ("C", node ["B"])].

(** A chain fed by an entry point "in" that is not a node; [C] reads the
    field "value" of the output of [B] through an input mapping. *)
Definition fed_chain : list (string * NodeConfig) :=
  [("A", node ["in"]); ("B", node ["A"]);
   ("C", {| dependencies := Some ["B"];
            input_mapping := Some [("x", "B.value")] |})].

Definition names (n : string) (x : value) : value :=
  VStr (text_of x +:+ "|" +:+ n).

(** [B] reads the output of [A] through an input mapping although [A] is
    not among its declared dependencies. *)
Definition undeclared_source : list (string * NodeConfig) :=
  [("A", node ["in"]);
   ("B", {| dependencies := Some ["in"]; input_mapping := Some [("x", "A")] |})].

(** A producer of the structured output [{"value": 7}] and a consumer that
    returns its input, with the consumer reading the field through the
    mapping [{"x": "A.value"}]. *)
Definition field_agents : gmap string (Agent unit) :=
  <["A" := stub_agent (fun _ => VDict [("value", VInt 7)])]>
    (<["B" := stub_agent (fun x => x)]> ∅).

Definition field_dag : list (string * NodeConfig) :=
  [("A", node []);
   ("B", {| dependencies := Some ["A"];
            input_mapping := Some [("x", "A.value")] |})].

End Samples.

Module AgentSamples.
Import Tools Agents.

(** A call of the unregistered tool "foo", two calls of the registered tool
    "echo" (one without its required parameter, one with a payload that is
    not JSON), and assistant messages that carry them. *)
Definition call (call_id tool_name arguments : string) : ToolCall :=
  {| tc_id := Some call_id;
     tc_function := Some {| fn_name := Some tool_name;
                            fn_arguments := Some arguments |} |}.

Definition call_foo : ToolCall := call "call_1" "foo" "{}".
Definition call_echo_empty : ToolCall := call "call_2" "echo" "{}".
Definition call_echo_garbled : ToolCall := call "call_3" "echo" "{text:".

Definition asks (calls : list ToolCall) : Message :=
  {| role := Some "assistant"; content_entry := ContentNone;
     tool_call_id := None; tool_calls := Some calls |}.

Definition says (text : string) : Message :=
  {| role := Some "assistant"; content_entry := ContentStr text;
     tool_call_id := None; tool_calls := None |}.

(** Provider stubs; their state counts the requests they served.  The
    first always asks for "foo"; the second asks for "echo" twice in its
    first answer and then gives a final answer. *)
Definition tool_asker : LLMProvider unit nat :=
  {| complete := fun ps _ _ _ _ => (S ps, inr (asks [call_foo])) |}.

Definition echo_then_done : LLMProvider unit nat :=
  {| complete := fun ps _ _ _ _ =>
       (S ps,
        inr match ps with
            | O => asks [call_echo_empty; call_echo_garbled]
            | _ => says "done"
            end) |}.

Definition sample_providers : gmap string (LLMProvider unit nat) :=
  <["asker" := tool_asker]> (<["echo" := echo_then_done]> ∅).

Definition sample_config (provider_name : string) : AgentConfig unit :=
  {| id := "agent"; tools := ["echo"; "unregistered"];
     system_prompt := "You are a stub."; model := "stub-model";
     provider := provider_name; max_iterations := 3; temperature := tt |}.

(** The tool "echo": a function of one required parameter, [text]. *)
Definition echo : FunctionTool :=
  {| func := fun kv =>
       match kv with
       | [(k, v)] =>
           if String.eqb k "text" then inr v
           else inl (TypeError "echo() got an unexpected keyword argument")
       | _ => inl (TypeError "echo() got an unexpected keyword argument")
       end;
     _spec := {| name := "echo"; description := "Echo the text";
                 parameters := [("text", VDict [("type", VStr "string")])];
                 required_parameters := ["text"];
                 return_type := None |} |}.

Definition sample_registry : gmap string Tool :=
  <["echo" := FunctionTool_as_Tool echo]> ∅.

Definition fresh_world : World nat := BaseAgent_init 0%nat 0%nat.

End AgentSamples.

(** ** Further parts of the framework *)

(** *** Reading the memory ([framework/memory/base.py]) *)

Module Memory.
Import Agents.

(** The slice [l[start:]] of a Python list: a negative [start] counts from
    the end, and the bound is clamped to the list. *)
Definition py_slice_from {A} (start : Z) (l : list A) : list A :=
  let len := Z.of_nat (length l) in
  let i := if start <? 0 then Z.max (start + len) 0 else Z.min start len in
  drop (Z.to_nat i) l.

(** [MessageMemory.get_conversation_history(max_messages)] on the items of
    the memory: [messages[-max_messages:]] when a bound is given. *)
Definition get_conversation_history_upto (max_messages : option Z)
  (items : list Message) : list Message :=
  let messages := items in
  match max_messages with
  | Some n => py_slice_from (- n) messages
  | None => messages
  end.

(** [MessageMemory.get_system_message]: the first message whose role is
    "system". *)
Definition get_system_message (items : list Message) : option Message :=
  List.find is_system items.

End Memory.

(** *** Building and registering tools ([framework/tools/base.py]) *)

Module ToolBuilding.
Import Tools.

(** A parameter of a Python function as [inspect.signature] shows it: its
    name, whether it has a default, and its annotation, if any ([int],
    [float], [bool], [list], [dict], or something else). *)
Inductive ParamAnnotation : Type :=
| IntT | FloatT | BoolT | ListT | DictT | OtherT.

Record Param : Type := {
  param_name : string;
  has_default : bool;
  annotation : option ParamAnnotation
}.

(** A Python function: [__name__], [__doc__], its signature, the rendering
    of its return hint, and what a call with keyword arguments does. *)
Record PyFunction : Type := {
  fn__name__ : string;
  fn__doc__ : option string;
  fn_signature : list Param;
  fn_return_hint : option string;
  fn_call : list (string * value) -> exn + value
}.

(** The inferred JSON type of a parameter. *)
Definition param_type (a : option ParamAnnotation) : string :=
  match a with
  | Some IntT => "integer"
  | Some FloatT => "number"
  | Some BoolT => "boolean"
  | Some ListT => "array"
  | Some DictT => "object"
  | Some OtherT => "string"
  | None => "string"
  end.

(** The loop of [FunctionTool._build_func_spec] over the signature. *)
Fixpoint build_parameters (func_name : string) (signature : list Param)
  (parameters : list (string * value)) (required_parameters : list string)
  : list (string * value) * list string :=
  match signature with
  | [] => (parameters, required_parameters)
  | param :: rest =>
      let required_parameters :=
        if has_default param then required_parameters
        else (required_parameters ++ [param_name param])%list in
      let parameters :=
        dict_set (param_name param)
          (VDict [("type", VStr (param_type (annotation param)));
                  ("description",
                   VStr ("Parameter " +:+ param_name param +:+ " for function "
                         +:+ func_name))])
          parameters in
      build_parameters func_name rest parameters required_parameters
  end.

Definition _build_func_spec (_name _description : string) (f : PyFunction)
  : ToolSpec :=
  let built := build_parameters (fn__name__ f) (fn_signature f) [] [] in
  {| name := _name;
     description := _description;
     parameters := built.1;
     required_parameters := built.2;
     return_type := fn_return_hint f |}.

(** [FunctionTool.__init__(func, name, description)]: an absent or empty
    name is the name of the function, an absent or empty description is
    its docstring or a default sentence. *)
Definition FunctionTool_init (f : PyFunction) (n d : option string)
  : FunctionTool :=
  let _name := default (fn__name__ f) (Orchestration.truthy_str n) in
  let _description :=
    match Orchestration.truthy_str d with
    | Some text => text
    | None =>
        default ("Execute the " +:+ _name +:+ " function")
          (Orchestration.truthy_str (fn__doc__ f))
    end in
  {| func := fn_call f; _spec := _build_func_spec _name _description f |}.

(** [ToolRegistry.register]: the tool is stored under the name of its spec. *)
Definition ToolRegistry_register (_tools : gmap string Tool) (tool : Tool)
  : gmap string Tool :=
  <[name (spec tool) := tool]> _tools.

(** The registry after registering the tools of a list, in order. *)
Definition registered (tools : list Tool) : gmap string Tool :=
  fold_left ToolRegistry_register tools ∅.

End ToolBuilding.

(** *** Managing the agents of an orchestrator
    ([framework/orchestration/base.py], [framework/core/app.py]) *)

Module App.
Import Orchestration.

Section WithWorld.
Context {W : Type}.

(** An agent object: the id of its configuration and its [run]. *)
Record AgentObject : Type := {
  config_id : string;
  run : Agent W
}.

(** [BaseOrchestrator.add_agent] and [BaseOrchestrator.remove_agent]. *)
Definition add_agent (_agents : gmap string (Agent W)) (agent : AgentObject)
  : gmap string (Agent W) :=
  <[config_id agent := run agent]> _agents.

Definition remove_agent (_agents : gmap string (Agent W)) (agent_id : string)
  : gmap string (Agent W) :=
  if decide (is_Some (_agents !! agent_id)) then delete agent_id _agents
  else _agents.

(** [AgentFlowApp.create_agent] stores the agent under the id of its
    configuration. *)
Definition app_create_agent (agents : gmap string AgentObject)
  (agent : AgentObject) : gmap string AgentObject :=
  <[config_id agent := agent]> agents.

(** The agents of an application after a series of [create_agent]. *)
Definition created (objects : list AgentObject) : gmap string AgentObject :=
  fold_left app_create_agent objects ∅.

(** The loop of [AgentFlowApp.create_orchestrator] that hands the agents of
    the application to the new orchestrator: ids the application does not
    know are skipped. *)
Definition orchestrator_agents (agents : gmap string AgentObject)
  (agent_ids : list string) : gmap string (Agent W) :=
  fold_left (fun _agents agent_id =>
               match agents !! agent_id with
               | Some agent => add_agent _agents agent
               | None => _agents
               end) agent_ids ∅.

End WithWorld.

Arguments AgentObject : clear implicits.

End App.

(** *** Notions used to state the further properties *)

Module Notions.
Import Orchestration Reference.

(** A set of ids that excludes the entry point and in which every node
    depends on a member of the set: nodes on a dependency cycle, and nodes
    that depend on an id that is neither a node nor the entry point. *)
Definition blocked (dag : list (string * NodeConfig)) (entry : string)
  (ids : gset string) : Prop :=
  (entry ∉ ids) /\
  forall node_id node_config,
    (node_id, node_config) ∈ dag -> node_id ∈ ids ->
    exists dep, dep ∈ deps_of node_config /\ dep ∈ ids.

(** The nodes are written in dependency order: every dependency of a node
    is the entry point or a node written before it. *)
Fixpoint in_dependency_order (entry : string) (seen : list string)
  (dag : list (string * NodeConfig)) : Prop :=
  match dag with
  | [] => True
  | (node_id, node_config) :: rest =>
      (forall dep, dep ∈ deps_of node_config -> dep = entry \/ dep ∈ seen) /\
      in_dependency_order entry (seen ++ [node_id]) rest
  end.

(** Every tool of the registry is stored under the name of its spec. *)
Definition well_keyed (_tools : gmap string Tools.Tool) : Prop :=
  forall n tool, _tools !! n = Some tool -> Tools.name (Tools.spec tool) = n.

(** What an input mapping reads from [results]: nothing when its source
    node has no result; the named field when the mapping is dotted and the
    result of the source is a dict with that field; else the whole result. *)
Definition mapped_value (results : gmap string value) (mapping : string)
  : option value :=
  match results !! source_of mapping with
  | None => None
  | Some source_value =>
      match split_first_dot mapping, source_value with
      | Some (_, source_key), VDict d =>
          Some (default source_value (dict_get source_key d))
      | _, _ => Some source_value
      end
  end.

End Notions.

(** *** Further sample workflows *)

Module FurtherSamples.
Import Orchestration Samples ToolBuilding.

(** A function [greet(name, times: int = 1) -> str]. *)
Definition greet : PyFunction :=
  {| fn__name__ := "greet";
     fn__doc__ := Some "Greet someone";
     fn_signature :=
       [{| param_name := "name"; has_default := false; annotation := None |};
        {| param_name := "times"; has_default := true;
           annotation := Some IntT |}];
     fn_return_hint := Some "<class 'str'>";
     fn_call := fun kv =>
       match dict_get "name" kv with
       | Some (VStr n) => inr (VStr ("hello " +:+ n))
       | _ => inl (TypeError "greet() missing 1 required positional argument: 'name'")
       end |}.

(** A node [A] fed by the entry point "in", and two nodes [X] and [Y] that
    wait for each other. *)
Definition cycle_XY : list (string * NodeConfig) :=
  [("A", node ["in"]); ("X", node ["Y"]); ("Y", node ["X"])].

(** A provider whose answer has no content key, and a configuration that
    names it. *)
Definition terse : Agents.LLMProvider unit nat :=
  {| Agents.complete := fun ps _ _ _ _ =>
       (S ps, inr {| Agents.role := Some "assistant";
                     Agents.content_entry := Agents.ContentAbsent;
                     Agents.tool_call_id := None;
                     Agents.tool_calls := None |}) |}.

Definition terse_providers : gmap string (Agents.LLMProvider unit nat) :=
  <["terse" := terse]> ∅.

(** Results and an input mapping that reads a field that is there, a field
    that is not, a whole result, and a node without a result. *)
Definition some_results : gmap string value :=
  <["A" := VDict [("value", VInt 7)]]> (<["B" := VStr "text"]> ∅).

Definition some_mapping : list (string * string) :=
  [("x", "A.value"); ("y", "A.other"); ("z", "B"); ("u", "C.value")].

End FurtherSamples.

(** * Properties *)

(** ** Input normalization and the sequential scheduler *)

Module OrchestrationProps.
Import Orchestration Reference.

Section Normalization.
Context `{PyEnv}.

Lemma is_message_format_input (v : value) : is_message (_format_input v) = true.
Proof.
  unfold _format_input. destruct (is_message v) eqn:E; [exact E | reflexivity].
Qed.

(** C10. [_format_input] always returns a dict with the keys "role" and
    "content"; a dict that already has both keys is returned unchanged,
    whatever its role and its other keys; every other value [v] becomes
    [{"role": "user", "content": str(v)}]; hence [_format_input] is
    idempotent. *)
Theorem C10_format_input_normalizes (v : value) :
  (exists d, _format_input v = VDict d /\
             dict_mem "role" d = true /\ dict_mem "content" d = true) /\
  (forall d, dict_mem "role" d = true -> dict_mem "content" d = true ->
             _format_input (VDict d) = VDict d) /\
  (is_message v = false ->
     _format_input v = VDict [("role", VStr "user"); ("content", VStr (py_str v))]) /\
  _format_input (_format_input v) = _format_input v.
Proof.
  repeat split.
  - pose proof (is_message_format_input v) as Hm.
    destruct (_format_input v) as [| | | | |d] eqn:E; simpl in Hm; try discriminate.
    exists d. apply andb_true_iff in Hm. tauto.
  - intros d Hr Hc. unfold _format_input. simpl. rewrite Hr, Hc. reflexivity.
  - intros Hv. unfold _format_input, py_str. rewrite Hv. destruct v; reflexivity.
  - unfold _format_input at 1. rewrite is_message_format_input. reflexivity.
Qed.

End Normalization.

Section Sequential.
Context `{PyEnv} {W : Type} (_agents : gmap string (Agent W)).

(** An empty (or absent) sequence is refused before anything runs. *)
Lemma sequential_empty_sequence config input_data s :
  default [] (sequence (workflow config)) = [] ->
  SequentialOrchestrator_execute _agents config input_data s =
    (s, Raised (ValueError "Workflow must specify a sequence of agent IDs")).
Proof. intros E. unfold SequentialOrchestrator_execute. rewrite E. reflexivity. Qed.

(** A non-empty sequence starts the pipeline on the normalized input. *)
Lemma sequential_nonempty_sequence config input_data s :
  default [] (sequence (workflow config)) <> [] ->
  SequentialOrchestrator_execute _agents config input_data s =
    sequential_for _agents (default [] (sequence (workflow config)))
      (_format_input input_data) s.
Proof.
  intros E. unfold SequentialOrchestrator_execute.
  destruct (default [] (sequence (workflow config))); [contradiction | reflexivity].
Qed.

(** Over resolvable stubs the loop hands every agent the raw output of its
    predecessor and returns the last output as it is. *)
Lemma sequential_for_stubs behaviour ids : forall x s,
  Forall (fun a => _agents !! a = Some (stub_agent (behaviour a))) ids ->
  sequential_for _agents ids x s =
    (MkSched (world s)
       (trace s ++ handed behaviour ids x),
     Returned (piped behaviour ids x)).
Proof.
  induction ids as [|a ids IH]; intros x s Hall.
  - destruct s. simpl. rewrite app_nil_r. reflexivity.
  - inversion Hall as [|? ? Ha Hrest]; subst. simpl. rewrite Ha.
    unfold bind, agent_run, stub_agent. simpl.
    rewrite IH by assumption. simpl. rewrite <- app_assoc. reflexivity.
Qed.

(** An unresolvable id stops the run at that point: the agents before it
    have run, none after it does. *)
Lemma sequential_for_unresolved behaviour pre bad post x s :
  Forall (fun a => _agents !! a = Some (stub_agent (behaviour a))) pre ->
  _agents !! bad = None ->
  sequential_for _agents (pre ++ bad :: post) x s =
    (MkSched (world s)
       (trace s ++ handed behaviour pre x),
     Raised (ValueError ("Agent " +:+ bad +:+ " not found"))).
Proof.
  revert x s. induction pre as [|a pre IH]; intros x s Hall Hbad.
  - destruct s. simpl. rewrite Hbad, app_nil_r. reflexivity.
  - inversion Hall as [|? ? Ha Hrest]; subst. simpl. rewrite Ha.
    unfold bind, agent_run, stub_agent. simpl.
    rewrite IH by assumption. simpl. rewrite <- app_assoc. reflexivity.
Qed.

End Sequential.

Section SequentialExamples.
Import Samples.

(** The pipeline [A, B, C] of name-appending stubs on the input "start". *)
Example sequential_start_ABC :
  (SequentialOrchestrator_execute Samples.abc_agents
     (Samples.sequential_config ["A"; "B"; "C"]) (VStr "start")
     Samples.empty_sched).2
  = Returned (VStr "start|A|B|C").
Proof. vm_compute. reflexivity. Qed.

(** C7. The sequential scheduler hands the first agent the normalized
    workflow input, and the second agent the output of the first as it is:
    on the pipeline [A, B] with input "start", [B] is run on the bare string
    "start|A", whose normalized form is the user message with that content. *)
Theorem C7_sequential_second_agent_gets_raw_output :
  trace (SequentialOrchestrator_execute abc_agents
           (sequential_config ["A"; "B"]) (VStr "start") empty_sched).1
  = [("A", VDict [("role", VStr "user"); ("content", VStr "start")]);
     ("B", VStr "start|A")]
  /\ _format_input (VStr "start|A")
     = VDict [("role", VStr "user"); ("content", VStr "start|A")].
Proof. split; vm_compute; reflexivity. Qed.

End SequentialExamples.

(** ** The DAG scheduler *)

Section Dag.
Context `{PyEnv} {W : Type} (_agents : gmap string (Agent W)).

Lemma all_in_results_spec results dependencies :
  all_in_results results dependencies = true <->
  forall dep, dep ∈ dependencies -> is_Some (results !! dep).
Proof.
  unfold all_in_results. rewrite forallb_forall. split.
  - intros Hall dep Hin. apply list_elem_of_In in Hin.
    apply Hall in Hin. by apply bool_decide_eq_true in Hin.
  - intros Hall dep Hin. apply bool_decide_eq_true, Hall.
    by apply list_elem_of_In.
Qed.

Lemma dependency_results_eligible {S} results dependencies (s : S) :
  all_in_results results dependencies = true ->
  dependency_results results dependencies s =
    (s, Returned (map (fun dep => default VNone (results !! dep)) dependencies)).
Proof.
  induction dependencies as [|dep rest IH]; intros Hall; [reflexivity|].
  simpl in Hall. apply andb_true_iff in Hall as [Hdep Hrest].
  apply bool_decide_eq_true in Hdep as [v Hv].
  simpl. rewrite Hv. unfold bind. rewrite IH by assumption. reflexivity.
Qed.

Lemma node_input_eligible input_data node_config results (s : Sched W DagEvent) :
  all_in_results results (deps_of node_config) = true ->
  node_input input_data node_config results s =
    (s, Returned (node_input_value input_data node_config results)).
Proof.
  intros Hall. unfold node_input, node_input_value, deps_of in *.
  destruct (input_mapping node_config) as [[|item items]|];
    try reflexivity;
    unfold bind; rewrite dependency_results_eligible by assumption;
    destruct (default [] (dependencies node_config)); reflexivity.
Qed.

(** The three ways the body of the scan can go: the node is skipped (already
    processed, or a dependency is missing); its agent is unknown; or its
    agent is run on its input, once, with the results seen at that moment. *)
Lemma dag_node_cases input_data node_id node_config results processed_nodes s :
  let st := (results, processed_nodes) in
  (dag_node _agents input_data node_id node_config st s = (s, Returned st) /\
   (node_id ∈ processed_nodes \/
    all_in_results results (deps_of node_config) = false)) \/
  ((node_id ∉ processed_nodes) /\
   all_in_results results (deps_of node_config) = true /\
   _agents !! node_id = None /\
   dag_node _agents input_data node_id node_config st s =
     (s, Raised (ValueError ("Agent " +:+ node_id +:+ " not found")))) \/
  (exists agent,
     (node_id ∉ processed_nodes) /\
     all_in_results results (deps_of node_config) = true /\
     _agents !! node_id = Some agent /\
     let x := node_input_value input_data node_config results in
     let ev := {| ev_node := node_id; ev_config := node_config;
                  ev_input := x; ev_results := results |} in
     dag_node _agents input_data node_id node_config st s =
       (MkSched (agent (world s) x).1 (trace s ++ [ev]),
        match (agent (world s) x).2 with
        | inl e => Raised e
        | inr result =>
            Returned (<[node_id := result]> results, {[node_id]} ∪ processed_nodes)
        end)).
Proof.
  intros st. unfold dag_node, st, deps_of.
  destruct (decide (node_id ∈ processed_nodes)) as [Hin|Hnin]; [left; auto|].
  destruct (all_in_results results (default [] (dependencies node_config))) eqn:Hall;
    [|left; auto].
  right. destruct (_agents !! node_id) as [agent|] eqn:Hag; [right|left; auto].
  exists agent. repeat split; try assumption.
  unfold bind. rewrite node_input_eligible by exact Hall.
  unfold agent_run. destruct (agent (world s) _) as [w' [e|result]]; reflexivity.
Qed.

(** *** At most one run per node, and only on satisfied dependencies *)

Lemma dag_node_trace_ok dag input_data node_id node_config st s s' r :
  (node_id, node_config) ∈ dag ->
  trace_ok dag s -> covered s st ->
  dag_node _agents input_data node_id node_config st s = (s', r) ->
  trace_ok dag s' /\ forall st', r = Returned st' -> covered s' st'.
Proof.
  intros Hnode [Hnodup Hok] Hcov Hrun. destruct st as [results processed_nodes].
  destruct (dag_node_cases input_data node_id node_config results processed_nodes s)
    as [[E _]|[(_ & _ & _ & E)|(agent & Hnin & Hall & Hag & E)]];
    cbv zeta in E; rewrite E in Hrun; inversion Hrun; subst; clear Hrun E.
  - split; [split; assumption|]. intros st' [= <-]. exact Hcov.
  - split; [split; assumption|]. intros st' [=].
  - split.
    + split; simpl.
      * rewrite map_app. apply NoDup_app. split; [exact Hnodup|]. split.
        -- intros n Hn Hn'. simpl in Hn'. apply list_elem_of_singleton in Hn'. subst n.
           apply list_elem_of_fmap in Hn as (ev & Hev & Hin).
           apply Hnin. rewrite Hev. apply (Hcov ev Hin).
        -- simpl. apply NoDup_singleton.
      * apply Forall_app. split; [exact Hok|]. apply Forall_singleton.
        split; [exact Hnode|]. simpl. by apply all_in_results_spec.
    + intros st' Hret. destruct (agent (world s) _).2 as [e|result];
        [discriminate|]. injection Hret as <-.
      intros ev Hev. simpl in Hev |- *. apply elem_of_app in Hev as [Hev|Hev].
      * apply elem_of_union_r. apply (Hcov ev Hev).
      * apply list_elem_of_singleton in Hev. subst ev. simpl.
        apply elem_of_union_l. by apply elem_of_singleton.
Qed.

Lemma dag_for_trace_ok dag input_data items : forall st s s' r,
  items ⊆ dag ->
  trace_ok dag s -> covered s st ->
  dag_for _agents input_data items st s = (s', r) ->
  trace_ok dag s' /\ forall st', r = Returned st' -> covered s' st'.
Proof.
  induction items as [|[node_id node_config] items IH];
    intros st s s' r Hsub Hok Hcov Hrun.
  - injection Hrun as <- <-. split; [exact Hok|]. intros st' [= <-]. exact Hcov.
  - simpl in Hrun. unfold bind in Hrun.
    destruct (dag_node _agents input_data node_id node_config st s)
      as [s1 r1] eqn:Hnode.
    apply dag_node_trace_ok with (dag := dag) in Hnode as [Hok1 Hcov1];
      [|apply Hsub; left|assumption|assumption].
    destruct r1 as [st1|e|].
    + apply (IH st1 s1); [|assumption|by apply Hcov1|assumption].
      intros x Hx. apply Hsub. by right.
    + injection Hrun as <- <-. split; [exact Hok1|]. intros st' [=].
    + injection Hrun as <- <-. split; [exact Hok1|]. intros st' [=].
Qed.

Lemma dag_while_trace_ok dag input_data max_steps fuel : forall steps st s s' r,
  trace_ok dag s -> covered s st ->
  dag_while _agents fuel input_data dag max_steps steps st s = (s', r) ->
  trace_ok dag s'.
Proof.
  induction fuel as [|fuel IH]; intros steps st s s' r Hok Hcov Hrun;
    simpl in Hrun;
    destruct ((steps <? max_steps) && (size st.2 <? length dag)%nat);
    try (injection Hrun as <- <-; exact Hok).
  unfold bind in Hrun.
  destruct (dag_for _agents input_data dag st s) as [s1 r1] eqn:Hfor.
  apply dag_for_trace_ok with (dag := dag) in Hfor as [Hok1 Hcov1];
    [|done|assumption|assumption].
  destruct r1 as [st1|e|].
  - apply (IH (steps + 1) st1 s1 s' r); [assumption|by apply Hcov1|assumption].
  - injection Hrun as <- <-. exact Hok1.
  - injection Hrun as <- <-. exact Hok1.
Qed.

(** C4. In every run of [DAGOrchestrator.execute] the agent of a node is run
    at most once, each run is the run of a node of the DAG, and at the moment
    of the run every id in the node's declared dependencies is a key of
    [results]. *)
Theorem C4_dag_node_runs_once_after_dependencies config input_data (w : W) :
  let s' := (DAGOrchestrator_execute _agents config input_data (MkSched w [])).1 in
  NoDup (map ev_node (trace s')) /\
  Forall (fun ev =>
            (ev_node ev, ev_config ev) ∈ default [] (dag (workflow config)) /\
            forall dep, dep ∈ default [] (dependencies (ev_config ev)) ->
                        is_Some (ev_results ev !! dep))
         (trace s').
Proof.
  intros s'. subst s'. unfold DAGOrchestrator_execute.
  assert (Hnil : trace_ok (W := W) (default [] (dag (workflow config))) (MkSched w [])).
  { split; simpl; [apply NoDup_nil_2|apply Forall_nil_2]. }
  destruct (default [] (dag (workflow config))) as [|node dag'] eqn:Hdag;
    [exact Hnil|].
  destruct (truthy_str (entry_point (workflow config))) as [entry|];
    [|exact Hnil].
  unfold bind.
  destruct (dag_while _ _ _ _ _ _ _ _) as [s1 r1] eqn:Hwhile.
  apply dag_while_trace_ok in Hwhile; [|exact Hnil|intros ev Hev; inversion Hev].
  destruct r1 as [exit|e|]; simpl; try exact Hwhile.
  destruct (truthy_str (final_node (workflow config))) as [final|];
    [|exact Hwhile].
  destruct (exit.2.1 !! final); exact Hwhile.
Qed.

(** *** The scan rounds never run out of fuel *)

Lemma dag_node_total input_data node_id node_config st s :
  (dag_node _agents input_data node_id node_config st s).2 <> OutOfFuel.
Proof.
  destruct st as [results processed_nodes].
  destruct (dag_node_cases input_data node_id node_config results processed_nodes s)
    as [[E _]|[(_ & _ & _ & E)|(agent & _ & _ & _ & E)]];
    cbv zeta in E; rewrite E; simpl; try discriminate.
  destruct (agent (world s) _).2; discriminate.
Qed.

Lemma dag_for_total input_data items : forall st s,
  (dag_for _agents input_data items st s).2 <> OutOfFuel.
Proof.
  induction items as [|[node_id node_config] items IH]; intros st s;
    [discriminate|].
  simpl. unfold bind.
  pose proof (dag_node_total input_data node_id node_config st s) as Hn.
  destruct (dag_node _agents input_data node_id node_config st s) as [s1 [st1|e|]];
    [apply IH|discriminate|contradiction].
Qed.

(** The loop returns or raises when the fuel covers the remaining budget,
    and on return its guard is false. *)
Lemma dag_while_total dag input_data max_steps fuel : forall steps st s,
  (Z.to_nat (max_steps - steps) <= fuel)%nat ->
  (dag_while _agents fuel input_data dag max_steps steps st s).2 <> OutOfFuel.
Proof.
  induction fuel as [|fuel IH]; intros steps st s Hfuel; simpl;
    destruct (steps <? max_steps) eqn:Hlt; simpl; try discriminate;
    destruct (size st.2 <? length dag)%nat; try discriminate.
  - apply Z.ltb_lt in Hlt. lia.
  - unfold bind. pose proof (dag_for_total input_data dag st s) as Hf.
    destruct (dag_for _agents input_data dag st s) as [s1 [st1|e|]];
      [|discriminate|contradiction].
    apply IH. apply Z.ltb_lt in Hlt. lia.
Qed.

Lemma dag_while_exit dag input_data max_steps fuel : forall steps st s s' steps' st',
  dag_while _agents fuel input_data dag max_steps steps st s
    = (s', Returned (steps', st')) ->
  steps <= steps' /\
  (max_steps <= steps' \/ (length dag <= size st'.2)%nat).
Proof.
  induction fuel as [|fuel IH]; intros steps st s s' steps' st' Hrun;
    simpl in Hrun;
    destruct (steps <? max_steps) eqn:Hlt;
    destruct (size st.2 <? length dag)%nat eqn:Hsz;
    simpl in Hrun; try discriminate;
    try (inversion Hrun; subst; split; [lia|];
         first [ left; apply Z.ltb_ge in Hlt; exact Hlt
               | right; apply Nat.ltb_ge in Hsz; exact Hsz ]).
  unfold bind in Hrun.
  destruct (dag_for _agents input_data dag st s) as [s1 [st1|e|]];
    try discriminate.
  apply IH in Hrun as [Hle Hexit]. split; [lia|exact Hexit].
Qed.

(** [DAGOrchestrator.execute] always returns or raises. *)
Lemma DAGOrchestrator_execute_total config input_data s :
  (DAGOrchestrator_execute _agents config input_data s).2 <> OutOfFuel.
Proof.
  unfold DAGOrchestrator_execute.
  destruct (default [] (dag (workflow config))) as [|node dag']; [discriminate|].
  destruct (truthy_str (entry_point (workflow config))) as [entry|];
    [|discriminate].
  unfold bind.
  match goal with |- context [dag_while ?a ?f ?i ?d ?m ?st0 ?st ?s0] =>
    pose proof (dag_while_total d i m f st0 st s0) as Hw;
    destruct (dag_while a f i d m st0 st s0) as [s1 [exit|e|]]
  end; try discriminate.
  - destruct (truthy_str (final_node (workflow config))) as [final|];
      [|discriminate].
    simpl. destruct (exit.2.1 !! final); discriminate.
  - exfalso. apply Hw; [lia|reflexivity].
Qed.

(** *** What ends a run *)

(** The value or the error that the code after the scan rounds produces. *)
Lemma DAGOrchestrator_execute_after_rounds config input_data s node dag' entry
    s' steps' st' :
  default [] (dag (workflow config)) = node :: dag' ->
  truthy_str (entry_point (workflow config)) = Some entry ->
  dag_while _agents (Z.to_nat (max_steps config)) input_data (node :: dag')
    (max_steps config) 0 ({[ entry := _format_input input_data ]}, ∅) s
    = (s', Returned (steps', st')) ->
  DAGOrchestrator_execute _agents config input_data s =
    (s', match truthy_str (final_node (workflow config)) with
         | None => Raised (ValueError "Workflow must specify a final node")
         | Some final =>
             match st'.1 !! final with
             | None =>
                 Raised (ValueError ("Final node " +:+ final +:+ " was not processed"))
             | Some v => Returned v
             end
         end).
Proof.
  intros Hdag Hentry Hwhile. unfold DAGOrchestrator_execute.
  rewrite Hdag, Hentry. unfold bind. rewrite Hwhile. simpl.
  destruct (truthy_str (final_node (workflow config))) as [final|];
    [|reflexivity].
  destruct (st'.1 !! final); reflexivity.
Qed.

(** C5 (amended). When the scan rounds end before every node has been
    processed, the step budget is exhausted, and [execute] raises only for
    the final node: it raises when the workflow names no final node or when
    the final node is not a key of [results]; when the final node is a key of
    [results] it returns that result. The exhausted budget raises nothing. *)
Theorem C5_exhausted_budget_raises_only_for_final_node config input_data s
    node dag' entry s' steps' st' :
  default [] (dag (workflow config)) = node :: dag' ->
  truthy_str (entry_point (workflow config)) = Some entry ->
  dag_while _agents (Z.to_nat (max_steps config)) input_data (node :: dag')
    (max_steps config) 0 ({[ entry := _format_input input_data ]}, ∅) s
    = (s', Returned (steps', st')) ->
  (size st'.2 < length (node :: dag'))%nat ->
  max_steps config <= steps' /\
  DAGOrchestrator_execute _agents config input_data s =
    (s', match truthy_str (final_node (workflow config)) with
         | None => Raised (ValueError "Workflow must specify a final node")
         | Some final =>
             match st'.1 !! final with
             | None =>
                 Raised (ValueError ("Final node " +:+ final +:+ " was not processed"))
             | Some v => Returned v
             end
         end).
Proof.
  intros Hdag Hentry Hwhile Hsize. split.
  - apply dag_while_exit in Hwhile as [_ [Hsteps|Hall]]; [exact Hsteps|lia].
  - by eapply DAGOrchestrator_execute_after_rounds.
Qed.

(** C6 (amended). A workflow without a non-empty node map, or without an
    entry point, is refused before any agent is run: the scheduler's state is
    untouched. A workflow without a final node never yields a result, but its
    error is raised after the scan rounds, when the agents have run: it is the
    error of the final node when the rounds themselves raise nothing. *)
Theorem C6_dag_configuration_errors config input_data s :
  (default [] (dag (workflow config)) = [] ->
   DAGOrchestrator_execute _agents config input_data s =
     (s, Raised (ValueError "Workflow must specify a DAG structure"))) /\
  (default [] (dag (workflow config)) <> [] ->
   truthy_str (entry_point (workflow config)) = None ->
   DAGOrchestrator_execute _agents config input_data s =
     (s, Raised (ValueError "Workflow must specify an entry point"))) /\
  (truthy_str (final_node (workflow config)) = None ->
   exists e, (DAGOrchestrator_execute _agents config input_data s).2 = Raised e) /\
  (truthy_str (final_node (workflow config)) = None ->
   forall node dag' entry s' exit,
     default [] (dag (workflow config)) = node :: dag' ->
     truthy_str (entry_point (workflow config)) = Some entry ->
     dag_while _agents (Z.to_nat (max_steps config)) input_data (node :: dag')
       (max_steps config) 0 ({[ entry := _format_input input_data ]}, ∅) s
       = (s', Returned exit) ->
     DAGOrchestrator_execute _agents config input_data s =
       (s', Raised (ValueError "Workflow must specify a final node"))).
Proof.
  repeat split.
  - intros Hdag. unfold DAGOrchestrator_execute. rewrite Hdag. reflexivity.
  - intros Hdag Hentry. unfold DAGOrchestrator_execute.
    destruct (default [] (dag (workflow config))); [contradiction|].
    rewrite Hentry. reflexivity.
  - intros Hfinal.
    pose proof (DAGOrchestrator_execute_total config input_data s) as Htotal.
    destruct (DAGOrchestrator_execute _agents config input_data s)
      as [s' [v|e|]] eqn:Hrun; [|by exists e|contradiction].
    exfalso. unfold DAGOrchestrator_execute in Hrun.
    destruct (default [] (dag (workflow config))); [discriminate|].
    destruct (truthy_str (entry_point (workflow config))); [|discriminate].
    unfold bind in Hrun.
    destruct (dag_while _ _ _ _ _ _ _ _) as [s1 [exit|e|]]; try discriminate.
    rewrite Hfinal in Hrun. discriminate.
  - intros Hfinal node dag' entry s' [steps' st'] Hdag Hentry Hwhile.
    rewrite (DAGOrchestrator_execute_after_rounds _ _ _ _ _ _ _ _ _
               Hdag Hentry Hwhile).
    rewrite Hfinal. reflexivity.
Qed.

(** *** Scan order *)

Section Stubs.
Context (behaviour : string -> value -> value).
Context (input_data : value) (entry : string).

Local Abbreviation stubbed := (stubbed _agents behaviour).

Lemma dag_node_stub dag node_id node_config st s :
  stubbed dag -> (node_id, node_config) ∈ dag ->
  exists evs,
    dag_node _agents input_data node_id node_config st s =
      (MkSched (world s) (trace s ++ evs),
       Returned (stub_node behaviour input_data node_id node_config st)).
Proof.
  intros Hstub Hin. destruct st as [results processed_nodes].
  unfold stub_node. cbn [fst snd].
  destruct (dag_node_cases input_data node_id node_config results processed_nodes s)
    as [[E Hwhy]|[(Hnin & Hall & Hnone & _)|(agent & Hnin & Hall & Hag & E)]];
    cbv zeta in *.
  - exists []. rewrite E, app_nil_r. destruct s.
    destruct Hwhy as [Hp|Hall].
    + destruct (decide (node_id ∈ processed_nodes)); [reflexivity|contradiction].
    + rewrite Hall. destruct (decide (node_id ∈ processed_nodes)); reflexivity.
  - rewrite (Hstub _ _ Hin) in Hnone. discriminate.
  - pose proof (Hstub _ _ Hin) as Hs.
    unfold Agent in Hs, Hag. rewrite Hs in Hag. injection Hag as <-.
    eexists [_]. rewrite E. unfold stub_agent. simpl.
    destruct (decide (node_id ∈ processed_nodes)); [contradiction|].
    rewrite Hall. reflexivity.
Qed.

Lemma dag_for_stub dag items : forall st s,
  stubbed dag -> items ⊆ dag ->
  exists evs,
    dag_for _agents input_data items st s =
      (MkSched (world s) (trace s ++ evs),
       Returned (stub_scan behaviour input_data items st)).
Proof.
  induction items as [|[node_id node_config] items IH]; intros st s Hstub Hsub.
  - exists []. rewrite app_nil_r. destruct s. reflexivity.
  - destruct (dag_node_stub dag node_id node_config st s Hstub) as [evs1 E1];
      [apply Hsub; left|].
    destruct (IH (stub_node behaviour input_data node_id node_config st)
                (MkSched (world s) (trace s ++ evs1)) Hstub) as [evs2 E2].
    { intros x Hx. apply Hsub. by right. }
    cbn [world trace] in E2.
    exists (evs1 ++ evs2)%list. cbn [dag_for]. unfold bind. rewrite E1, E2.
    rewrite app_assoc. reflexivity.
Qed.

(** Over stubs the scan rounds return, and what every round preserves
    holds at the exit, where the guard of the loop is false. *)
Lemma dag_while_stub dag max_steps (I : Z -> DagState -> Prop) :
  stubbed dag ->
  (forall steps st, I steps st -> steps < max_steps ->
     I (steps + 1) (stub_scan behaviour input_data dag st)) ->
  forall fuel steps st s,
    I steps st ->
    (Z.to_nat (max_steps - steps) <= fuel)%nat ->
    exists s' steps' st',
      dag_while _agents fuel input_data dag max_steps steps st s
        = (s', Returned (steps', st')) /\
      I steps' st' /\
      (max_steps <= steps' \/ (length dag <= size st'.2)%nat).
Proof.
  intros Hstub Hround. induction fuel as [|fuel IH]; intros steps st s HI Hfuel;
    cbn [dag_while];
    destruct (Z.ltb_spec steps max_steps) as [Hlt|Hge];
    destruct (Nat.ltb_spec (size st.2) (length dag)) as [Hsz|Hsz];
    cbn [andb];
    try (exists s, steps, st; split; [reflexivity|]; split; [exact HI|];
         first [left; lia | right; lia]).
  - lia.
  - destruct (dag_for_stub dag dag st s Hstub) as [evs E]; [done|].
    unfold bind. rewrite E. apply IH; [by apply Hround|lia].
Qed.

(** The input of a node reads [results] at its dependencies and at the
    sources of its input mapping only. *)
Lemma map_one_agree (R1 R2 : gmap string value) mapped_input input_key mapping :
  R1 !! source_of mapping = R2 !! source_of mapping ->
  map_one R1 mapped_input input_key mapping
  = map_one R2 mapped_input input_key mapping.
Proof.
  unfold map_one, source_of.
  destruct (split_first_dot mapping) as [[source_node source_key]|];
    cbv zeta; intros ->; reflexivity.
Qed.

Lemma map_inputs_agree (R1 R2 : gmap string value) agent_input :
  (forall item, item ∈ agent_input ->
     R1 !! source_of item.2 = R2 !! source_of item.2) ->
  map_inputs R1 agent_input = map_inputs R2 agent_input.
Proof.
  unfold map_inputs. generalize (@nil (string * value)).
  induction agent_input as [|item items IH]; intros acc Hagree; [reflexivity|].
  simpl. rewrite (map_one_agree R1 R2) by (apply Hagree; left).
  apply IH. intros x Hx. apply Hagree. by right.
Qed.

Lemma node_input_value_agree node_config (R1 R2 : gmap string value) :
  sources_declared entry node_config ->
  (forall dep, dep ∈ deps_of node_config -> R1 !! dep = R2 !! dep) ->
  R1 !! entry = R2 !! entry ->
  node_input_value input_data node_config R1
  = node_input_value input_data node_config R2.
Proof.
  intros Hsrc Hdeps Hentry. unfold node_input_value.
  assert (Hhead : match deps_of node_config with
                  | dep :: _ => default VNone (R1 !! dep)
                  | [] => input_data
                  end
                = match deps_of node_config with
                  | dep :: _ => default VNone (R2 !! dep)
                  | [] => input_data
                  end).
  { destruct (deps_of node_config) as [|dep rest] eqn:E; [reflexivity|].
    rewrite (Hdeps dep) by left. reflexivity. }
  unfold sources_declared in Hsrc.
  destruct (input_mapping node_config) as [[|item items]|];
    try (rewrite Hhead; reflexivity).
  rewrite (map_inputs_agree R1 R2); [reflexivity|].
  intros x Hx. destruct (Hsrc x Hx) as [Hdep| ->]; [by apply Hdeps|exact Hentry].
Qed.

Section Graph.
Context (dag : list (string * NodeConfig)).
Context (Hkeys : NoDup (dag.*1)).
Context (Hentry : entry ∉ dag.*1).
Context (Hsources : forall node_id node_config,
            (node_id, node_config) ∈ dag -> sources_declared entry node_config).

Local Abbreviation derivable := (derivable behaviour input_data entry dag).
Local Abbreviation sound := (sound behaviour input_data entry dag).
Local Abbreviation stub_node := (stub_node behaviour input_data).
Local Abbreviation stub_scan := (stub_scan behaviour input_data).

Lemma node_config_unique node_id c1 c2 :
  (node_id, c1) ∈ dag -> (node_id, c2) ∈ dag -> c1 = c2.
Proof.
  intros H1 H2.
  apply list_elem_of_lookup in H1 as [i Hi], H2 as [j Hj].
  assert (i = j) as ->.
  { eapply NoDup_lookup; [exact Hkeys| |];
      rewrite list_lookup_fmap; [rewrite Hi|rewrite Hj]; reflexivity. }
  congruence.
Qed.

Lemma node_is_not_entry node_id node_config :
  (node_id, node_config) ∈ dag -> node_id <> entry.
Proof.
  intros Hin ->. apply Hentry. apply list_elem_of_fmap.
  exists (entry, node_config). split; [reflexivity|exact Hin].
Qed.

(** The graph and the stubs determine at most one result per node. *)
Lemma derivable_functional node_id v1 :
  derivable node_id v1 -> forall v2, derivable node_id v2 -> v1 = v2.
Proof.
  induction 1 as [|node_id node_config R1 Hin1 Hentry1 Hdeps1 Hder1 IH];
    intros v2 Hd2.
  - inversion Hd2 as [|n c R2 Hin2 _ _ _ Hn]; [reflexivity|].
    exfalso. by eapply node_is_not_entry.
  - inversion Hd2 as [Hn|n c R2 Hin2 Hentry2 Hdeps2 Hder2 Hn].
    + exfalso. eapply node_is_not_entry; [exact Hin1|]. by rewrite Hn.
    + assert (c = node_config) as -> by (by eapply node_config_unique).
      f_equal. apply node_input_value_agree.
      * by eapply Hsources.
      * intros dep Hdep.
        destruct (Hdeps1 dep Hdep) as [a Ha], (Hdeps2 dep Hdep) as [b Hb].
        rewrite Ha, Hb. f_equal. apply (IH dep a Ha). by apply Hder2.
      * by rewrite Hentry1, Hentry2.
Qed.

(** A scan step either leaves the state as it is or processes its node. *)
Lemma stub_node_cases node_id node_config (st : DagState) :
  (stub_node node_id node_config st = st /\
   (node_id ∈ st.2 \/ all_in_results st.1 (deps_of node_config) = false)) \/
  ((node_id ∉ st.2) /\ all_in_results st.1 (deps_of node_config) = true /\
   stub_node node_id node_config st =
     (<[node_id := behaviour node_id (node_input_value input_data node_config st.1)]> st.1,
      {[node_id]} ∪ st.2)).
Proof.
  unfold Reference.stub_node.
  destruct (decide (node_id ∈ st.2)); [left; auto|].
  destruct (all_in_results st.1 (deps_of node_config)); [right|left]; auto.
Qed.

Lemma stub_node_sound node_id node_config st :
  (node_id, node_config) ∈ dag -> sound st ->
  sound (stub_node node_id node_config st).
Proof.
  intros Hin (Hseed & Hder & Hproc).
  destruct (stub_node_cases node_id node_config st)
    as [[-> _]|(Hnin & Hall & ->)]; [split; [|split]; assumption|].
  pose proof (node_is_not_entry _ _ Hin) as Hne.
  split; [|split]; simpl.
  - by rewrite lookup_insert_ne.
  - intros k v Hk. apply lookup_insert_Some in Hk as [[<- <-]|[_ Hk]];
      [|by apply Hder].
    apply derivable_node; try assumption. by apply all_in_results_spec.
  - intros n Hn. apply elem_of_union in Hn as [Hn|Hn].
    + apply elem_of_singleton in Hn as ->. split.
      * apply list_elem_of_fmap. by exists (node_id, node_config).
      * rewrite lookup_insert_eq. by eexists.
    + destruct (Hproc n Hn) as [Hkey Hsome]. split; [exact Hkey|].
      apply lookup_insert_is_Some. destruct (decide (node_id = n)); auto.
Qed.

Lemma stub_scan_sound items : forall st,
  items ⊆ dag -> sound st -> sound (stub_scan items st).
Proof.
  induction items as [|[node_id node_config] items IH]; intros st Hsub Hs;
    [exact Hs|].
  simpl. apply IH; [intros x Hx; apply Hsub; by right|].
  apply stub_node_sound; [apply Hsub; left|exact Hs].
Qed.

Lemma stub_node_grows node_id node_config st :
  st.2 ⊆ (stub_node node_id node_config st).2.
Proof.
  destruct (stub_node_cases node_id node_config st)
    as [[-> _]|(_ & _ & ->)]; [done|]. simpl. set_solver.
Qed.

Lemma stub_scan_grows items : forall st, st.2 ⊆ (stub_scan items st).2.
Proof.
  induction items as [|[node_id node_config] items IH]; intros st; [done|].
  simpl. etrans; [apply (stub_node_grows node_id node_config)|apply IH].
Qed.

(** A round that processes no node found none ready. *)
Lemma stub_scan_progress items : forall st,
  (stub_scan items st = st /\
   forall node_id node_config, (node_id, node_config) ∈ items ->
     all_in_results st.1 (deps_of node_config) = true -> node_id ∈ st.2) \/
  (size st.2 < size (stub_scan items st).2)%nat.
Proof.
  induction items as [|[node_id node_config] items IH]; intros st.
  - left. split; [reflexivity|]. intros n c Hin. inversion Hin.
  - simpl.
    destruct (stub_node_cases node_id node_config st)
      as [[-> Hwhy]|(Hnin & Hall & E)].
    + destruct (IH st) as [[-> Hrest]|Hlt]; [left|by right].
      split; [reflexivity|]. intros n c Hin Hready.
      apply elem_of_cons in Hin as [[= -> ->]|Hin]; [|by eapply Hrest].
      destruct Hwhy as [Hp|Hno]; [exact Hp|congruence].
    + right.
      pose proof (subseteq_size _ _ (stub_scan_grows items
                    (stub_node node_id node_config st))) as Hmono.
      rewrite E in Hmono at 1. simpl in Hmono.
      rewrite size_union in Hmono by set_solver.
      rewrite size_singleton in Hmono. lia.
Qed.

Lemma stub_scan_saturated st :
  saturated dag st -> stub_scan dag st = st.
Proof.
  intros Hsat. unfold Reference.stub_scan.
  assert (Hgen : forall items, items ⊆ dag ->
            fold_left (fun st item => stub_node item.1 item.2 st) items st = st).
  { induction items as [|[node_id node_config] items IH]; intros Hsub;
      [reflexivity|].
    simpl.
    destruct (stub_node_cases node_id node_config st)
      as [[-> _]|(Hnin & Hall & _)].
    - apply IH. intros x Hx. apply Hsub. by right.
    - exfalso. apply Hnin. eapply Hsat; [apply Hsub; left|exact Hall]. }
  by apply Hgen.
Qed.

(** Once every node is processed nothing is left to run. *)
Lemma full_is_saturated st :
  sound st -> (length dag <= size st.2)%nat -> saturated dag st.
Proof.
  intros (_ & _ & Hproc) Hfull node_id node_config Hin _.
  assert (Hsub : st.2 ⊆ list_to_set (dag.*1)).
  { intros n Hn. apply elem_of_list_to_set. by apply Hproc. }
  assert (Hsize : size (list_to_set (dag.*1) : gset string) = length dag).
  { rewrite size_list_to_set by exact Hkeys. apply length_fmap. }
  apply set_subseteq_size_eq in Hsub; [|lia].
  rewrite Hsub. apply elem_of_list_to_set, list_elem_of_fmap.
  by exists (node_id, node_config).
Qed.

Local Abbreviation round_inv := (round_inv behaviour input_data entry dag).

Lemma round_inv_step steps st :
  round_inv steps st -> round_inv (steps + 1) (stub_scan dag st).
Proof.
  intros [Hs Hj]. split; [by apply stub_scan_sound|].
  destruct Hj as [Hle|Hsat].
  - destruct (stub_scan_progress dag st) as [[-> Hnone]|Hlt]; [right|left; lia].
    intros n c Hin Hready. by eapply Hnone.
  - right. by rewrite stub_scan_saturated.
Qed.

(** A sound and saturated state holds every derivable result. *)
Lemma saturated_complete st node_id v :
  sound st -> saturated dag st ->
  derivable node_id v -> st.1 !! node_id = Some v.
Proof.
  intros (Hseed & Hder & Hproc) Hsat.
  induction 1 as [|node_id node_config R Hin HentryR Hdeps HderR IH];
    [exact Hseed|].
  assert (Hready : all_in_results st.1 (deps_of node_config) = true).
  { apply all_in_results_spec. intros dep Hdep.
    destruct (Hdeps dep Hdep) as [a Ha]. exists a. by apply IH. }
  destruct (Hproc node_id (Hsat _ _ Hin Hready)) as [_ [v' Hv']].
  rewrite Hv'. f_equal. apply (derivable_functional node_id v' (Hder _ _ Hv')).
  by apply derivable_node.
Qed.

(** With a budget of at least one round per node, the rounds over stubs
    end in a sound and saturated state. *)
Lemma dag_while_stub_saturates max_steps s :
  stubbed dag ->
  Z.of_nat (length dag) <= max_steps ->
  exists s' steps' st',
    dag_while _agents (Z.to_nat max_steps) input_data dag max_steps 0
      ({[ entry := _format_input input_data ]}, ∅) s
      = (s', Returned (steps', st')) /\
    sound st' /\ saturated dag st'.
Proof.
  intros Hstub Hbudget.
  destruct (dag_while_stub dag max_steps round_inv Hstub
              (fun steps st HI _ => round_inv_step steps st HI)
              (Z.to_nat max_steps) 0
              ({[ entry := _format_input input_data ]}, ∅) s)
    as (s' & steps' & st' & Hrun & [Hs Hj] & Hexit).
  - split; [|left; simpl; lia]. split; [|split]; simpl.
    + apply lookup_singleton_eq.
    + intros k v Hk. apply lookup_singleton_Some in Hk as [<- <-].
      apply derivable_entry.
    + intros n Hn. by apply elem_of_empty in Hn.
  - lia.
  - exists s', steps', st'. split; [exact Hrun|]. split; [exact Hs|].
    destruct Hj as [Hle|Hsat]; [|exact Hsat].
    apply full_is_saturated; [exact Hs|]. destruct Hexit; lia.
Qed.

End Graph.

Lemma derivable_ext dag dag' node_id v :
  (forall x, x ∈ dag -> x ∈ dag') ->
  derivable behaviour input_data entry dag node_id v ->
  derivable behaviour input_data entry dag' node_id v.
Proof.
  intros Hsub. induction 1 as [|n c R Hin HentryR Hdeps Hder IH];
    [apply derivable_entry|].
  apply derivable_node; auto.
Qed.

(** Two sound and saturated states over the same nodes hold the same
    results. *)
Lemma saturated_states_agree dag dag' st st' k :
  dag ≡ₚ dag' ->
  NoDup (dag.*1) -> entry ∉ dag.*1 ->
  (forall node_id node_config,
     (node_id, node_config) ∈ dag -> sources_declared entry node_config) ->
  sound behaviour input_data entry dag st -> saturated dag st ->
  sound behaviour input_data entry dag' st' -> saturated dag' st' ->
  st'.1 !! k = st.1 !! k.
Proof.
  intros Hperm Hkeys Hentry Hsrc Hs Hsat Hs' Hsat'.
  assert (Hkeys' : NoDup (dag'.*1)) by (by rewrite <- Hperm).
  assert (Hentry' : entry ∉ dag'.*1) by (by rewrite <- Hperm).
  assert (Hsrc' : forall node_id node_config,
            (node_id, node_config) ∈ dag' -> sources_declared entry node_config).
  { intros n c Hin. apply (Hsrc n c). by rewrite Hperm. }
  destruct (st.1 !! k) as [v|] eqn:Hk.
  - apply (saturated_complete dag' Hkeys' Hentry' Hsrc' st' k v Hs' Hsat').
    apply (derivable_ext dag dag'); [intros x Hx; by rewrite <- Hperm|].
    destruct Hs as (_ & Hder & _). by apply Hder.
  - destruct (st'.1 !! k) as [v|] eqn:Hk'; [|reflexivity].
    rewrite <- Hk. symmetry.
    apply (saturated_complete dag Hkeys Hentry Hsrc st k v Hs Hsat).
    apply (derivable_ext dag' dag); [intros x Hx; by rewrite Hperm|].
    destruct Hs' as (_ & Hder & _). by apply Hder.
Qed.

End Stubs.

(** Where the scan order does not matter.  For deterministic stubs that
    never fail, the outcome of [DAGOrchestrator.execute] is the same for
    every order in which the nodes of the DAG are written, hence scanned,
    when no node can read the seeded [results[entry_point]] in place of the
    output of a node (the entry point is not itself a node of the DAG),
    every input mapping reads a declared dependency or the entry point, and
    the step budget is at least the number of nodes. *)
Theorem scan_order_independent_when_entry_is_a_source behaviour config
    input_data entry nodes nodes' (s : Sched W DagEvent) :
  dag (workflow config) = Some nodes ->
  truthy_str (entry_point (workflow config)) = Some entry ->
  nodes ≡ₚ nodes' ->
  NoDup (nodes.*1) ->
  entry ∉ nodes.*1 ->
  (forall node_id node_config,
     (node_id, node_config) ∈ nodes -> sources_declared entry node_config) ->
  stubbed _agents behaviour nodes ->
  Z.of_nat (length nodes) <= max_steps config ->
  (DAGOrchestrator_execute _agents (reordered config nodes') input_data s).2
  = (DAGOrchestrator_execute _agents config input_data s).2.
Proof.
  intros Hdag Hentry Hperm Hkeys Hsource Hsrc Hstub Hbudget.
  destruct nodes as [|node rest].
  { apply Permutation_nil_l in Hperm as <-.
    unfold DAGOrchestrator_execute. simpl. rewrite Hdag. reflexivity. }
  destruct nodes' as [|node' rest'].
  { apply Permutation_nil_r in Hperm. discriminate. }
  assert (Hkeys' : NoDup ((node' :: rest').*1)) by (by rewrite <- Hperm).
  assert (Hsource' : entry ∉ (node' :: rest').*1) by (by rewrite <- Hperm).
  assert (Hsrc' : forall node_id node_config,
            (node_id, node_config) ∈ node' :: rest' ->
            sources_declared entry node_config).
  { intros n c Hin. apply (Hsrc n c). by rewrite Hperm. }
  assert (Hstub' : stubbed _agents behaviour (node' :: rest')).
  { intros n c Hin. apply (Hstub n c). by rewrite Hperm. }
  destruct (dag_while_stub_saturates behaviour input_data entry (node :: rest)
              Hkeys Hsource Hsrc (max_steps config) s Hstub Hbudget)
    as (s1 & steps1 & st1 & Hrun1 & Hs1 & Hsat1).
  destruct (dag_while_stub_saturates behaviour input_data entry (node' :: rest')
              Hkeys' Hsource' Hsrc' (max_steps config) s Hstub')
    as (s2 & steps2 & st2 & Hrun2 & Hs2 & Hsat2).
  { rewrite <- Hperm. exact Hbudget. }
  rewrite (DAGOrchestrator_execute_after_rounds config input_data s node rest
             entry s1 steps1 st1); [|by rewrite Hdag|exact Hentry|exact Hrun1].
  rewrite (DAGOrchestrator_execute_after_rounds (reordered config (node' :: rest'))
             input_data s node' rest' entry s2 steps2 st2);
    [|reflexivity|exact Hentry|exact Hrun2].
  simpl. destruct (truthy_str (final_node (workflow config))) as [final|];
    [|reflexivity].
  rewrite (saturated_states_agree behaviour input_data entry (node :: rest)
             (node' :: rest') st1 st2 final Hperm Hkeys Hsource Hsrc
             Hs1 Hsat1 Hs2 Hsat2).
  reflexivity.
Qed.


End Dag.

Section DagExamples.
Import Samples.

(** C5, counterexample. The chain [A -> B -> C] scanned consumer first with
    a budget of one round: the round ends with [C] unprocessed and the
    budget exhausted, and [execute] returns the result of the final node
    [B]. *)
Lemma C5_exhausted_budget_returns_a_value :
  match (dag_while abc_agents (Z.to_nat 1) (VStr "start") chain_CBA 1 0
           ({[ "A" := _format_input (VStr "start") ]}, ∅) empty_sched).2 with
  | Returned (steps, st) =>
      steps = 1 /\ size st.2 = 2%nat /\ length chain_CBA = 3%nat
  | _ => False
  end /\
  (DAGOrchestrator_execute abc_agents
     (dag_config chain_CBA (Some "A") (Some "B") 1) (VStr "start")
     empty_sched).2
  = Returned (VStr "start|B").
Proof. split; vm_compute; auto. Qed.

(** The amended C5 at that run. *)
Lemma C5_exhausted_budget_witness :
  (DAGOrchestrator_execute abc_agents
     (dag_config chain_CBA (Some "A") (Some "B") 1) (VStr "start")
     empty_sched).2
  = Returned (VStr "start|B").
Proof.
  edestruct (C5_exhausted_budget_raises_only_for_final_node abc_agents
               (dag_config chain_CBA (Some "A") (Some "B") 1) (VStr "start")
               empty_sched) as [_ Hexec].
  - reflexivity.
  - reflexivity.
  - vm_compute. reflexivity.
  - vm_compute. lia.
  - rewrite Hexec. vm_compute. reflexivity.
Defined.

(** C6, counterexample. A workflow with one node and no final node: the
    agent of the node is run, and only then is the workflow refused. *)
Lemma C6_missing_final_node_is_reported_after_agents_ran :
  let run := DAGOrchestrator_execute abc_agents
               (dag_config [("A", node [])] (Some "A") None 50) (VStr "start")
               empty_sched in
  map ev_node (trace run.1) = ["A"] /\
  run.2 = Raised (ValueError "Workflow must specify a final node").
Proof. split; vm_compute; reflexivity. Qed.

(** The amended C6 on a workflow without nodes, on one without entry point
    and on one without final node. *)
Lemma C6_dag_configuration_errors_witness :
  (DAGOrchestrator_execute abc_agents (dag_config [] (Some "A") (Some "A") 50)
     (VStr "start") empty_sched
   = (empty_sched, Raised (ValueError "Workflow must specify a DAG structure"))) /\
  (DAGOrchestrator_execute abc_agents (dag_config chain_ABC None (Some "C") 50)
     (VStr "start") empty_sched
   = (empty_sched, Raised (ValueError "Workflow must specify an entry point"))) /\
  (exists e,
     (DAGOrchestrator_execute abc_agents (dag_config chain_ABC (Some "A") None 50)
        (VStr "start") empty_sched).2 = Raised e).
Proof.
  split; [|split].
  - apply (C6_dag_configuration_errors abc_agents
             (dag_config [] (Some "A") (Some "A") 50)). reflexivity.
  - apply (C6_dag_configuration_errors abc_agents
             (dag_config chain_ABC None (Some "C") 50));
      [discriminate|reflexivity].
  - apply (C6_dag_configuration_errors abc_agents
             (dag_config chain_ABC (Some "A") None 50)). reflexivity.
Defined.

(** C9 (code bug). The chain [A -> B -> C] with entry point [A], the same
    nodes written in two orders.  Written producer first, [B] is run on the
    output of [A] and the final node returns "start|A|B|C".  Written
    consumer first, [B], which declares the dependency [A], is run first:
    [results["A"]] then holds the seeded workflow input, not an output of
    [A], whose agent has not run; [B] is run on that input, [A] is run after
    it, and the final node returns "start|B|C".  The output depends on the
    scan order. *)
Theorem C9_scan_order_changes_the_output :
  let user text := VDict [("role", VStr "user"); ("content", VStr text)] in
  let runs (nodes : list (string * NodeConfig)) :=
    DAGOrchestrator_execute abc_agents
      (dag_config nodes (Some "A") (Some "C") 50) (VStr "start") empty_sched in
  let log (nodes : list (string * NodeConfig)) :=
    map (fun ev => (ev_node ev, deps_of (ev_config ev), ev_input ev,
                    ev_results ev !! "A"))
      (trace (runs nodes).1) in
  chain_ABC ≡ₚ chain_CBA /\
  (runs chain_ABC).2 = Returned (VStr "start|A|B|C") /\
  log chain_ABC
  = [("A", [], user "start", Some (user "start"));
     ("B", ["A"], user "start|A", Some (VStr "start|A"));
     ("C", ["B"], user "start|A|B", Some (VStr "start|A"))] /\
  (runs chain_CBA).2 = Returned (VStr "start|B|C") /\
  log chain_CBA
  = [("B", ["A"], user "start", Some (user "start"));
     ("A", [], user "start", Some (user "start"));
     ("C", ["B"], user "start|B", Some (VStr "start|A"))].
Proof.
  cbv zeta. split; [|repeat split; vm_compute; reflexivity].
  change chain_CBA with (reverse chain_ABC). symmetry. apply reverse_Permutation.
Qed.

(** Each proviso of [scan_order_independent_when_entry_is_a_source] is
    needed.  With a budget of one round the chain fed by "in" completes
    when written producer first and
    leaves the final node unprocessed when written consumer first. *)
Example small_budget_depends_on_scan_order :
  (DAGOrchestrator_execute abc_agents
     (dag_config fed_chain (Some "in") (Some "C") 1) (VStr "start")
     empty_sched).2
  = Returned (VStr "{'x': 'start|A|B'}|C") /\
  (DAGOrchestrator_execute abc_agents
     (dag_config (reverse fed_chain) (Some "in") (Some "C") 1) (VStr "start")
     empty_sched).2
  = Raised (ValueError "Final node C was not processed").
Proof. split; vm_compute; reflexivity. Qed.

(** A mapping that reads a node outside the declared dependencies sees its
    result only when the scan happens to visit that node first. *)
Example undeclared_source_depends_on_scan_order :
  (DAGOrchestrator_execute abc_agents
     (dag_config undeclared_source (Some "in") (Some "B") 50) (VStr "start")
     empty_sched).2
  = Returned (VStr "{'x': 'start|A'}|B") /\
  (DAGOrchestrator_execute abc_agents
     (dag_config (reverse undeclared_source) (Some "in") (Some "B") 50)
     (VStr "start") empty_sched).2
  = Returned (VStr "{}|B").
Proof. split; vm_compute; reflexivity. Qed.

(** The entry point [A] yields [{"value": 7}] and [B] maps [x] to
    [A.value]: [B] is run on the user message whose content is the
    stringified [{"x": 7}]. *)
Example dag_input_mapping_reads_field :
  map (fun ev => (ev_node ev, ev_input ev))
    (trace (DAGOrchestrator_execute field_agents
              (dag_config field_dag (Some "A") (Some "B") 50) (VStr "start")
              empty_sched).1)
  = [("A", VDict [("role", VStr "user"); ("content", VStr "start")]);
     ("B", VDict [("role", VStr "user"); ("content", VStr "{'x': 7}")])].
Proof. vm_compute. reflexivity. Qed.

(** The chain fed by "in" and its reversal return the same. *)
Lemma scan_order_independent_witness :
  (DAGOrchestrator_execute abc_agents
     (reordered (dag_config fed_chain (Some "in") (Some "C") 50)
        (reverse fed_chain))
     (VStr "start") empty_sched).2
  = (DAGOrchestrator_execute abc_agents
       (dag_config fed_chain (Some "in") (Some "C") 50)
       (VStr "start") empty_sched).2.
Proof.
  apply (scan_order_independent_when_entry_is_a_source abc_agents names
           (dag_config fed_chain (Some "in") (Some "C") 50) (VStr "start")
           "in" fed_chain (reverse fed_chain) empty_sched).
  - reflexivity.
  - reflexivity.
  - symmetry. apply reverse_Permutation.
  - apply (bool_decide_unpack _). vm_compute. exact I.
  - apply (bool_decide_unpack _). vm_compute. exact I.
  - intros node_id node_config Hin item Hitem.
    repeat (apply elem_of_cons in Hin as [[= -> ->]|Hin]);
      try (by inversion Hin); simpl in Hitem;
      try (by inversion Hitem).
    apply list_elem_of_singleton in Hitem as ->. left. simpl. left.
  - intros node_id node_config Hin.
    repeat (apply elem_of_cons in Hin as [[= -> ->]|Hin]);
      try (by inversion Hin); reflexivity.
  - simpl. lia.
Defined.

End DagExamples.

End OrchestrationProps.

(** ** The agent decision loop *)

Module AgentProps.
Import Tools Agents Reference.

Section Loop.
Context `{PyEnv} {Temperature PState : Type}.
Context (providers : gmap string (LLMProvider Temperature PState)).
Context (registry : gmap string Tool).
Context (config : AgentConfig Temperature).

Local Abbreviation World := (World PState).
Local Abbreviation run_while := (run_while providers config).
Local Abbreviation _run_iteration := (_run_iteration providers config).

(** The tool messages of one response are appended in call order. *)
Lemma for_tool_calls_appends tools tool_calls : forall w : World,
  for_tool_calls tools tool_calls w =
    (with_memory (_memory w ++ map (tool_response tools) tool_calls) w,
     Returned tt).
Proof.
  induction tool_calls as [|tc rest IH]; intros w.
  - simpl. unfold ret, with_memory. rewrite app_nil_r. destruct w; reflexivity.
  - simpl. unfold bind, memory_add, modify. rewrite IH.
    unfold with_memory. simpl. rewrite <- app_assoc. reflexivity.
Qed.

(** One completion request of a tool-using agent. *)
Lemma run_iteration_complete p messages tools (w : World) :
  providers !! provider config = Some p ->
  _run_iteration messages tools w =
    (let r := complete p (backends w) messages (specs_of tools) (model config)
                (temperature config) in
     ({| _state := _state w; _memory := _memory w; backends := r.1;
         completion_calls := S (completion_calls w) |},
      match r.2 with inl e => Raised e | inr m => Returned m end)).
Proof.
  intros Hp. unfold Agents._run_iteration, _get_provider, bind. rewrite Hp.
  unfold ret, provider_complete, specs_of, _get_tool_specs.
  destruct tools; destruct (complete p _ _ _ _ _); reflexivity.
Qed.

(** An iteration whose response carries tool calls goes on to the next
    iteration, on the extended history. *)
Lemma run_while_tool_iteration p fuel tools max_iterations iterations messages
    (w : World) ps' response :
  providers !! provider config = Some p ->
  iterations < max_iterations ->
  complete p (backends w) messages (specs_of tools) (model config)
    (temperature config) = (ps', inr response) ->
  default [] (tool_calls response) <> [] ->
  let w' := after_tool_iteration w (iterations + 1) ps' response tools in
  run_while (S fuel) tools max_iterations iterations messages w =
    run_while fuel tools max_iterations (iterations + 1) (_memory w') w'.
Proof.
  intros Hp Hlt Hc Htc w'. cbn [Agents.run_while].
  apply Z.ltb_lt in Hlt. rewrite Hlt.
  unfold bind at 1. unfold set_iterations, modify.
  unfold bind at 1. rewrite (run_iteration_complete p) by exact Hp.
  cbn [with_state _state _memory backends completion_calls].
  rewrite Hc. cbn [fst snd].
  destruct (default [] (tool_calls response)) as [|tc tcs] eqn:Etc;
    [contradiction|].
  unfold bind at 1. unfold memory_add, modify.
  unfold bind at 1. rewrite for_tool_calls_appends.
  unfold bind at 1. unfold get_conversation_history.
  unfold with_memory. cbn [_state _memory backends completion_calls].
  subst w'. unfold after_tool_iteration. rewrite Etc, <- app_assoc.
  reflexivity.
Qed.

(** An iteration whose response carries no tool call ends the loop. *)
Lemma run_while_final_iteration p fuel tools max_iterations iterations messages
    (w : World) ps' response :
  providers !! provider config = Some p ->
  iterations < max_iterations ->
  complete p (backends w) messages (specs_of tools) (model config)
    (temperature config) = (ps', inr response) ->
  default [] (tool_calls response) = [] ->
  run_while (S fuel) tools max_iterations iterations messages w =
    (after_final_iteration w (iterations + 1) ps' response,
     Returned (Some response)).
Proof.
  intros Hp Hlt Hc Htc. cbn [Agents.run_while].
  apply Z.ltb_lt in Hlt. rewrite Hlt.
  unfold bind at 1. unfold set_iterations, modify.
  unfold bind at 1. rewrite (run_iteration_complete p) by exact Hp.
  cbn [with_state _state _memory backends completion_calls].
  rewrite Hc. cbn [fst snd]. rewrite Htc.
  reflexivity.
Qed.

(** The opening of [ReActAgent.run] and [FunctionCallingAgent.run]. *)
Lemma ReActAgent_run_opening input_message tools (w : World) :
  ReActAgent_run providers registry config input_message tools w =
    let w0 := opened config input_message w in
    run_while (Z.to_nat (max_iterations config))
      (active_tools registry config tools) (max_iterations config) 0
      (_memory w0) w0.
Proof.
  unfold ReActAgent_run, opened, active_tools.
  unfold bind at 1. unfold ensure_system_message.
  unfold bind at 1. unfold get_conversation_history.
  destruct (existsb is_system (_memory w)); reflexivity.
Qed.

Lemma FunctionCallingAgent_run_opening input_message tools (w : World) :
  FunctionCallingAgent_run providers registry config input_message tools w =
    let w0 := opened config input_message w in
    run_while (Z.to_nat (max_iterations config))
      (active_tools registry config tools) (max_iterations config) 0
      (_memory w0) w0.
Proof.
  unfold FunctionCallingAgent_run, opened, active_tools.
  unfold bind at 1. unfold ensure_system_message.
  unfold bind at 1. unfold get_conversation_history.
  destruct (existsb is_system (_memory w)); reflexivity.
Qed.

(** *** A provider that always asks for tools exhausts the budget *)

Lemma run_while_exhausts_budget p tools max_iterations :
  providers !! provider config = Some p ->
  always_requests_tools p ->
  forall fuel iterations messages (w : World),
    iterations <= max_iterations ->
    (Z.to_nat (max_iterations - iterations) <= fuel)%nat ->
    exists w',
      run_while fuel tools max_iterations iterations messages w
        = (w', Returned None) /\
      completion_calls w' =
        (completion_calls w + Z.to_nat (max_iterations - iterations))%nat /\
      Agents.iterations (_state w') =
        if iterations <? max_iterations then max_iterations
        else Agents.iterations (_state w).
Proof.
  intros Hp Hstub. induction fuel as [|fuel IH];
    intros iterations messages w Hle Hfuel.
  - assert (iterations = max_iterations) as -> by lia.
    exists w. cbn [Agents.run_while]. rewrite Z.ltb_irrefl.
    rewrite Z.sub_diag. split; [reflexivity|]. split; [simpl; lia|reflexivity].
  - destruct (Z.ltb_spec iterations max_iterations) as [Hlt|Hge].
    + destruct (Hstub (backends w) messages (specs_of tools) (model config)
                  (temperature config)) as (ps' & response & Hc & Htc).
      rewrite (run_while_tool_iteration p fuel tools max_iterations iterations
                 messages w ps' response Hp Hlt Hc Htc).
      cbv zeta.
      destruct (IH (iterations + 1)
                  (_memory (after_tool_iteration w (iterations + 1) ps' response tools))
                  (after_tool_iteration w (iterations + 1) ps' response tools))
        as (w' & Hrun & Hcalls & Hit); [lia|lia|].
      exists w'. split; [exact Hrun|]. split.
      * rewrite Hcalls. simpl. lia.
      * rewrite Hit. destruct (Z.ltb_spec (iterations + 1) max_iterations);
          [reflexivity|]. simpl. lia.
    + assert (iterations = max_iterations) as -> by lia.
      exists w. cbn [Agents.run_while]. rewrite Z.ltb_irrefl.
      rewrite Z.sub_diag. split; [reflexivity|]. split; [simpl; lia|reflexivity].
Qed.

(** C1. With a provider stub that always returns a response carrying tool
    calls, [run] of a tool-using agent ([ReActAgent], [FunctionCallingAgent])
    returns [None] after exactly [max_iterations] iterations: it neither
    raises nor runs on; at exit the iteration counter equals
    [max_iterations] and equals the number of completion calls issued. *)
Theorem C1_tool_loop_stops_at_max_iterations p input_message tools (w : World) :
  providers !! provider config = Some p ->
  always_requests_tools p ->
  0 < max_iterations config ->
  exists w',
    ReActAgent_run providers registry config input_message tools w
      = (w', Returned None) /\
    FunctionCallingAgent_run providers registry config input_message tools w
      = (w', Returned None) /\
    iterations (_state w') = max_iterations config /\
    iterations (_state w') <= max_iterations config /\
    Z.of_nat (completion_calls w' - completion_calls w) = iterations (_state w').
Proof.
  intros Hp Hstub Hpos.
  destruct (run_while_exhausts_budget p (active_tools registry config tools)
              (max_iterations config) Hp Hstub
              (Z.to_nat (max_iterations config)) 0
              (_memory (opened config input_message w))
              (opened config input_message w))
    as (w' & Hrun & Hcalls & Hit); [lia|lia|].
  exists w'. rewrite FunctionCallingAgent_run_opening, ReActAgent_run_opening.
  cbv zeta. rewrite Hrun.
  apply Z.ltb_lt in Hpos as Hpos'. rewrite Hpos' in Hit.
  repeat split; try assumption; try lia.
  rewrite Hcalls, Hit. unfold opened, with_memory. simpl. lia.
Qed.

(** *** Unknown tools *)

Lemma find_tool_unknown tools tool_name :
  (forall t, t ∈ tools -> name (spec t) <> tool_name) ->
  find_tool tools (Some tool_name) = None.
Proof.
  intros Hnone. unfold find_tool.
  destruct (find _ tools) as [t|] eqn:Hfind; [|reflexivity].
  apply find_some in Hfind as [Hin Heq]. apply String.eqb_eq in Heq.
  exfalso. apply (Hnone t); [by apply list_elem_of_In|exact Heq].
Qed.

(** C2. In an iteration of the loop, a tool call that names a tool outside
    the active tool set is answered by a Tool message with the id of the call
    and the content "Error: Tool <name> not found"; the message is appended
    to the history after the response, and the loop goes on to the next
    iteration: it neither ends nor raises there. *)
Theorem C2_unknown_tool_reported_and_loop_continues p fuel tools max_iterations
    iterations messages (w : World) ps' response tool_call fn tool_name :
  providers !! provider config = Some p ->
  iterations < max_iterations ->
  complete p (backends w) messages (specs_of tools) (model config)
    (temperature config) = (ps', inr response) ->
  tool_call ∈ default [] (tool_calls response) ->
  tc_function tool_call = Some fn ->
  fn_name fn = Some tool_name ->
  (forall t, t ∈ tools -> name (spec t) <> tool_name) ->
  let reply :=
    {| role := Some "tool";
       content_entry :=
         ContentStr ("Error: Tool " +:+ tool_name +:+ " not found");
       tool_call_id := tc_id tool_call;
       tool_calls := None |} in
  let w' := after_tool_iteration w (iterations + 1) ps' response tools in
  tool_response tools tool_call = reply /\
  (exists earlier later,
     _memory w' = (_memory w ++ response :: earlier ++ reply :: later)%list) /\
  run_while (S fuel) tools max_iterations iterations messages w =
    run_while fuel tools max_iterations (iterations + 1) (_memory w') w'.
Proof.
  intros Hp Hlt Hc Hin Hfn Hname Hunknown reply w'.
  assert (Hreply : tool_response tools tool_call = reply).
  { unfold tool_response. rewrite Hfn. simpl. rewrite Hname.
    rewrite find_tool_unknown by exact Hunknown. reflexivity. }
  split; [exact Hreply|]. split.
  - apply list_elem_of_split in Hin as (l1 & l2 & Hsplit).
    exists (map (tool_response tools) l1), (map (tool_response tools) l2).
    subst w'. unfold after_tool_iteration. simpl.
    rewrite Hsplit, map_app. simpl. rewrite Hreply. reflexivity.
  - apply (run_while_tool_iteration p); try assumption.
    intros Hnil. rewrite Hnil in Hin. inversion Hin.
Qed.

(** *** Failures of a tool stay inside the loop *)

Lemma run_while_history p tools max_iterations :
  providers !! provider config = Some p ->
  always_answers p ->
  forall fuel iterations messages (w : World),
    (Z.to_nat (max_iterations - iterations) <= fuel)%nat ->
    exists w' final_response appended,
      run_while fuel tools max_iterations iterations messages w
        = (w', Returned final_response) /\
      _memory w' = (_memory w ++ appended)%list /\
      loop_history tools appended.
Proof.
  intros Hp Hanswers. induction fuel as [|fuel IH];
    intros iterations messages w Hfuel.
  - exists w, None, []. cbn [Agents.run_while].
    destruct (Z.ltb_spec iterations max_iterations); [lia|].
    split; [reflexivity|]. split; [by rewrite app_nil_r|constructor].
  - destruct (Z.ltb_spec iterations max_iterations) as [Hlt|Hge].
    + destruct (Hanswers (backends w) messages (specs_of tools) (model config)
                  (temperature config)) as (ps' & response & Hc).
      destruct (default [] (tool_calls response)) as [|tc tcs] eqn:Htc.
      * exists (after_final_iteration w (iterations + 1) ps' response),
               (Some response), [response].
        split; [by apply (run_while_final_iteration p)|].
        split; [reflexivity|by constructor].
      * rewrite (run_while_tool_iteration p fuel tools max_iterations iterations
                   messages w ps' response Hp Hlt Hc)
          by (rewrite Htc; discriminate).
        cbv zeta.
        destruct (IH (iterations + 1)
                    (_memory (after_tool_iteration w (iterations + 1) ps'
                                response tools))
                    (after_tool_iteration w (iterations + 1) ps' response tools))
          as (w' & final_response & appended & Hrun & Hmem & Hhist); [lia|].
        exists w', final_response,
          (response :: map (tool_response tools)
                         (default [] (tool_calls response)) ++ appended)%list.
        split; [exact Hrun|]. split.
        -- rewrite Hmem. unfold after_tool_iteration. simpl.
           rewrite <- app_assoc. reflexivity.
        -- constructor; [rewrite Htc; discriminate|exact Hhist].
    + exists w, None, []. cbn [Agents.run_while].
      destruct (Z.ltb_spec iterations max_iterations); [lia|].
      split; [reflexivity|]. split; [by rewrite app_nil_r|constructor].
Qed.

Lemma check_required_dict required kv :
  (forall param, param ∈ required -> dict_mem param kv = true) \/
  (exists param,
     param ∈ required /\ dict_mem param kv = false /\
     check_required required (VDict kv)
       = inl (ValueError ("Required parameter " +:+ param +:+ " missing"))).
Proof.
  induction required as [|param rest IH].
  - left. intros param Hin. inversion Hin.
  - simpl. destruct (dict_mem param kv) eqn:Hmem.
    + destruct IH as [Hall|(q & Hq & Hmiss & Hraise)].
      * left. intros q Hq. apply elem_of_cons in Hq as [->|Hq]; auto.
      * right. exists q. split; [by right|]. split; assumption.
    + right. exists param. split; [by left|]. split; [exact Hmem|reflexivity].
Qed.

Lemma check_required_present required kv :
  (forall param, param ∈ required -> dict_mem param kv = true) ->
  check_required required (VDict kv) = inr tt.
Proof.
  induction required as [|param rest IH]; intros Hall; [reflexivity|].
  simpl. rewrite (Hall param) by (by left).
  apply IH. intros q Hq. apply Hall. by right.
Qed.

(** Whether [param in payload] raises depends on the payload only. *)
Lemma py_in_raises_for_every_name param payload e :
  py_in param payload = inl e -> forall q, py_in q payload = inl e.
Proof. destruct payload; simpl; intros Hin q; try discriminate; exact Hin. Qed.

(** The three ways the loop over the required parameters ends. *)
Lemma check_required_cases required payload :
  ((forall param, param ∈ required -> py_in param payload = inr true) /\
   check_required required payload = inr tt) \/
  (exists param,
     param ∈ required /\ py_in param payload = inr false /\
     check_required required payload
       = inl (ValueError ("Required parameter " +:+ param +:+ " missing"))) \/
  (exists param e,
     param ∈ required /\ py_in param payload = inl e /\
     check_required required payload = inl e).
Proof.
  induction required as [|param rest IH].
  - left. split; [intros param Hin; inversion Hin|reflexivity].
  - cbn [check_required]. destruct (py_in param payload) as [e|[|]] eqn:Hin.
    + right. right. exists param, e. split; [left|]. split; [exact Hin|reflexivity].
    + destruct IH as [[Hall Hok]|[(q & Hq & Hmiss & Hraise)|(q & e & Hq & He & Hraise)]].
      * left. split; [|exact Hok]. intros q Hq.
        apply elem_of_cons in Hq as [->|Hq]; [exact Hin|by apply Hall].
      * right. left. exists q. split; [by right|]. split; assumption.
      * right. right. exists q, e. split; [by right|]. split; assumption.
    + right. left. exists param. split; [left|]. split; [exact Hin|reflexivity].
Qed.

(** C3. In an iteration of the loop of [run], a tool call that resolves to
    a tool is answered by a Tool message with the id of the call: a failure
    of the parse of the payload or of the execution of the tool (its
    validation of the required parameters included) becomes the content
    "Error: ..." of that message, a success the stringified result; the
    message is appended to the history after the response and the loop goes
    on to the next iteration.  With a provider that answers, [run] returns
    whatever the tools do, and what it has appended to the history is, per
    iteration, the response followed by the reply to each of its tool
    calls.  [FunctionTool.execute], on every payload: it raises its
    validation error for a required parameter that is not in the payload;
    when every required parameter is in the payload it is the call of the
    wrapped function with the payload as keyword arguments; when the payload
    supports no membership test it raises the error of that test; and it
    returns a result only for a dict that has every required parameter. *)
Theorem C3_tool_failures_become_tool_messages p :
  providers !! provider config = Some p ->
  (forall fuel tools max_iterations iterations messages (w : World) ps'
          response tool_call tool,
     iterations < max_iterations ->
     complete p (backends w) messages (specs_of tools) (model config)
       (temperature config) = (ps', inr response) ->
     tool_call ∈ default [] (tool_calls response) ->
     let function :=
       default {| fn_name := None; fn_arguments := None |} (tc_function tool_call) in
     let arguments_str := default "{}" (fn_arguments function) in
     find_tool tools (fn_name function) = Some tool ->
     let reply :=
       {| role := Some "tool";
          content_entry :=
            ContentStr
              match json_loads arguments_str with
              | inl e => "Error: " +:+ exn_str e
              | inr arguments =>
                  match execute tool arguments with
                  | inl e => "Error: " +:+ exn_str e
                  | inr result => py_str result
                  end
              end;
          tool_call_id := tc_id tool_call;
          tool_calls := None |} in
     let w' := after_tool_iteration w (iterations + 1) ps' response tools in
     (exists earlier later,
        _memory w' = (_memory w ++ response :: earlier ++ reply :: later)%list) /\
     run_while (S fuel) tools max_iterations iterations messages w =
       run_while fuel tools max_iterations (iterations + 1) (_memory w') w') /\
  (always_answers p ->
   forall input_message tools (w : World),
     exists w' final_response appended,
       ReActAgent_run providers registry config input_message tools w
         = (w', Returned final_response) /\
       FunctionCallingAgent_run providers registry config input_message tools w
         = (w', Returned final_response) /\
       _memory w'
       = (_memory (opened config input_message w) ++ appended)%list /\
       loop_history (active_tools registry config tools) appended) /\
  (forall (self : FunctionTool) payload,
     let required := required_parameters (_spec self) in
     ((exists param, param ∈ required /\ py_in param payload = inr false) ->
      exists param,
        param ∈ required /\ py_in param payload = inr false /\
        FunctionTool_execute self payload
          = inl (ValueError ("Required parameter " +:+ param +:+ " missing"))) /\
     ((forall param, param ∈ required -> py_in param payload = inr true) ->
      FunctionTool_execute self payload = call_with_kwargs (func self) payload) /\
     (forall param e, param ∈ required -> py_in param payload = inl e ->
      FunctionTool_execute self payload = inl e) /\
     (forall v, FunctionTool_execute self payload = inr v ->
      exists kv,
        payload = VDict kv /\
        (forall param, param ∈ required -> dict_mem param kv = true) /\
        func self kv = inr v)).
Proof.
  intros Hp. split; [|split].
  - intros fuel tools max_iterations iterations messages w ps' response
      tool_call tool Hlt Hc Hin function arguments_str Hfind reply w'.
    assert (Hreply : tool_response tools tool_call = reply).
    { unfold tool_response. fold function. fold arguments_str. rewrite Hfind.
      unfold try_execute, tool_message. subst reply.
      destruct (json_loads arguments_str) as [e|arguments]; [reflexivity|].
      destruct (execute tool arguments); reflexivity. }
    split.
    + apply list_elem_of_split in Hin as (l1 & l2 & Hsplit).
      exists (map (tool_response tools) l1), (map (tool_response tools) l2).
      subst w'. unfold after_tool_iteration. simpl.
      rewrite Hsplit, map_app. simpl. rewrite Hreply. reflexivity.
    + apply (run_while_tool_iteration p); try assumption.
      intros Hnil. rewrite Hnil in Hin. inversion Hin.
  - intros Hanswers input_message tools w.
    destruct (run_while_history p (active_tools registry config tools)
                (max_iterations config) Hp Hanswers
                (Z.to_nat (max_iterations config)) 0
                (_memory (opened config input_message w))
                (opened config input_message w))
      as (w' & final_response & appended & Hrun & Hmem & Hhist); [lia|].
    exists w', final_response, appended.
    rewrite FunctionCallingAgent_run_opening, ReActAgent_run_opening.
    cbv zeta. rewrite Hrun. repeat split; assumption.
  - intros self payload required. unfold FunctionTool_execute. fold required.
    destruct (check_required_cases required payload)
      as [[Hall Hok]|[(q & Hq & Hmiss & Hraise)|(q & e & Hq & He & Hraise)]].
    + rewrite Hok. split; [|split; [|split]].
      * intros (param & Hparam & Hno). rewrite (Hall param Hparam) in Hno.
        discriminate.
      * reflexivity.
      * intros param e Hparam He. rewrite (Hall param Hparam) in He.
        discriminate.
      * intros v Hv. destruct payload as [| | | | |kv]; simpl in Hv;
          try discriminate.
        exists kv. split; [reflexivity|]. split; [|exact Hv].
        intros param Hparam. pose proof (Hall param Hparam) as Hmem.
        simpl in Hmem. by injection Hmem.
    + rewrite Hraise. split; [|split; [|split]].
      * intros _. exists q. split; [exact Hq|]. split; [exact Hmiss|reflexivity].
      * intros Hall. rewrite (Hall q Hq) in Hmiss. discriminate.
      * intros param e _ He.
        rewrite (py_in_raises_for_every_name param payload e He q) in Hmiss.
        discriminate.
      * intros v Hv. discriminate.
    + rewrite Hraise. split; [|split; [|split]].
      * intros (param & _ & Hno).
        rewrite (py_in_raises_for_every_name q payload e He param) in Hno.
        discriminate.
      * intros Hall. rewrite (Hall q Hq) in He. discriminate.
      * intros param e' _ He'.
        rewrite (py_in_raises_for_every_name q payload e He param) in He'.
        by injection He' as ->.
      * intros v Hv. discriminate.
Qed.

(** *** [reset] *)

Lemma bind_same_start {S A B} (m : M S A) (k : A -> M S B) s1 s2 :
  m s1 = m s2 -> bind m k s1 = bind m k s2.
Proof. intros E. unfold bind. rewrite E. reflexivity. Qed.

Lemma ensure_system_message_after_reset (w : World) :
  ensure_system_message config (reset config w).1 =
  ensure_system_message config (BaseAgent_init (backends w) (completion_calls w)).
Proof. reflexivity. Qed.

(** C8. On an agent that has been used and then reset, [run] behaves as on a
    freshly constructed agent of the same definition, for each class of agent
    and every input: the same result, the same final history (hence the same
    sequence of roles) and the same final state, when the provider and the
    tools behave the same. *)
Theorem C8_reset_then_run_as_fresh kind input_message tools (w : World) :
  let used_then_reset := (reset config w).1 in
  let fresh := BaseAgent_init (backends w) (completion_calls w) in
  Agent_run providers registry config kind input_message tools used_then_reset
  = Agent_run providers registry config kind input_message tools fresh /\
  map role (_memory (Agent_run providers registry config kind input_message
                       tools used_then_reset).1)
  = map role (_memory (Agent_run providers registry config kind input_message
                         tools fresh).1).
Proof.
  intros used_then_reset fresh.
  assert (Heq : Agent_run providers registry config kind input_message tools
                  used_then_reset
                = Agent_run providers registry config kind input_message tools
                    fresh).
  { destruct kind; unfold Agent_run;
      apply bind_same_start;
      [ unfold ReActAgent_run | unfold ConversationalAgent_run
      | unfold FunctionCallingAgent_run | unfold PlannerAgent_run ];
      apply bind_same_start; apply ensure_system_message_after_reset. }
  split; [exact Heq|]. rewrite Heq. reflexivity.
Qed.

End Loop.

Section AgentExamples.
Import Samples AgentSamples.

(** A run against the stub that always asks for the unknown tool "foo",
    with a budget of three iterations. *)
Example tool_asker_run :
  let run := ReActAgent_run sample_providers sample_registry
               (sample_config "asker") (InStr "hi") None fresh_world in
  run.2 = Returned None /\
  iterations (_state run.1) = 3 /\
  completion_calls run.1 = 3%nat /\
  map role (_memory run.1)
  = [Some "system"; Some "user"; Some "assistant"; Some "tool";
     Some "assistant"; Some "tool"; Some "assistant"; Some "tool"] /\
  _memory run.1 !! 3%nat
  = Some {| role := Some "tool";
            content_entry := ContentStr "Error: Tool foo not found";
            tool_call_id := Some "call_1"; tool_calls := None |}.
Proof. vm_compute. repeat split. Qed.

(** A run in which the tool "echo" fails twice, on a missing parameter
    and on a payload that does not parse, and the loop goes on to the final
    answer. *)
Example echo_failures_run :
  let run := ReActAgent_run sample_providers sample_registry
               (sample_config "echo") (InStr "hi") None fresh_world in
  run.2 = Returned (Some (says "done")) /\
  iterations (_state run.1) = 2 /\
  completion_calls run.1 = 2%nat /\
  map content (_memory run.1)
  = [Some "You are a stub."; Some "hi"; None;
     Some "Error: Required parameter text missing";
     Some "Error: Expecting value: line 1 column 1 (char 0)";
     Some "done"].
Proof. vm_compute. repeat split. Qed.

(** C1 at the stub that always asks for "foo", with a budget of three. *)
Lemma C1_tool_loop_witness :
  exists w',
    ReActAgent_run sample_providers sample_registry (sample_config "asker")
      (InStr "hi") None fresh_world = (w', Returned None) /\
    FunctionCallingAgent_run sample_providers sample_registry
      (sample_config "asker") (InStr "hi") None fresh_world
      = (w', Returned None) /\
    iterations (_state w') = 3 /\
    iterations (_state w') <= 3 /\
    Z.of_nat (completion_calls w' - completion_calls fresh_world)
    = iterations (_state w').
Proof.
  apply (C1_tool_loop_stops_at_max_iterations sample_providers sample_registry
           (sample_config "asker") tool_asker (InStr "hi") None fresh_world).
  - reflexivity.
  - intros ps messages specs m t. exists (S ps), (asks [call_foo]).
    split; [reflexivity|discriminate].
  - simpl. lia.
Defined.

(** C2 at the first iteration of that run, with "echo" as the only tool. *)
Lemma C2_unknown_tool_witness :
  let reply :=
    {| role := Some "tool";
       content_entry := ContentStr "Error: Tool foo not found";
       tool_call_id := Some "call_1"; tool_calls := None |} in
  let tools := [FunctionTool_as_Tool echo] in
  let w' := after_tool_iteration fresh_world 1 1%nat (asks [call_foo]) tools in
  tool_response tools call_foo = reply /\
  (exists earlier later,
     _memory w'
     = (_memory fresh_world ++ asks [call_foo] :: earlier ++ reply :: later)%list) /\
  run_while sample_providers (sample_config "asker") 3 tools 3 0 [] fresh_world
  = run_while sample_providers (sample_config "asker") 2 tools 3 1 (_memory w') w'.
Proof.
  apply (C2_unknown_tool_reported_and_loop_continues sample_providers
           (sample_config "asker") tool_asker 2 [FunctionTool_as_Tool echo] 3 0 []
           fresh_world 1%nat (asks [call_foo]) call_foo
           {| fn_name := Some "foo"; fn_arguments := Some "{}" |} "foo").
  - reflexivity.
  - lia.
  - reflexivity.
  - simpl. left.
  - reflexivity.
  - reflexivity.
  - intros t Ht. apply list_elem_of_singleton in Ht. subst t. simpl. discriminate.
Defined.

(** C3 at the provider that asks for "echo" twice and then answers: the
    first iteration, whose reply to the call without the required parameter
    is in the history; the whole run; and the tool "echo" on three
    payloads. *)
Lemma C3_tool_failures_witness :
  let tools := [FunctionTool_as_Tool echo] in
  let response := asks [call_echo_empty; call_echo_garbled] in
  let reply :=
    {| role := Some "tool";
       content_entry := ContentStr "Error: Required parameter text missing";
       tool_call_id := Some "call_2"; tool_calls := None |} in
  let w' := after_tool_iteration fresh_world 1 1%nat response tools in
  ((exists earlier later,
      _memory w'
      = (_memory fresh_world ++ response :: earlier ++ reply :: later)%list) /\
   run_while sample_providers (sample_config "echo") 3 tools 3 0 [] fresh_world
   = run_while sample_providers (sample_config "echo") 2 tools 3 1
       (_memory w') w') /\
  (exists w'' final_response appended,
     ReActAgent_run sample_providers sample_registry (sample_config "echo")
       (InStr "hi") None fresh_world = (w'', Returned final_response) /\
     _memory w''
     = (_memory (opened (sample_config "echo") (InStr "hi") fresh_world)
        ++ appended)%list /\
     loop_history (active_tools sample_registry (sample_config "echo") None)
       appended) /\
  (exists param,
     param ∈ ["text"] /\
     FunctionTool_execute echo (VDict [])
     = inl (ValueError ("Required parameter " +:+ param +:+ " missing"))) /\
  FunctionTool_execute echo (VDict [("text", VStr "hello")]) = inr (VStr "hello") /\
  FunctionTool_execute echo (VInt 5)
  = inl (TypeError "argument of type 'int' is not iterable").
Proof.
  destruct (C3_tool_failures_become_tool_messages sample_providers
              sample_registry (sample_config "echo") echo_then_done eq_refl)
    as (Hiter & Hrun & Hexec).
  split; [|split; [|split; [|split]]].
  - apply (Hiter 2%nat [FunctionTool_as_Tool echo] 3 0 [] fresh_world 1%nat
             (asks [call_echo_empty; call_echo_garbled]) call_echo_empty
             (FunctionTool_as_Tool echo)).
    + lia.
    + reflexivity.
    + left.
    + reflexivity.
  - destruct (Hrun (fun ps messages specs m t =>
                      ex_intro _ (S ps) (ex_intro _ _ eq_refl))
                (InStr "hi") None fresh_world)
      as (w'' & final_response & appended & Hreact & _ & Hmem & Hhist).
    exists w'', final_response, appended. repeat split; assumption.
  - destruct (Hexec echo (VDict [])) as (Hmiss & _).
    destruct Hmiss as (param & Hparam & _ & Hraise).
    + exists "text". split; [left|reflexivity].
    + exists param. split; [exact Hparam|exact Hraise].
  - destruct (Hexec echo (VDict [("text", VStr "hello")])) as (_ & Hcall & _).
    rewrite Hcall; [reflexivity|].
    intros param Hparam. apply list_elem_of_singleton in Hparam. subst param.
    reflexivity.
  - destruct (Hexec echo (VInt 5)) as (_ & _ & Hraise & _).
    apply (Hraise "text"); [left|reflexivity].
Defined.

End AgentExamples.
End AgentProps.

(** ** Reading the memory *)

Module MemoryProps.
Import Agents Memory.

(** X1. The window [get_conversation_history(max_messages)] returns is always a
    suffix of the history: for a positive bound the last [max_messages]
    messages (all of them when the history is shorter), for the bound 0 the
    whole history (the slice [messages[-0:]]), and for a negative bound the
    history without its first [-max_messages] messages. *)
Theorem history_window_is_a_suffix (n : Z) (items : list Message) :
  let window := get_conversation_history_upto (Some n) items in
  window `suffix_of` items /\
  (n = 0 -> window = items) /\
  (0 < n -> window = drop (length items - Z.to_nat n) items /\
            length window = Nat.min (Z.to_nat n) (length items)) /\
  (n < 0 -> window = drop (Z.to_nat (- n)) items).
Proof.
  cbv zeta. unfold get_conversation_history_upto, py_slice_from.
  split; [apply suffix_drop|]. split; [|split].
  - intros ->. simpl. destruct items; reflexivity.
  - intros Hn. destruct (Z.ltb_spec (- n) 0) as [_|]; [|lia].
    assert (Z.to_nat (Z.max (- n + Z.of_nat (length items)) 0)
            = (length items - Z.to_nat n)%nat) as -> by lia.
    split; [reflexivity|]. rewrite length_drop. lia.
  - intros Hn. destruct (Z.ltb_spec (- n) 0) as [|_]; [lia|].
    destruct (Z.le_ge_cases (- n) (Z.of_nat (length items))) as [Hle|Hge].
    + rewrite Z.min_l by exact Hle. reflexivity.
    + rewrite Z.min_r by lia. rewrite Nat2Z.id.
      rewrite !drop_ge by lia. reflexivity.
Qed.

End MemoryProps.

(** ** Building, registering and resolving tools *)

Module ToolProps.
Import Tools Agents ToolBuilding Notions.

Lemma dict_mem_dict_set k k' v d :
  dict_mem k (dict_set k' v d) = String.eqb k' k || dict_mem k d.
Proof.
  unfold dict_mem. induction d as [|[k0 v0] d IH]; simpl.
  - destruct (String.eqb k' k); reflexivity.
  - destruct (String.eqb_spec k0 k') as [->|Hne]; simpl.
    + destruct (String.eqb k' k); reflexivity.
    + destruct (String.eqb_spec k0 k) as [->|Hne'].
      * apply not_eq_sym, String.eqb_neq in Hne. rewrite Hne. reflexivity.
      * exact IH.
Qed.

Lemma build_parameters_spec func_name signature : forall parameters required,
  let built := build_parameters func_name signature parameters required in
  built.2 = (required ++ map param_name
                           (filter (fun p => has_default p = false) signature))%list /\
  forall k, dict_mem k built.1 = true <->
            dict_mem k parameters = true \/ k ∈ map param_name signature.
Proof.
  induction signature as [|param rest IH]; intros parameters required; cbv zeta.
  - simpl. rewrite app_nil_r. split; [reflexivity|]. intros k. split; [auto|].
    intros [Hk|Hk]; [exact Hk|inversion Hk].
  - cbn [build_parameters]. cbv zeta.
    destruct (IH (dict_set (param_name param)
                    (VDict [("type", VStr (param_type (annotation param)));
                            ("description",
                             VStr ("Parameter " +:+ param_name param
                                   +:+ " for function " +:+ func_name))])
                    parameters)
                (if has_default param then required
                 else (required ++ [param_name param])%list)) as [Hreq Hkeys].
    split.
    + rewrite Hreq. rewrite filter_cons.
      destruct (has_default param) eqn:Hd.
      * rewrite decide_False by discriminate. reflexivity.
      * rewrite decide_True by reflexivity. simpl. rewrite <- app_assoc.
        reflexivity.
    + intros k. rewrite Hkeys, dict_mem_dict_set. simpl.
      rewrite orb_true_iff, String.eqb_eq, elem_of_cons. split.
      * intros [[->|Hk]|Hk]; auto.
      * intros [Hk|[->|Hk]]; auto.
Qed.

(** X9. The spec built from a function declares exactly the parameters of the
    signature, and requires, in order, those without a default: every
    required parameter is a declared parameter. *)
Theorem built_spec_requires_the_parameters_without_default
    (_name _description : string) (f : PyFunction) :
  let built := _build_func_spec _name _description f in
  required_parameters built
  = map param_name (filter (fun p => has_default p = false) (fn_signature f)) /\
  (forall k, dict_mem k (parameters built) = true <->
             k ∈ map param_name (fn_signature f)) /\
  (forall k, k ∈ required_parameters built ->
             dict_mem k (parameters built) = true).
Proof.
  cbv zeta. unfold _build_func_spec. simpl.
  destruct (build_parameters_spec (fn__name__ f) (fn_signature f) [] [])
    as [Hreq Hkeys]. simpl in Hreq.
  assert (Hdecl : forall k,
            dict_mem k (build_parameters (fn__name__ f) (fn_signature f) [] []).1
            = true <-> k ∈ map param_name (fn_signature f)).
  { intros k. rewrite Hkeys. unfold dict_mem. simpl. split; [|auto].
    intros [Hk|Hk]; [discriminate|exact Hk]. }
  split; [exact Hreq|]. split; [exact Hdecl|].
  intros k Hk. apply Hdecl. rewrite Hreq in Hk.
  apply list_elem_of_fmap in Hk as (p & -> & Hp).
  apply list_elem_of_filter in Hp as [_ Hp].
  apply list_elem_of_fmap. by exists p.
Qed.

Lemma check_required_sound required : forall parameters,
  check_required required parameters = inr tt ->
  forall param, param ∈ required -> py_in param parameters = inr true.
Proof.
  induction required as [|q rest IH]; intros parameters Hcheck param Hin;
    [inversion Hin|].
  simpl in Hcheck. destruct (py_in q parameters) as [e|[|]] eqn:Hq;
    try discriminate.
  apply elem_of_cons in Hin as [->|Hin]; [exact Hq|by apply IH].
Qed.

(** X10. [FunctionTool.execute] returns a result only for a dict payload that
    has every required parameter, and the result is then the result of the
    wrapped function on that payload: on any other payload it raises. *)
Theorem function_tool_result_comes_from_a_complete_dict (self : FunctionTool)
    (payload v : value) :
  FunctionTool_execute self payload = inr v ->
  exists kv,
    payload = VDict kv /\
    (forall param, param ∈ required_parameters (_spec self) ->
                   dict_mem param kv = true) /\
    func self kv = inr v.
Proof.
  unfold FunctionTool_execute. intros Hrun.
  destruct (check_required (required_parameters (_spec self)) payload)
    as [e|[]] eqn:Hcheck; [discriminate|].
  destruct payload as [| | | | |kv]; simpl in Hrun; try discriminate.
  exists kv. split; [reflexivity|]. split; [|exact Hrun].
  intros param Hparam.
  pose proof (check_required_sound _ _ Hcheck param Hparam) as Hin.
  simpl in Hin. by injection Hin.
Qed.

(** X11. A tool built from a function runs the function on a dict payload
    exactly when the payload has every parameter without a default; else it
    raises the validation error for a missing parameter. *)
Theorem built_tool_validates_the_parameters_without_default (f : PyFunction)
    (n d : option string) (kv : list (string * value)) :
  let tool := FunctionTool_init f n d in
  ((forall p, p ∈ fn_signature f -> has_default p = false ->
              dict_mem (param_name p) kv = true) ->
   FunctionTool_execute tool (VDict kv) = fn_call f kv) /\
  (forall p, p ∈ fn_signature f -> has_default p = false ->
             dict_mem (param_name p) kv = false ->
   exists q, q ∈ fn_signature f /\ has_default q = false /\
             dict_mem (param_name q) kv = false /\
             FunctionTool_execute tool (VDict kv)
             = inl (ValueError ("Required parameter " +:+ param_name q
                                +:+ " missing"))).
Proof.
  cbv zeta.
  assert (Hreq : forall k,
            k ∈ required_parameters (_spec (FunctionTool_init f n d)) <->
            exists p, p ∈ fn_signature f /\ has_default p = false /\
                      param_name p = k).
  { intros k. unfold FunctionTool_init. simpl.
    destruct (build_parameters_spec (fn__name__ f) (fn_signature f) [] [])
      as [-> _]. simpl. rewrite list_elem_of_fmap. split.
    - intros (p & -> & Hp). apply list_elem_of_filter in Hp as [Hd Hp].
      by exists p.
    - intros (p & Hp & Hd & <-). exists p. split; [reflexivity|].
      by apply list_elem_of_filter. }
  split.
  - intros Hall. unfold FunctionTool_execute.
    rewrite AgentProps.check_required_present; [reflexivity|].
    intros k Hk. apply Hreq in Hk as (p & Hp & Hd & <-). by apply Hall.
  - intros p Hp Hd Hmiss.
    destruct (AgentProps.check_required_dict
                (required_parameters (_spec (FunctionTool_init f n d))) kv)
      as [Hall|(k & Hk & Hmem & Hraise)].
    + rewrite Hall in Hmiss; [discriminate|]. apply Hreq. by exists p.
    + apply Hreq in Hk as (q & Hq & Hqd & <-). exists q.
      split; [exact Hq|]. split; [exact Hqd|]. split; [exact Hmem|].
      unfold FunctionTool_execute. rewrite Hraise. reflexivity.
Qed.

Lemma fold_register_well_keyed (ts : list Tool) : forall registry,
  well_keyed registry -> well_keyed (fold_left ToolRegistry_register ts registry).
Proof.
  induction ts as [|t ts IH]; intros registry Hwk; [exact Hwk|].
  simpl. apply IH. intros n tool Hn. unfold ToolRegistry_register in Hn.
  apply lookup_insert_Some in Hn as [[<- <-]|[_ Hn]]; [reflexivity|].
  by apply Hwk.
Qed.

Lemma registered_well_keyed (ts : list Tool) : well_keyed (registered ts).
Proof. apply fold_register_well_keyed. intros n tool Hn. inversion Hn. Qed.

(** [ToolRegistry.get] after a series of [register]: the tool registered
    last under the name, if any. *)
Lemma registered_lookup (ts : list Tool) (n : string) :
  registered ts !! n
  = find (fun t => String.eqb (name (spec t)) n) (reverse ts).
Proof.
  induction ts as [|t ts IH] using rev_ind; [reflexivity|].
  unfold registered. rewrite fold_left_app. simpl. rewrite reverse_snoc.
  simpl. unfold ToolRegistry_register at 1.
  destruct (String.eqb_spec (name (spec t)) n) as [<-|Hne].
  - apply lookup_insert_eq.
  - rewrite lookup_insert_ne by exact Hne. exact IH.
Qed.

Lemma find_tool_get_tools {Temperature} (registry : gmap string Tool)
    (config : AgentConfig Temperature) (names : list string) (n : string) :
  well_keyed registry ->
  find_tool (_get_tools registry config (Some names)) (Some n)
  = if decide (n ∈ names) then registry !! n else None.
Proof.
  intros Hwk. unfold _get_tools, find_tool.
  change (default (Agents.tools config) (Some names)) with names.
  set (resolve := fun m : string =>
                    match ToolRegistry_get registry m with
                    | inr tool => Some tool
                    | inl _ => None
                    end).
  assert (Hresolve : forall m, resolve m = registry !! m).
  { intros m. unfold resolve, ToolRegistry_get.
    destruct (registry !! m); reflexivity. }
  induction names as [|m names IH]; [reflexivity|].
  cbn [omap list_omap]. rewrite Hresolve.
  destruct (registry !! m) as [t|] eqn:Hm; cbn [find].
  - rewrite (Hwk m t Hm). destruct (String.eqb_spec m n) as [->|Hne].
    + rewrite decide_True by left. by rewrite Hm.
    + rewrite IH. destruct (decide (n ∈ names)) as [Hin|Hnin].
      * rewrite decide_True by (by right). reflexivity.
      * rewrite decide_False; [reflexivity|].
        intros Hin. apply elem_of_cons in Hin as [->|Hin]; contradiction.
  - rewrite IH. destruct (decide (n ∈ names)) as [Hin|Hnin].
    + rewrite decide_True by (by right). reflexivity.
    + destruct (decide (n ∈ m :: names)) as [Hin|_]; [|reflexivity].
      apply elem_of_cons in Hin as [->|Hin]; [by rewrite Hm|contradiction].
Qed.

(** X12. With a registry filled by [ToolRegistry.register], the tool set of an
    agent resolves a tool name exactly when the name is listed in the
    configuration of the agent and registered, and then to the tool
    registered last under that name: a registered tool that the
    configuration does not list is never resolved. *)
Theorem agent_resolves_listed_and_registered_tools {Temperature}
    (registered_tools : list Tool) (config : AgentConfig Temperature)
    (n : string) :
  find_tool (_get_tools (registered registered_tools) config None) (Some n)
  = if decide (n ∈ Agents.tools config)
    then find (fun t => String.eqb (name (spec t)) n) (reverse registered_tools)
    else None.
Proof.
  rewrite <- registered_lookup.
  apply (find_tool_get_tools (registered registered_tools) config
           (Agents.tools config) n).
  apply registered_well_keyed.
Qed.

Section ToolExamples.
Import AgentSamples.

(** The tool "echo" on a payload that has its required parameter. *)
Lemma function_tool_result_witness :
  exists kv,
    VDict [("text", VStr "hello")] = VDict kv /\
    (forall param, param ∈ required_parameters (_spec echo) ->
                   dict_mem param kv = true) /\
    func echo kv = inr (VStr "hello").
Proof.
  apply (function_tool_result_comes_from_a_complete_dict echo
           (VDict [("text", VStr "hello")]) (VStr "hello")).
  reflexivity.
Defined.

(** The tool built from [greet], on a payload with and without [name]. *)
Lemma built_tool_validates_witness :
  FunctionTool_execute (FunctionTool_init FurtherSamples.greet None None)
    (VDict [("name", VStr "Ada")]) = inr (VStr "hello Ada") /\
  FunctionTool_execute (FunctionTool_init FurtherSamples.greet None None)
    (VDict [("times", VInt 2)])
  = inl (ValueError "Required parameter name missing").
Proof.
  destruct (built_tool_validates_the_parameters_without_default
              FurtherSamples.greet None None [("name", VStr "Ada")])
    as [Hrun _].
  destruct (built_tool_validates_the_parameters_without_default
              FurtherSamples.greet None None [("times", VInt 2)])
    as [_ Hmiss].
  split.
  - rewrite Hrun; [reflexivity|]. intros p Hp Hd. simpl in Hp.
    apply elem_of_cons in Hp as [->|Hp]; [reflexivity|].
    apply list_elem_of_singleton in Hp as ->. discriminate.
  - destruct (Hmiss {| param_name := "name"; has_default := false;
                       annotation := None |})
      as (q & Hq & Hqd & _ & Hraise); [left|reflexivity|reflexivity|].
    simpl in Hq. apply elem_of_cons in Hq as [->|Hq]; [exact Hraise|].
    apply list_elem_of_singleton in Hq as ->. discriminate.
Defined.

End ToolExamples.

End ToolProps.

(** ** Further properties of the agent decision loop *)

Module AgentLoopProps.
Import Tools Agents Reference Memory.

Section Loop.
Context `{PyEnv} {Temperature PState : Type}.
Context (providers : gmap string (LLMProvider Temperature PState)).
Context (registry : gmap string Tool).
Context (config : AgentConfig Temperature).

Local Abbreviation World := (World PState).
Local Abbreviation run_while := (run_while providers config).
Local Abbreviation _run_iteration := (_run_iteration providers config).
Local Abbreviation Agent_run := (Agent_run providers registry config).

(** Whatever the outcome of a tool call, its reply is a Tool message that
    carries the id of the call and some text. *)
Lemma tool_response_shape tools tool_call :
  role (tool_response tools tool_call) = Some "tool" /\
  tool_call_id (tool_response tools tool_call) = tc_id tool_call /\
  is_Some (content (tool_response tools tool_call)).
Proof.
  unfold tool_response.
  destruct (find_tool tools _) as [tool|]; [destruct (try_execute tool _)|];
    simpl; eauto.
Qed.

(** X4. In an iteration whose response carries tool calls, the history gains
    the response followed by one Tool message per call, in the order of the
    calls and each with the id of its call, before the loop goes on. *)
Theorem tool_replies_match_the_calls p fuel tools max_iterations iterations
    messages (w : World) ps' response :
  providers !! provider config = Some p ->
  iterations < max_iterations ->
  complete p (backends w) messages (specs_of tools) (model config)
    (temperature config) = (ps', inr response) ->
  default [] (tool_calls response) <> [] ->
  exists replies w',
    run_while (S fuel) tools max_iterations iterations messages w
    = run_while fuel tools max_iterations (iterations + 1) (_memory w') w' /\
    _memory w' = (_memory w ++ response :: replies)%list /\
    Forall2 (fun tool_call reply =>
               role reply = Some "tool" /\
               tool_call_id reply = tc_id tool_call /\
               is_Some (content reply))
      (default [] (tool_calls response)) replies.
Proof.
  intros Hp Hlt Hc Htc.
  exists (map (tool_response tools) (default [] (tool_calls response))),
         (after_tool_iteration w (iterations + 1) ps' response tools).
  split; [by apply (AgentProps.run_while_tool_iteration providers config p)|].
  split; [reflexivity|].
  induction (default [] (tool_calls response)) as [|tc tcs IH]; simpl;
    constructor; [apply tool_response_shape|].
  destruct tcs; [constructor|]. apply IH. discriminate.
Qed.

(** *** The history only grows *)

Lemma run_iteration_memory messages tools (w : World) :
  _memory (_run_iteration messages tools w).1 = _memory w.
Proof.
  unfold Agents._run_iteration, _get_provider, bind.
  destruct (providers !! provider config) as [p|]; [|reflexivity].
  unfold ret, provider_complete.
  destruct (complete p _ _ _ _ _) as [ps [e|m]]; reflexivity.
Qed.

Lemma run_while_extends tools max_iterations fuel :
  forall iterations messages (w : World),
    _memory w `prefix_of`
    _memory (run_while fuel tools max_iterations iterations messages w).1.
Proof.
  induction fuel as [|fuel IH]; intros iterations messages w;
    cbn [Agents.run_while]; destruct (iterations <? max_iterations);
    try reflexivity.
  unfold bind at 1. unfold set_iterations, modify. unfold bind at 1.
  match goal with |- context [_run_iteration messages tools ?w0] =>
    pose proof (run_iteration_memory messages tools w0) as Hm;
    destruct (_run_iteration messages tools w0) as [w1 [response|e|]]
  end; simpl in Hm; [|simpl; by rewrite Hm|simpl; by rewrite Hm].
  destruct (default [] (tool_calls response)) as [|tc tcs].
  - unfold bind, memory_add, modify, ret. simpl. rewrite Hm.
    by apply prefix_app_r.
  - unfold bind at 1. unfold memory_add, modify.
    unfold bind at 1. rewrite AgentProps.for_tool_calls_appends.
    unfold bind at 1. unfold get_conversation_history.
    etrans; [|apply IH]. simpl. rewrite Hm, <- app_assoc.
    by apply prefix_app_r.
Qed.

Lemma opened_extends input_message (w : World) :
  _memory w `prefix_of` _memory (opened config input_message w).
Proof.
  unfold opened. simpl. destruct (existsb is_system (_memory w));
    [|rewrite <- app_assoc]; by apply prefix_app_r.
Qed.

(** The opening of the two one-shot agents, and what follows it. *)
Lemma ConversationalAgent_run_opening input_message tools (w : World) :
  ConversationalAgent_run providers config input_message tools w =
    let w0 := opened config input_message w in
    match providers !! provider config with
    | None =>
        (w0, Raised (ValueError ("Provider " +:+ provider config
                                 +:+ " not registered")))
    | Some p =>
        let r := complete p (backends w0) (_memory w0) None (model config)
                   (temperature config) in
        match r.2 with
        | inl e =>
            ({| _state := _state w0; _memory := _memory w0; backends := r.1;
                completion_calls := S (completion_calls w0) |}, Raised e)
        | inr response =>
            ({| _state := _state w0; _memory := _memory w0 ++ [response];
                backends := r.1;
                completion_calls := S (completion_calls w0) |},
             Returned response)
        end
    end.
Proof.
  unfold ConversationalAgent_run, opened.
  unfold bind at 1. unfold ensure_system_message.
  unfold bind at 1. unfold get_conversation_history.
  destruct (existsb is_system (_memory w));
    (unfold _add_system_message, memory_add, modify, ret, _get_provider, bind;
     cbn [with_memory _state _memory backends completion_calls];
     destruct (providers !! provider config) as [p|]; [|reflexivity];
     unfold provider_complete; simpl;
     destruct (complete p _ _ _ _ _) as [ps [e|m]]; reflexivity).
Qed.

Lemma PlannerAgent_run_as_conversational input_message tools (w : World) :
  PlannerAgent_run providers config input_message tools w =
    let answered := ConversationalAgent_run providers config input_message tools w in
    (answered.1,
     match answered.2 with
     | Returned response => Returned (parse_plan response)
     | Raised e => Raised e
     | OutOfFuel => OutOfFuel
     end).
Proof.
  rewrite ConversationalAgent_run_opening.
  unfold PlannerAgent_run, opened.
  unfold bind at 1. unfold ensure_system_message.
  unfold bind at 1. unfold get_conversation_history.
  destruct (existsb is_system (_memory w));
    (unfold _add_system_message, memory_add, modify, ret, _get_provider, bind;
     cbn [with_memory _state _memory backends completion_calls];
     destruct (providers !! provider config) as [p|]; [|reflexivity];
     unfold provider_complete; simpl;
     destruct (complete p _ _ _ _ _) as [ps [e|m]]; reflexivity).
Qed.

Lemma ConversationalAgent_run_extends input_message tools (w : World) :
  _memory (opened config input_message w) `prefix_of`
  _memory (ConversationalAgent_run providers config input_message tools w).1.
Proof.
  rewrite ConversationalAgent_run_opening. cbv zeta.
  destruct (providers !! provider config) as [p|]; [|reflexivity].
  destruct (complete p _ _ _ _ _).2; simpl; [reflexivity|by apply prefix_app_r].
Qed.

Lemma bind_ret_world {S A B} (m : M S A) (f : A -> B) (s : S) :
  (bind m (fun a => ret (f a)) s).1 = (m s).1.
Proof. unfold bind, ret. destruct (m s) as [s' [a|e|]]; reflexivity. Qed.

Lemma Agent_run_extends kind input_message tools (w : World) :
  _memory (opened config input_message w) `prefix_of`
  _memory (Agent_run kind input_message tools w).1.
Proof.
  destruct kind; unfold Agents.Agent_run; rewrite bind_ret_world.
  - rewrite AgentProps.ReActAgent_run_opening. apply run_while_extends.
  - apply ConversationalAgent_run_extends.
  - rewrite AgentProps.FunctionCallingAgent_run_opening. apply run_while_extends.
  - rewrite PlannerAgent_run_as_conversational. simpl.
    apply ConversationalAgent_run_extends.
Qed.

(** X3. No [run] of any of the four agents drops or reorders what the history
    held: the history on entry, then the seeded system message if there was
    none, then the input, is a prefix of the history on exit, whatever the
    provider and the tools do (raising included). *)
Theorem run_only_appends_to_the_history kind input_message tools (w : World) :
  _memory w `prefix_of` _memory (opened config input_message w) /\
  _memory (opened config input_message w) `prefix_of`
  _memory (Agent_run kind input_message tools w).1.
Proof. split; [apply opened_extends|apply Agent_run_extends]. Qed.

Lemma find_prefix {A} (f : A -> bool) (l k : list A) x :
  l `prefix_of` k -> find f l = Some x -> find f k = Some x.
Proof.
  intros [rest ->] Hl. induction l as [|a l IH]; [discriminate|].
  simpl in *. destruct (f a); [exact Hl|by apply IH].
Qed.

(** X2. After any [run] the history has a system message, and
    [get_system_message] returns the one the history already had, or else
    the prompt of the configuration. *)
Theorem get_system_message_after_run kind input_message tools
    (w : World) :
  get_system_message (_memory (Agent_run kind input_message tools w).1)
  = Some (default (system_message config) (get_system_message (_memory w))).
Proof.
  pose proof (Agent_run_extends kind input_message tools w) as Hprefix.
  unfold get_system_message. apply (find_prefix _ _ _ _ Hprefix).
  unfold opened. simpl.
  destruct (existsb is_system (_memory w)) eqn:Hsys.
  - apply existsb_exists in Hsys as (m & Hin & Hm).
    destruct (find is_system (_memory w)) as [m'|] eqn:Hfind.
    + simpl. apply (find_prefix _ (_memory w)); [by apply prefix_app_r|exact Hfind].
    + exfalso. pose proof (find_none _ _ Hfind m Hin) as Hno. congruence.
  - assert (Hnone : find is_system (_memory w) = None).
    { destruct (find is_system (_memory w)) as [m|] eqn:Hfind; [|reflexivity].
      apply find_some in Hfind as [Hin Hm].
      assert (existsb is_system (_memory w) = true)
        by (apply existsb_exists; eauto). congruence. }
    rewrite Hnone. simpl. rewrite <- app_assoc.
    induction (_memory w) as [|a l IH]; [reflexivity|].
    simpl in *. destruct (is_system a); [discriminate|]. by apply IH.
Qed.

(** *** The iteration counter counts the completion calls *)

Lemma run_while_counts p tools max_iterations :
  providers !! provider config = Some p ->
  forall fuel iterations messages (w : World),
    (Z.to_nat (max_iterations - iterations) <= fuel)%nat ->
    let run := run_while fuel tools max_iterations iterations messages w in
    run.2 <> OutOfFuel /\
    if iterations <? max_iterations then
      iterations < Agents.iterations (_state run.1) <= max_iterations /\
      Z.of_nat (completion_calls run.1)
      = Z.of_nat (completion_calls w)
        + (Agents.iterations (_state run.1) - iterations)
    else run.1 = w.
Proof.
  intros Hp. induction fuel as [|fuel IH]; intros iterations messages w Hfuel;
    cbv zeta;
    destruct (run_while _ tools max_iterations iterations messages w)
      as [w' r] eqn:Hrun;
    cbn [Agents.run_while] in Hrun; cbn [fst snd];
    destruct (Z.ltb_spec iterations max_iterations) as [Hlt|Hge];
    try (injection Hrun as <- <-; split; [discriminate|reflexivity]); [lia|].
  unfold bind at 1 in Hrun. unfold set_iterations, modify in Hrun.
  unfold bind at 1 in Hrun.
  rewrite (AgentProps.run_iteration_complete providers config p) in Hrun
    by exact Hp.
  cbn [with_state _state _memory backends completion_calls] in Hrun.
  destruct (complete p _ _ _ _ _) as [ps' [e|response]]; cbn [fst snd] in Hrun.
  { injection Hrun as <- <-. split; [discriminate|]. simpl. lia. }
  destruct (default [] (tool_calls response)) as [|tc tcs].
  { injection Hrun as <- <-. split; [discriminate|]. simpl. lia. }
  unfold bind at 1 in Hrun. unfold memory_add, modify in Hrun.
  unfold bind at 1 in Hrun. rewrite AgentProps.for_tool_calls_appends in Hrun.
  unfold bind at 1 in Hrun. unfold get_conversation_history in Hrun.
  cbn [with_memory _state _memory backends completion_calls] in Hrun.
  match type of Hrun with run_while fuel tools max_iterations ?i ?m ?w2 = _ =>
    destruct (IH i m w2) as [Hfuel' Hcount]; [lia|]
  end.
  rewrite Hrun in Hfuel', Hcount. cbn [fst snd] in Hfuel', Hcount.
  split; [exact Hfuel'|].
  destruct (Z.ltb_spec (iterations + 1) max_iterations).
  - simpl in Hcount. lia.
  - subst w'. simpl. lia.
Qed.

(** X5. With a registered provider, whatever it answers or raises, a run of a
    tool-using agent with a positive budget ends (it returns or raises)
    with an iteration counter between 1 and [max_iterations] that equals
    the number of completion calls the run issued; with a budget that is
    not positive it issues no call and leaves the counter as it was. *)
Theorem iteration_counter_counts_completion_calls p input_message tools
    (w : World) :
  providers !! provider config = Some p ->
  let run := ReActAgent_run providers registry config input_message tools w in
  FunctionCallingAgent_run providers registry config input_message tools w = run /\
  run.2 <> OutOfFuel /\
  (0 < max_iterations config ->
   1 <= iterations (_state run.1) <= max_iterations config /\
   Z.of_nat (completion_calls run.1)
   = Z.of_nat (completion_calls w) + iterations (_state run.1)) /\
  (max_iterations config <= 0 ->
   run.2 = Returned None /\
   completion_calls run.1 = completion_calls w /\
   iterations (_state run.1) = iterations (_state w)).
Proof.
  intros Hp. cbv zeta. split; [reflexivity|].
  rewrite AgentProps.ReActAgent_run_opening. cbv zeta.
  destruct (run_while_counts p (active_tools registry config tools)
              (max_iterations config) Hp (Z.to_nat (max_iterations config)) 0
              (_memory (opened config input_message w))
              (opened config input_message w)) as [Hfuel Hcount]; [lia|].
  split; [exact Hfuel|]. split.
  - intros Hpos. apply Z.ltb_lt in Hpos. rewrite Hpos in Hcount.
    change (completion_calls (opened config input_message w))
      with (completion_calls w) in Hcount.
    destruct Hcount as [Hbound Hcalls]. rewrite Hcalls. lia.
  - intros Hle. destruct (Z.ltb_spec 0 (max_iterations config)); [lia|].
    rewrite Hcount. split; [|split; reflexivity].
    destruct (Z.to_nat (max_iterations config)); cbn [Agents.run_while];
      destruct (Z.ltb_spec 0 (max_iterations config)); try lia; reflexivity.
Qed.

(** *** An unregistered provider *)

(** X6. When the provider of the configuration is not registered, the one-shot
    agents and a tool-using agent with a positive budget raise the
    ValueError of the registry after the input has been appended to the
    history, without any completion call; a tool-using agent whose budget is
    not positive never looks the provider up and returns [None]. *)
Theorem unregistered_provider_raises_before_any_call input_message tools
    (w : World) :
  providers !! provider config = None ->
  let w0 := opened config input_message w in
  let not_registered :=
    ValueError ("Provider " +:+ provider config +:+ " not registered") in
  ConversationalAgent_run providers config input_message tools w
  = (w0, Raised not_registered) /\
  PlannerAgent_run providers config input_message tools w
  = (w0, Raised not_registered) /\
  (0 < max_iterations config ->
   ReActAgent_run providers registry config input_message tools w
   = (with_state {| messages := messages (_state w0); iterations := 1 |} w0,
      Raised not_registered)) /\
  (max_iterations config <= 0 ->
   ReActAgent_run providers registry config input_message tools w
   = (w0, Returned None)).
Proof.
  intros Hp. cbv zeta.
  assert (Hconv : ConversationalAgent_run providers config input_message tools w
                  = (opened config input_message w,
                     Raised (ValueError ("Provider " +:+ provider config
                                         +:+ " not registered")))).
  { rewrite ConversationalAgent_run_opening. cbv zeta. rewrite Hp. reflexivity. }
  split; [exact Hconv|]. split.
  { rewrite PlannerAgent_run_as_conversational, Hconv. reflexivity. }
  rewrite AgentProps.ReActAgent_run_opening. cbv zeta. split.
  - intros Hpos.
    destruct (Z.to_nat (max_iterations config)) as [|fuel] eqn:Hfuel; [lia|].
    cbn [Agents.run_while]. apply Z.ltb_lt in Hpos. rewrite Hpos.
    unfold bind at 1. unfold set_iterations, modify.
    unfold bind at 1. unfold Agents._run_iteration, _get_provider.
    unfold bind at 1. rewrite Hp. reflexivity.
  - intros Hle.
    destruct (Z.to_nat (max_iterations config)); cbn [Agents.run_while];
      destruct (Z.ltb_spec 0 (max_iterations config)); try lia; reflexivity.
Qed.

(** *** The one-shot agents *)

(** X7. With no tool in its tool set and a provider whose answer carries no
    tool call, a tool-using agent does what the conversational agent does:
    one completion request without tool specs, the same answer returned,
    the same history and the same state of the provider; only the iteration
    counter, which it sets to 1, tells them apart. *)
Theorem tool_agent_without_tools_is_conversational p input_message tools
    (w : World) ps' response :
  providers !! provider config = Some p ->
  0 < max_iterations config ->
  active_tools registry config tools = [] ->
  let w0 := opened config input_message w in
  complete p (backends w0) (_memory w0) None (model config)
    (temperature config) = (ps', inr response) ->
  default [] (tool_calls response) = [] ->
  let tool_run := ReActAgent_run providers registry config input_message tools w in
  let chat_run := ConversationalAgent_run providers config input_message tools w in
  tool_run.2 = Returned (Some response) /\
  chat_run.2 = Returned response /\
  _memory tool_run.1 = _memory chat_run.1 /\
  _memory chat_run.1 = (_memory w0 ++ [response])%list /\
  backends tool_run.1 = backends chat_run.1 /\
  completion_calls tool_run.1 = completion_calls chat_run.1 /\
  completion_calls chat_run.1 = S (completion_calls w) /\
  iterations (_state tool_run.1) = 1 /\
  _state chat_run.1 = _state w.
Proof.
  intros Hp Hpos Htools w0 Hc Htc tool_run chat_run.
  subst tool_run chat_run.
  rewrite ConversationalAgent_run_opening, AgentProps.ReActAgent_run_opening.
  cbv zeta. fold w0. rewrite Hp, Htools.
  destruct (Z.to_nat (max_iterations config)) as [|fuel] eqn:Hfuel; [lia|].
  rewrite (AgentProps.run_while_final_iteration providers config p fuel []
             (max_iterations config) 0 (_memory w0) w0 ps' response Hp Hpos Hc Htc).
  rewrite Hc. simpl. repeat split; reflexivity.
Qed.

(** X8. The planner is the conversational agent followed by the extraction of
    the plan: it leaves the same history, provider state and call count,
    raises exactly when the conversational agent does (the extraction never
    raises), and its plan is read off the answer: without a fenced block
    the single-step plan that wraps the content of the answer, the empty
    string when the answer has no content key; for a content that is
    Python's [None] the single-step plan with that [None] and the error of
    the search; with a fenced block the parsed block, or the single-step
    plan with the error of the parse. *)
Theorem planner_is_conversational_then_parse input_message tools (w : World) :
  let chat_run := ConversationalAgent_run providers config input_message tools w in
  let plan_run := PlannerAgent_run providers config input_message tools w in
  let single_step description extra :=
    VDict ([("description", VStr "Generated plan");
            ("steps", VList [VDict [("description", description)]])] ++ extra) in
  plan_run.1 = chat_run.1 /\
  (forall e, plan_run.2 = Raised e <-> chat_run.2 = Raised e) /\
  (forall response, chat_run.2 = Returned response ->
     plan_run.2 = Returned (parse_plan response) /\
     (forall text, content response = Some text ->
        re_search_json_block text = None ->
        parse_plan response = single_step (VStr text) []) /\
     (content_entry response = ContentAbsent ->
        re_search_json_block "" = None ->
        parse_plan response = single_step (VStr "") []) /\
     (content_entry response = ContentNone ->
        parse_plan response
        = single_step VNone
            [("parsing_error",
              VStr "expected string or bytes-like object, got 'NoneType'")]) /\
     (forall text plan_json,
        content_or_empty response = Some text ->
        re_search_json_block text = Some plan_json ->
        parse_plan response
        = match json_loads plan_json with
          | inr plan => plan
          | inl e => single_step (VStr text) [("parsing_error", VStr (exn_str e))]
          end)).
Proof.
  cbv zeta. rewrite PlannerAgent_run_as_conversational. cbv zeta. simpl.
  split; [reflexivity|]. split.
  - intros e. destruct (ConversationalAgent_run _ _ _ _ _).2; split;
      intros Heq; try discriminate; injection Heq as ->; reflexivity.
  - intros response ->. split; [reflexivity|].
    unfold parse_plan, content_or_empty, content, simple_plan.
    split; [|split; [|split]].
    + intros text Htext Hsearch.
      destruct (content_entry response); try discriminate.
      injection Htext as ->. rewrite Hsearch. reflexivity.
    + intros -> Hsearch. rewrite Hsearch. reflexivity.
    + intros ->. reflexivity.
    + intros text plan_json Htext Hsearch.
      destruct (content_entry response); try discriminate;
        injection Htext as <-; rewrite Hsearch;
        destruct (json_loads plan_json); reflexivity.
Qed.

End Loop.

Section LoopExamples.
Import Samples AgentSamples.

(** The first iteration against the provider that asks for "echo" twice:
    two Tool messages, for "call_2" and "call_3". *)
Lemma tool_replies_witness :
  let tools := [FunctionTool_as_Tool echo] in
  exists replies w',
    run_while sample_providers (sample_config "echo") 3 tools 3 0 [] fresh_world
    = run_while sample_providers (sample_config "echo") 2 tools 3 (0 + 1)
        (_memory w') w' /\
    _memory w'
    = (_memory fresh_world
       ++ asks [call_echo_empty; call_echo_garbled] :: replies)%list /\
    Forall2 (fun tool_call reply =>
               role reply = Some "tool" /\
               tool_call_id reply = tc_id tool_call /\
               is_Some (content reply))
      [call_echo_empty; call_echo_garbled] replies.
Proof.
  apply (tool_replies_match_the_calls sample_providers (sample_config "echo")
           echo_then_done 2 [FunctionTool_as_Tool echo] 3 0 [] fresh_world
           1%nat (asks [call_echo_empty; call_echo_garbled])).
  - reflexivity.
  - lia.
  - reflexivity.
  - discriminate.
Defined.

(** The run against the provider that always asks for "foo", with a
    budget of three. *)
Lemma iteration_counter_witness :
  let run := ReActAgent_run sample_providers sample_registry
               (sample_config "asker") (InStr "hi") None fresh_world in
  run.2 <> OutOfFuel /\
  1 <= iterations (_state run.1) <= 3 /\
  Z.of_nat (completion_calls run.1)
  = Z.of_nat (completion_calls fresh_world) + iterations (_state run.1).
Proof.
  destruct (iteration_counter_counts_completion_calls sample_providers
              sample_registry (sample_config "asker") tool_asker (InStr "hi")
              None fresh_world eq_refl) as (_ & Hfuel & Hpos & _).
  split; [exact Hfuel|]. apply Hpos. simpl. lia.
Defined.

(** A configuration that names the provider "missing". *)
Lemma unregistered_provider_witness :
  let w0 := opened (sample_config "missing") (InStr "hi") fresh_world in
  let not_registered := ValueError "Provider missing not registered" in
  ConversationalAgent_run sample_providers (sample_config "missing")
    (InStr "hi") None fresh_world = (w0, Raised not_registered) /\
  ReActAgent_run sample_providers sample_registry (sample_config "missing")
    (InStr "hi") None fresh_world
  = (with_state {| messages := messages (_state w0); iterations := 1 |} w0,
     Raised not_registered).
Proof.
  destruct (unregistered_provider_raises_before_any_call sample_providers
              sample_registry (sample_config "missing") (InStr "hi") None
              fresh_world eq_refl) as (Hchat & _ & Hpos & _).
  split; [exact Hchat|]. apply Hpos. simpl. lia.
Defined.

(** The provider "echo" once it has served a request: it answers "done",
    and the run is given an empty tool set. *)
Lemma tool_agent_without_tools_witness :
  let w := BaseAgent_init 1%nat 0%nat in
  let tool_run := ReActAgent_run sample_providers sample_registry
                    (sample_config "echo") (InStr "hi") (Some []) w in
  let chat_run := ConversationalAgent_run sample_providers
                    (sample_config "echo") (InStr "hi") (Some []) w in
  tool_run.2 = Returned (Some (says "done")) /\
  chat_run.2 = Returned (says "done") /\
  _memory tool_run.1 = _memory chat_run.1 /\
  iterations (_state tool_run.1) = 1.
Proof.
  assert (Hpos : 0 < max_iterations (sample_config "echo")) by (simpl; lia).
  destruct (tool_agent_without_tools_is_conversational sample_providers
              sample_registry (sample_config "echo") echo_then_done
              (InStr "hi") (Some []) (BaseAgent_init 1%nat 0%nat) 2%nat
              (says "done") eq_refl Hpos eq_refl eq_refl eq_refl)
    as (Htool & Hchat & Hmem & _ & _ & _ & _ & Hiter & _).
  repeat split; assumption.
Defined.

(** The planner on an answer without a content key: the single-step plan
    with the empty string. *)
Example planner_on_an_answer_without_content :
  (PlannerAgent_run FurtherSamples.terse_providers (sample_config "terse")
     (InStr "plan it") None fresh_world).2
  = Returned (VDict [("description", VStr "Generated plan");
                     ("steps", VList [VDict [("description", VStr "")]])]).
Proof. vm_compute. reflexivity. Qed.

End LoopExamples.
End AgentLoopProps.

(** ** Further properties of the workflow schedulers *)

Module SchedulerProps.
Import Orchestration Reference Notions App.

Section Schedulers.
Context `{PyEnv} {W : Type} (_agents : gmap string (Agent W)).

(** *** The sequential scheduler runs a prefix of its sequence *)

Lemma agent_run_eq {E} (agent : Agent W) (ev : E) x (s : Sched W E) :
  agent_run agent ev x s =
    (MkSched (agent (world s) x).1 (trace s ++ [ev]),
     match (agent (world s) x).2 with
     | inl e => Raised e
     | inr v => Returned v
     end).
Proof. unfold agent_run. destruct (agent (world s) x); reflexivity. Qed.

Lemma sequential_for_runs_a_prefix ids : forall x (s : Sched W SeqEvent),
  let run := sequential_for _agents ids x s in
  exists evs,
    trace run.1 = (trace s ++ evs)%list /\
    map fst evs `prefix_of` ids /\
    (forall a, a ∈ map fst evs -> is_Some (_agents !! a)) /\
    (forall ev, head evs = Some ev -> ev.2 = x) /\
    (forall v, run.2 = Returned v -> map fst evs = ids) /\
    run.2 <> OutOfFuel.
Proof.
  induction ids as [|a ids IH]; intros x s; cbv zeta.
  - exists []. simpl. rewrite app_nil_r.
    repeat split; try done. intros b Hb. inversion Hb.
  - cbn [sequential_for]. destruct (_agents !! a) as [agent|] eqn:Ha.
    + unfold bind. rewrite agent_run_eq.
      destruct (agent _ x) as [w' [e|v]]; cbn [fst snd].
      * exists [(a, x)]. simpl. split; [reflexivity|].
        split; [apply prefix_cons, prefix_nil|].
        split; [intros b Hb; apply list_elem_of_singleton in Hb as ->; by rewrite Ha|].
        split; [by intros ev [= <-]|]. split; [discriminate|discriminate].
      * match goal with |- context [sequential_for _agents ids v ?s1] =>
          destruct (IH v s1) as (evs & Htr & Hpre & Hreg & _ & Hret & Hfuel)
        end.
        cbv zeta in *. cbn [trace] in Htr.
        exists ((a, x) :: evs). rewrite Htr. simpl. rewrite <- app_assoc.
        split; [reflexivity|]. split; [by apply prefix_cons|].
        split.
        { intros b Hb. apply elem_of_cons in Hb as [->|Hb];
            [by rewrite Ha|by apply Hreg]. }
        split; [by intros ev [= <-]|].
        split; [|exact Hfuel]. intros v' Hv'. f_equal. by apply (Hret v').
    + exists []. simpl. rewrite app_nil_r. split; [reflexivity|].
      split; [apply prefix_nil|]. split; [intros b Hb; inversion Hb|].
      split; [discriminate|]. split; discriminate.
Qed.

(** X13. Whatever the agents do, [SequentialOrchestrator.execute] runs the
    agents of a prefix of the sequence, in order and each once per
    occurrence, the first of them on the normalized input; it runs only
    registered agents, so nothing at or after the first unresolvable id; and
    it returns only when the whole, non-empty sequence has been run. *)
Theorem sequential_runs_a_prefix_of_the_sequence config input_data (w : W) :
  let run := SequentialOrchestrator_execute _agents config input_data
               (MkSched w []) in
  let ids := default [] (sequence (workflow config)) in
  map fst (trace run.1) `prefix_of` ids /\
  (forall a, a ∈ map fst (trace run.1) -> is_Some (_agents !! a)) /\
  (forall ev, head (trace run.1) = Some ev -> ev.2 = _format_input input_data) /\
  (forall v, run.2 = Returned v -> map fst (trace run.1) = ids /\ ids <> []) /\
  run.2 <> OutOfFuel.
Proof.
  cbv zeta.
  destruct (default [] (sequence (workflow config))) as [|a ids] eqn:Hids.
  - rewrite OrchestrationProps.sequential_empty_sequence by exact Hids.
    simpl. repeat split; try done. intros b Hb. inversion Hb.
  - rewrite OrchestrationProps.sequential_nonempty_sequence
      by (rewrite Hids; discriminate).
    rewrite Hids.
    destruct (sequential_for_runs_a_prefix (a :: ids) (_format_input input_data)
                (MkSched w []))
      as (evs & Htr & Hpre & Hreg & Hhead & Hret & Hfuel).
    cbv zeta in *. cbn [trace app] in Htr. rewrite Htr.
    split; [exact Hpre|]. split; [exact Hreg|]. split; [exact Hhead|].
    split; [|exact Hfuel]. intros v Hv. split; [by apply (Hret v)|discriminate].
Qed.

Lemma sequential_unregistered config input_data (w : W) a :
  a ∈ default [] (sequence (workflow config)) ->
  _agents !! a = None ->
  let run := SequentialOrchestrator_execute _agents config input_data
               (MkSched w []) in
  (exists e, run.2 = Raised e) /\ a ∉ map fst (trace run.1).
Proof.
  intros Hin Hnone. cbv zeta.
  destruct (default [] (sequence (workflow config))) as [|a0 ids] eqn:Hids;
    [inversion Hin|].
  rewrite OrchestrationProps.sequential_nonempty_sequence
    by (rewrite Hids; discriminate).
  rewrite Hids.
  destruct (sequential_for_runs_a_prefix (a0 :: ids) (_format_input input_data)
              (MkSched w []))
    as (evs & Htr & _ & Hreg & _ & Hret & Hfuel).
  cbv zeta in *. cbn [trace app] in Htr. rewrite Htr.
  assert (Hnot : a ∉ map fst evs).
  { intros Hev. apply Hreg in Hev as [agent Hagent]. congruence. }
  split; [|exact Hnot].
  destruct (sequential_for _agents (a0 :: ids) _ _).2 as [v|e|];
    [|by exists e|contradiction].
  exfalso. apply Hnot. rewrite (Hret v eq_refl). exact Hin.
Qed.

(** *** The DAG scheduler: how many runs, and which nodes never run *)

Lemma DAGOrchestrator_execute_trace_ok config input_data (w : W) :
  trace_ok (default [] (dag (workflow config)))
    (DAGOrchestrator_execute _agents config input_data (MkSched w [])).1.
Proof.
  unfold DAGOrchestrator_execute.
  assert (Hnil : trace_ok (W := W) (default [] (dag (workflow config)))
                   (MkSched w [])).
  { split; simpl; [apply NoDup_nil_2|apply Forall_nil_2]. }
  destruct (default [] (dag (workflow config))) as [|node dag'] eqn:Hdag;
    [exact Hnil|].
  destruct (truthy_str (entry_point (workflow config))) as [entry|];
    [|exact Hnil].
  unfold bind.
  destruct (dag_while _ _ _ _ _ _ _ _) as [s1 r1] eqn:Hwhile.
  apply OrchestrationProps.dag_while_trace_ok in Hwhile;
    [|exact Hnil|intros ev Hev; inversion Hev].
  destruct r1 as [exit|e|]; simpl; try exact Hwhile.
  destruct (truthy_str (final_node (workflow config))) as [final|];
    [|exact Hwhile].
  destruct (exit.2.1 !! final); exact Hwhile.
Qed.

(** X16. A run of [DAGOrchestrator.execute] issues at most as many agent runs
    as the DAG has nodes, whatever the step budget and whatever the agents
    do. *)
Theorem dag_issues_at_most_one_run_per_node config input_data (w : W) :
  (length (trace (DAGOrchestrator_execute _agents config input_data
                    (MkSched w [])).1)
   <= length (default [] (dag (workflow config))))%nat.
Proof.
  destruct (DAGOrchestrator_execute_trace_ok config input_data w)
    as [Hnodup Hok].
  rewrite <- (length_fmap ev_node), <- (length_fmap fst (default [] _)).
  apply submseteq_length, NoDup_submseteq; [exact Hnodup|].
  intros n Hn. apply list_elem_of_fmap in Hn as (ev & -> & Hev).
  rewrite Forall_forall in Hok. destruct (Hok ev Hev) as [Hin _].
  apply list_elem_of_fmap. by exists (ev_node ev, ev_config ev).
Qed.

Section Blocked.
Context (nodes : list (string * NodeConfig)) (entry : string).
Context (ids : gset string) (Hblocked : blocked nodes entry ids).

Lemma dag_node_blocked input_data node_id node_config st s s' r :
  (node_id, node_config) ∈ nodes ->
  (forall ev, ev ∈ trace s -> ev_node ev ∉ ids) ->
  (forall k, k ∈ ids -> st.1 !! k = None) ->
  dag_node _agents input_data node_id node_config st s = (s', r) ->
  (forall ev, ev ∈ trace s' -> ev_node ev ∉ ids) /\
  (forall st', r = Returned st' -> forall k, k ∈ ids -> st'.1 !! k = None).
Proof.
  intros Hnode Htrace Hres Hrun. destruct st as [results processed_nodes].
  destruct (OrchestrationProps.dag_node_cases _agents input_data node_id
              node_config results processed_nodes s)
    as [[E _]|[(_ & _ & _ & E)|(agent & Hnin & Hall & Hag & E)]];
    cbv zeta in E; rewrite E in Hrun; inversion Hrun; subst; clear Hrun E.
  - split; [exact Htrace|]. intros st' [= <-]. exact Hres.
  - split; [exact Htrace|]. intros st' [=].
  - assert (Hfree : node_id ∉ ids).
    { intros Hin. destruct Hblocked as [_ Hdeps].
      destruct (Hdeps node_id node_config Hnode Hin) as (dep & Hdep & Hdin).
      pose proof (proj1 (OrchestrationProps.all_in_results_spec _ _) Hall)
        as Hall'.
      destruct (Hall' dep Hdep) as [v Hv]. simpl in Hres.
      rewrite (Hres dep Hdin) in Hv. discriminate. }
    split.
    + intros ev Hev. simpl in Hev. apply elem_of_app in Hev as [Hev|Hev];
        [by apply Htrace|].
      apply list_elem_of_singleton in Hev as ->. exact Hfree.
    + intros st' Hret. destruct (agent (world s) _).2 as [e|result];
        [discriminate|]. injection Hret as <-. intros k Hk. simpl.
      rewrite lookup_insert_ne; [by apply Hres|]. by intros ->.
Qed.

Lemma dag_for_blocked input_data items : forall st s s' r,
  items ⊆ nodes ->
  (forall ev, ev ∈ trace s -> ev_node ev ∉ ids) ->
  (forall k, k ∈ ids -> st.1 !! k = None) ->
  dag_for _agents input_data items st s = (s', r) ->
  (forall ev, ev ∈ trace s' -> ev_node ev ∉ ids) /\
  (forall st', r = Returned st' -> forall k, k ∈ ids -> st'.1 !! k = None).
Proof.
  induction items as [|[node_id node_config] items IH];
    intros st s s' r Hsub Htrace Hres Hrun.
  - injection Hrun as <- <-. split; [exact Htrace|]. by intros st' [= <-].
  - simpl in Hrun. unfold bind in Hrun.
    destruct (dag_node _agents input_data node_id node_config st s)
      as [s1 r1] eqn:Hnode.
    apply dag_node_blocked in Hnode as [Htrace1 Hres1];
      [|apply Hsub; left|assumption|assumption].
    destruct r1 as [st1|e|].
    + apply (IH st1 s1); [|assumption|by apply Hres1|assumption].
      intros x Hx. apply Hsub. by right.
    + injection Hrun as <- <-. split; [exact Htrace1|]. intros st' [=].
    + injection Hrun as <- <-. split; [exact Htrace1|]. intros st' [=].
Qed.

Lemma dag_while_blocked input_data max_steps fuel : forall steps st s s' r,
  (forall ev, ev ∈ trace s -> ev_node ev ∉ ids) ->
  (forall k, k ∈ ids -> st.1 !! k = None) ->
  dag_while _agents fuel input_data nodes max_steps steps st s = (s', r) ->
  (forall ev, ev ∈ trace s' -> ev_node ev ∉ ids) /\
  (forall exit, r = Returned exit -> forall k, k ∈ ids -> exit.2.1 !! k = None).
Proof.
  induction fuel as [|fuel IH]; intros steps st s s' r Htrace Hres Hrun;
    simpl in Hrun;
    destruct ((steps <? max_steps) && (size st.2 <? length nodes)%nat);
    try (injection Hrun as <- <-; split; [exact Htrace|];
         first [by intros exit [= <-] | intros exit [=]]).
  unfold bind in Hrun.
  destruct (dag_for _agents input_data nodes st s) as [s1 r1] eqn:Hfor.
  apply dag_for_blocked in Hfor as [Htrace1 Hres1];
    [|done|assumption|assumption].
  destruct r1 as [st1|e|].
  - apply (IH (steps + 1) st1 s1 s' r); [assumption|by apply Hres1|assumption].
  - injection Hrun as <- <-. split; [exact Htrace1|]. intros exit [=].
  - injection Hrun as <- <-. split; [exact Htrace1|]. intros exit [=].
Qed.

End Blocked.

(** X17. The agents of the nodes of a blocked set (nodes on a dependency cycle
    away from the entry point, nodes that wait for an id that is neither a
    node nor the entry point) are never run, whatever the step budget; and
    when the final node is in such a set, [execute] never returns a result:
    there is no other detection of cycles. *)
Theorem blocked_nodes_never_run config input_data (w : W) entry
    (ids : gset string) :
  truthy_str (entry_point (workflow config)) = Some entry ->
  blocked (default [] (dag (workflow config))) entry ids ->
  let run := DAGOrchestrator_execute _agents config input_data (MkSched w []) in
  (forall ev, ev ∈ trace run.1 -> ev_node ev ∉ ids) /\
  (forall final, truthy_str (final_node (workflow config)) = Some final ->
     final ∈ ids -> exists e, run.2 = Raised e).
Proof.
  intros Hentry Hblocked. cbv zeta.
  pose proof (OrchestrationProps.DAGOrchestrator_execute_total _agents config
                input_data (MkSched w [])) as Htotal.
  unfold DAGOrchestrator_execute in *. rewrite Hentry in *.
  destruct (default [] (dag (workflow config))) as [|node dag'] eqn:Hdag.
  { split; [intros ev Hev; inversion Hev|]. intros; by eexists. }
  unfold bind in *.
  destruct (dag_while _ _ _ _ _ _ _ _) as [s1 r1] eqn:Hwhile.
  apply (dag_while_blocked (node :: dag') entry ids Hblocked) in Hwhile
    as [Htrace Hres].
  - destruct r1 as [exit|e|]; simpl in *.
    + destruct (truthy_str (final_node (workflow config))) as [final|] eqn:Hf.
      * destruct (exit.2.1 !! final) as [v|] eqn:Hv; simpl.
        -- split; [exact Htrace|]. intros final' [= <-] Hin.
           rewrite (Hres exit eq_refl final Hin) in Hv. discriminate.
        -- split; [exact Htrace|]. intros; by eexists.
      * split; [exact Htrace|]. intros; discriminate.
    + split; [exact Htrace|]. intros; by eexists.
    + contradiction.
  - intros ev Hev. inversion Hev.
  - intros k Hk. simpl. apply lookup_singleton_ne.
    intros ->. by destruct Hblocked.
Qed.

(** X18. With a step budget that is not positive no agent is run and the
    state of the scheduler is untouched: [execute] returns the normalized
    input when the final node is the entry point, and otherwise raises for
    the final node. *)
Theorem dag_without_budget_runs_nothing config input_data
    (s : Sched W DagEvent) node rest entry :
  default [] (dag (workflow config)) = node :: rest ->
  truthy_str (entry_point (workflow config)) = Some entry ->
  max_steps config <= 0 ->
  DAGOrchestrator_execute _agents config input_data s =
    (s, match truthy_str (final_node (workflow config)) with
        | None => Raised (ValueError "Workflow must specify a final node")
        | Some final =>
            if decide (final = entry) then Returned (_format_input input_data)
            else Raised (ValueError ("Final node " +:+ final
                                     +:+ " was not processed"))
        end).
Proof.
  intros Hdag Hentry Hbudget.
  rewrite (OrchestrationProps.DAGOrchestrator_execute_after_rounds _agents
             config input_data s node rest entry s 0
             ({[ entry := _format_input input_data ]}, ∅) Hdag Hentry).
  - destruct (truthy_str (final_node (workflow config))) as [final|];
      [|reflexivity].
    simpl. destruct (decide (final = entry)) as [->|Hne].
    + by rewrite lookup_singleton_eq.
    + rewrite lookup_singleton_ne by (by intros ->). reflexivity.
  - destruct (Z.to_nat (max_steps config)); cbn [dag_while];
      destruct (Z.ltb_spec 0 (max_steps config)); try lia; reflexivity.
Qed.

(** *** A DAG written in dependency order is run in one pass *)

Lemma dag_for_in_order input_data entry items : forall seen st s,
  in_dependency_order entry seen items ->
  NoDup (seen ++ items.*1) ->
  st.2 = list_to_set seen ->
  (forall k, k = entry \/ k ∈ seen -> is_Some (st.1 !! k)) ->
  let run := dag_for _agents input_data items st s in
  exists evs,
    trace run.1 = (trace s ++ evs)%list /\
    map ev_node evs `prefix_of` items.*1 /\
    forall st', run.2 = Returned st' ->
      map ev_node evs = items.*1 /\
      st'.2 = list_to_set (seen ++ items.*1).
Proof.
  induction items as [|[node_id node_config] items IH];
    intros seen st s Horder Hnodup Hproc Hres; cbv zeta.
  - exists []. simpl. rewrite !app_nil_r. split; [reflexivity|].
    split; [done|]. by intros st' [= <-].
  - destruct Horder as [Hdeps Horder]. destruct st as [results processed_nodes].
    simpl in Hproc, Hres, Hnodup. cbn [dag_for]. unfold bind.
    assert (Hfresh : node_id ∉ processed_nodes).
    { rewrite Hproc, elem_of_list_to_set. intros Hin.
      apply NoDup_app in Hnodup as (_ & Hdisj & _).
      apply (Hdisj node_id Hin). left. }
    assert (Hready : all_in_results results (deps_of node_config) = true).
    { apply OrchestrationProps.all_in_results_spec. intros dep Hdep.
      apply Hres. by apply Hdeps. }
    destruct (OrchestrationProps.dag_node_cases _agents input_data node_id
                node_config results processed_nodes s)
      as [[_ [Hin|Hno]]|[(_ & _ & _ & E)|(agent & _ & _ & _ & E)]];
      [contradiction|congruence| |]; cbv zeta in E; rewrite E.
    + exists []. simpl. rewrite app_nil_r. split; [reflexivity|].
      split; [apply prefix_nil|]. intros st' [=].
    + destruct (agent (world s) _).2 as [e|result]; cbn [fst snd].
      * eexists [_]. simpl. split; [reflexivity|].
        split; [apply prefix_cons, prefix_nil|]. intros st' [=].
      * match goal with |- context [dag_for _agents input_data items ?st1 ?s1] =>
          destruct (IH (seen ++ [node_id])%list st1 s1)
            as (evs & Htr & Hpre & Hret)
        end.
        -- exact Horder.
        -- rewrite <- app_assoc. exact Hnodup.
        -- cbn [snd]. rewrite Hproc, list_to_set_app_L.
           cbn [list_to_set foldr].
           by rewrite (right_id_L ∅ (∪)), (comm_L (∪)).
        -- intros k Hk. simpl. apply lookup_insert_is_Some.
           destruct (decide (node_id = k)) as [->|Hne]; [by left|right].
           split; [exact Hne|]. apply Hres.
           destruct Hk as [->|Hk]; [by left|].
           apply elem_of_app in Hk as [Hk|Hk]; [by right|].
           apply list_elem_of_singleton in Hk. congruence.
        -- cbv zeta in *. cbn [trace] in Htr.
           eexists (_ :: evs). rewrite Htr, <- app_assoc. simpl.
           split; [reflexivity|]. split; [by apply prefix_cons|].
           intros st' Hst'. destruct (Hret st' Hst') as [Hall Hset].
           split; [by f_equal|]. rewrite Hset, <- app_assoc. reflexivity.
Qed.

(** X19. When the nodes of the DAG are written in dependency order (every
    dependency is the entry point or a node written earlier), the agents
    are run in the order in which the nodes are written, each at most once,
    whatever they do; and with a budget of at least one round [execute]
    returns only after it has run every node, in a single scan. *)
Theorem dag_in_dependency_order_runs_in_one_pass config input_data (w : W)
    node rest entry :
  default [] (dag (workflow config)) = node :: rest ->
  truthy_str (entry_point (workflow config)) = Some entry ->
  NoDup ((node :: rest).*1) ->
  in_dependency_order entry [] (node :: rest) ->
  let run := DAGOrchestrator_execute _agents config input_data (MkSched w []) in
  map ev_node (trace run.1) `prefix_of` (node :: rest).*1 /\
  (1 <= max_steps config ->
   forall v, run.2 = Returned v -> map ev_node (trace run.1) = (node :: rest).*1).
Proof.
  intros Hdag Hentry Hnodup Horder. cbv zeta.
  unfold DAGOrchestrator_execute. rewrite Hdag, Hentry. unfold bind.
  destruct (Z.to_nat (max_steps config)) as [|fuel] eqn:Hfuel.
  { cbn [dag_while]. destruct (Z.ltb_spec 0 (max_steps config)); [lia|].
    cbn [andb fst snd].
    assert (Hquiet : forall r : Sched W DagEvent * outcome value,
              r.1 = MkSched w [] ->
              map ev_node (trace r.1) `prefix_of` (node :: rest).*1 /\
              (1 <= max_steps config -> forall v, r.2 = Returned v ->
                 map ev_node (trace r.1) = (node :: rest).*1)).
    { intros r ->. split; [apply prefix_nil|]. lia. }
    apply Hquiet.
    destruct (truthy_str (final_node (workflow config))) as [final|];
      [|reflexivity].
    simpl. destruct (_ !! final); reflexivity. }
  cbn [dag_while]. destruct (Z.ltb_spec 0 (max_steps config)); [|lia].
  change (size (({[ entry := _format_input input_data ]} : gmap string value,
                 (∅ : gset string)).2)) with (size (∅ : gset string)).
  rewrite size_empty. cbn [length Nat.ltb Nat.leb andb]. unfold bind.
  destruct (dag_for_in_order input_data entry (node :: rest) []
              ({[ entry := _format_input input_data ]}, ∅) (MkSched w []))
    as (evs & Htr & Hpre & Hret).
  - exact Horder.
  - exact Hnodup.
  - reflexivity.
  - intros k [->|Hk]; [|inversion Hk]. simpl. rewrite lookup_singleton_eq.
    by eexists.
  - cbv zeta in *. cbn [trace app] in Htr.
    destruct (dag_for _agents input_data (node :: rest) _ _) as [s1 [st1|e|]];
      cbn [fst snd] in *.
    + destruct (Hret st1 eq_refl) as [Hall Hset].
      assert (Hdone : (size st1.2 <? length (node :: rest))%nat = false).
      { apply Nat.ltb_ge. rewrite Hset.
        change ([] ++ (node :: rest).*1)%list with ((node :: rest).*1).
        rewrite size_list_to_set by exact Hnodup.
        rewrite (length_fmap fst (node :: rest)). reflexivity. }
      destruct fuel; cbn [dag_while]; rewrite Hdone, andb_false_r;
        unfold ret, raise; cbn [fst snd];
        (destruct (truthy_str (final_node (workflow config))) as [final|];
         [destruct (_ !! final)|]); cbn [fst snd]; rewrite Htr;
        (split; [exact Hpre|]); intros _ v0 Hv; try discriminate; exact Hall.
    + rewrite Htr. split; [exact Hpre|]. intros _ v [=].
    + rewrite Htr. split; [exact Hpre|]. intros _ v [=].
Qed.

(** *** The input built from an input mapping *)

Lemma dict_get_dict_set k k' v d :
  dict_get k (dict_set k' v d) = if String.eqb k' k then Some v else dict_get k d.
Proof.
  induction d as [|[k0 v0] d IH]; simpl; [reflexivity|].
  destruct (String.eqb_spec k0 k') as [->|Hne]; simpl.
  - destruct (String.eqb k' k); reflexivity.
  - destruct (String.eqb_spec k0 k) as [->|Hne'].
    + destruct (String.eqb_spec k' k) as [->|_]; [contradiction|reflexivity].
    + exact IH.
Qed.

Lemma map_one_mapped_value results mapped_input input_key mapping :
  map_one results mapped_input input_key mapping
  = match mapped_value results mapping with
    | Some v => dict_set input_key v mapped_input
    | None => mapped_input
    end.
Proof.
  unfold map_one, mapped_value, source_of.
  destruct (split_first_dot mapping) as [[source_node source_key]|]; cbv zeta;
    destruct (results !! _) as [source_value|]; try reflexivity.
  destruct source_value; try reflexivity.
  destruct (dict_get source_key _); reflexivity.
Qed.

Lemma fold_map_one_get results k (agent_input : list (string * string)) :
  forall mapped_input,
    NoDup agent_input.*1 ->
    dict_get k (fold_left (fun acc item => map_one results acc item.1 item.2)
                  agent_input mapped_input)
    = match list_to_map (M := gmap string string) agent_input !! k
            ≫= mapped_value results with
      | Some v => Some v
      | None => dict_get k mapped_input
      end.
Proof.
  induction agent_input as [|[k0 m] items IH]; intros mapped_input Hnodup;
    [reflexivity|].
  apply NoDup_cons in Hnodup as [Hk0 Hnodup].
  cbn [fold_left fst snd list_to_map foldr]. rewrite IH by exact Hnodup.
  rewrite map_one_mapped_value.
  destruct (decide (k0 = k)) as [->|Hne].
  - rewrite lookup_insert_eq.
    rewrite (not_elem_of_list_to_map_1 (M := gmap string) items k Hk0).
    cbn [mbind option_bind].
    destruct (mapped_value results m); [|reflexivity].
    by rewrite dict_get_dict_set, String.eqb_refl.
  - rewrite lookup_insert_ne by exact Hne.
    destruct (list_to_map items !! k ≫= mapped_value results); [reflexivity|].
    destruct (mapped_value results m); [|reflexivity].
    rewrite dict_get_dict_set. apply String.eqb_neq in Hne. by rewrite Hne.
Qed.

(** X20. The dict built from an input mapping has, under each input key, what
    the mapping of that key reads: the named field of the result of the
    source node, or the whole result when the mapping is not dotted, the
    result is not a dict or lacks the field. A key whose source node has no
    result is left out without an error. *)
Theorem mapped_input_reads_each_key_from_its_source results
    (agent_input : list (string * string)) k :
  NoDup agent_input.*1 ->
  dict_get k (map_inputs results agent_input)
  = list_to_map (M := gmap string string) agent_input !! k
      ≫= mapped_value results.
Proof.
  intros Hnodup. unfold map_inputs. rewrite fold_map_one_get by exact Hnodup.
  destruct (list_to_map agent_input !! k ≫= mapped_value results); reflexivity.
Qed.

End Schedulers.

(** *** The agents an orchestrator knows *)

Section Membership.
Context `{PyEnv} {W : Type}.

Lemma created_well_keyed (objects : list (AgentObject W)) k agent :
  created objects !! k = Some agent -> config_id agent = k.
Proof.
  unfold created. revert k agent.
  induction objects as [|o objects IH] using rev_ind; intros k agent;
    [intros Hk; inversion Hk|].
  rewrite fold_left_app. simpl. unfold app_create_agent at 1.
  intros Hk. apply lookup_insert_Some in Hk as [[<- <-]|[_ Hk]];
    [reflexivity|by apply IH].
Qed.

Lemma created_lookup (objects : list (AgentObject W)) k :
  created objects !! k
  = find (fun a => String.eqb (config_id a) k) (reverse objects).
Proof.
  induction objects as [|o objects IH] using rev_ind; [reflexivity|].
  unfold created. rewrite fold_left_app. simpl. rewrite reverse_snoc.
  simpl. unfold app_create_agent at 1.
  destruct (String.eqb_spec (config_id o) k) as [<-|Hne].
  - apply lookup_insert_eq.
  - rewrite lookup_insert_ne by exact Hne. exact IH.
Qed.

Lemma orchestrator_agents_lookup (agents : gmap string (AgentObject W))
    (agent_ids : list string) k :
  (forall i agent, agents !! i = Some agent -> config_id agent = i) ->
  orchestrator_agents agents agent_ids !! k
  = if decide (k ∈ agent_ids) then run <$> agents !! k else None.
Proof.
  intros Hkeyed. unfold orchestrator_agents.
  induction agent_ids as [|i ids IH] using rev_ind; [reflexivity|].
  rewrite fold_left_app. cbn [fold_left].
  set (known := fold_left _ ids ∅) in *.
  destruct (agents !! i) as [agent|] eqn:Hi.
  - unfold add_agent. rewrite (Hkeyed i agent Hi).
    destruct (decide (i = k)) as [->|Hne].
    + rewrite lookup_insert_eq, Hi.
      rewrite decide_True by (apply elem_of_app; right; left). reflexivity.
    + rewrite lookup_insert_ne by exact Hne. rewrite IH.
      destruct (decide (k ∈ ids)) as [Hin|Hnin].
      * rewrite decide_True by (apply elem_of_app; by left). reflexivity.
      * rewrite decide_False; [reflexivity|].
        intros Hin. apply elem_of_app in Hin as [Hin|Hin]; [contradiction|].
        apply list_elem_of_singleton in Hin. congruence.
  - rewrite IH. destruct (decide (k ∈ ids)) as [Hin|Hnin].
    + rewrite decide_True by (apply elem_of_app; by left). reflexivity.
    + destruct (decide (k ∈ (ids ++ [i])%list)) as [Hin|_]; [|reflexivity].
      apply elem_of_app in Hin as [Hin|Hin]; [contradiction|].
      apply list_elem_of_singleton in Hin as ->. by rewrite Hi.
Qed.

(** X15. An orchestrator created by the application knows an agent id exactly
    when the id is listed for the orchestrator and the application has
    created an agent with that id, and then it runs the agent created last
    under the id: a listed id that the application does not know is skipped
    without an error. *)
Theorem orchestrator_knows_the_listed_agents_of_the_app
    (objects : list (AgentObject W)) (agent_ids : list string) k :
  orchestrator_agents (created objects) agent_ids !! k
  = if decide (k ∈ agent_ids)
    then run <$> find (fun a => String.eqb (config_id a) k) (reverse objects)
    else None.
Proof.
  rewrite <- created_lookup. apply orchestrator_agents_lookup.
  apply created_well_keyed.
Qed.

Lemma remove_agent_lookup (_agents : gmap string (Agent W)) agent_id :
  remove_agent _agents agent_id !! agent_id = None.
Proof.
  unfold remove_agent. destruct (decide (is_Some (_agents !! agent_id))) as [|Hno].
  - apply lookup_delete_eq.
  - by apply eq_None_not_Some.
Qed.

(** X14. A sequence that names an agent the orchestrator does not know, or one
    that has been removed from it, never yields a result: [execute] raises,
    and that agent is not run (the agents before it in the sequence may have
    been). *)
Theorem unavailable_agent_fails_the_sequence (_agents : gmap string (Agent W))
    config input_data (w : W) a :
  a ∈ default [] (sequence (workflow config)) ->
  let fails (known : gmap string (Agent W)) :=
    let run := SequentialOrchestrator_execute known config input_data
                 (MkSched w []) in
    (exists e, run.2 = Raised e) /\ a ∉ map fst (trace run.1) in
  (_agents !! a = None -> fails _agents) /\
  fails (remove_agent _agents a).
Proof.
  intros Hin. cbv zeta. split.
  - intros Hnone. by apply sequential_unregistered.
  - apply sequential_unregistered; [exact Hin|apply remove_agent_lookup].
Qed.

End Membership.

Section SchedulerExamples.
Import Samples FurtherSamples.

(** Two nodes that wait for each other, one of them the final node. *)
Lemma blocked_nodes_witness :
  let run := DAGOrchestrator_execute abc_agents
               (dag_config cycle_XY (Some "in") (Some "X") 50) (VStr "go")
               (MkSched tt []) in
  (forall ev, ev ∈ trace run.1 -> ev_node ev ∉ ({["X"; "Y"]} : gset string)) /\
  exists e, run.2 = Raised e.
Proof.
  destruct (blocked_nodes_never_run abc_agents
              (dag_config cycle_XY (Some "in") (Some "X") 50) (VStr "go") tt
              "in" {["X"; "Y"]} eq_refl) as [Hnot Hfinal].
  - split; [apply (bool_decide_unpack _); vm_compute; exact I|].
    intros node_id node_config Hin Hid. simpl in Hin.
    apply elem_of_cons in Hin as [Hin|Hin].
    { injection Hin as -> ->. exfalso. revert Hid.
      apply (bool_decide_unpack _). vm_compute. exact I. }
    apply elem_of_cons in Hin as [Hin|Hin].
    { injection Hin as -> ->. exists "Y". split; [left|].
      apply (bool_decide_unpack _). vm_compute. exact I. }
    apply elem_of_cons in Hin as [Hin|Hin]; [|inversion Hin].
    injection Hin as -> ->. exists "X". split; [left|].
    apply (bool_decide_unpack _). vm_compute. exact I.
  - split; [exact Hnot|]. apply (Hfinal "X"); [reflexivity|].
    apply (bool_decide_unpack _). vm_compute. exact I.
Defined.

(** The chain [A -> B -> C] with a budget of zero rounds. *)
Lemma dag_without_budget_witness :
  DAGOrchestrator_execute abc_agents
    (dag_config chain_ABC (Some "A") (Some "C") 0) (VStr "go") empty_sched
  = (empty_sched, Raised (ValueError "Final node C was not processed")).
Proof.
  apply (dag_without_budget_runs_nothing abc_agents
           (dag_config chain_ABC (Some "A") (Some "C") 0) (VStr "go")
           empty_sched ("A", node []) [("B", node ["A"]); ("C", node ["B"])]
           "A").
  - reflexivity.
  - reflexivity.
  - simpl. lia.
Defined.

(** The chain [A -> B -> C], written producer first. *)
Lemma dag_in_dependency_order_witness :
  let run := DAGOrchestrator_execute abc_agents
               (dag_config chain_ABC (Some "A") (Some "C") 50) (VStr "go")
               (MkSched tt []) in
  map ev_node (trace run.1) `prefix_of` ["A"; "B"; "C"] /\
  (forall v, run.2 = Returned v -> map ev_node (trace run.1) = ["A"; "B"; "C"]).
Proof.
  destruct (dag_in_dependency_order_runs_in_one_pass abc_agents
              (dag_config chain_ABC (Some "A") (Some "C") 50) (VStr "go") tt
              ("A", node []) [("B", node ["A"]); ("C", node ["B"])] "A"
              eq_refl eq_refl) as [Hpre Hall].
  - apply (bool_decide_unpack _). vm_compute. exact I.
  - simpl. split; [intros dep Hdep; inversion Hdep|].
    split; [intros dep Hdep; by left; apply list_elem_of_singleton in Hdep|].
    split; [|exact I]. intros dep Hdep. right.
    apply list_elem_of_singleton in Hdep as ->. right. left.
  - split; [exact Hpre|]. apply Hall. simpl. lia.
Defined.

(** A mapping that reads a missing field of a dict, and one that reads a
    node without a result. *)
Lemma mapped_input_witness :
  dict_get "y" (map_inputs some_results some_mapping)
  = Some (VDict [("value", VInt 7)]) /\
  dict_get "u" (map_inputs some_results some_mapping) = None.
Proof.
  assert (Hnodup : NoDup some_mapping.*1)
    by (apply (bool_decide_unpack _); vm_compute; exact I).
  split.
  - exact (eq_trans (mapped_input_reads_each_key_from_its_source some_results
                       some_mapping "y" Hnodup) eq_refl).
  - exact (eq_trans (mapped_input_reads_each_key_from_its_source some_results
                       some_mapping "u" Hnodup) eq_refl).
Defined.

(** The sequence [A, B, C] once [B] has been removed. *)
Lemma unavailable_agent_witness :
  let run := SequentialOrchestrator_execute (remove_agent abc_agents "B")
               (sequential_config ["A"; "B"; "C"]) (VStr "go")
               (MkSched tt []) in
  (exists e, run.2 = Raised e) /\ "B" ∉ map fst (trace run.1).
Proof.
  destruct (unavailable_agent_fails_the_sequence abc_agents
              (sequential_config ["A"; "B"; "C"]) (VStr "go") tt "B")
    as [_ Hremoved].
  - simpl. right. left.
  - exact Hremoved.
Defined.

End SchedulerExamples.
End SchedulerProps.
